(** * PracticeJem: the Express application of app.js over its SQLite store

    A shallow embedding of the request handlers of app.js (todos, rentals
    feed, comments, likes), of the tables declared in db.js and in
    migrations/migrate-create-rentals.js, and of the middleware that runs in
    front of every handler (authenticateJWT, the express-validator chains,
    validateRequest, the global error handler).

    Handlers are programs over the SQL statements they issue; the store is a
    record of tables (lists of rows) with the AUTOINCREMENT counters. *)

From Stdlib Require Import ZArith List String Ascii Bool Lia Permutation Sorted.
Import ListNotations.
Local Open Scope string_scope.
Local Open Scope Z_scope.
Set Warnings "-register-all".

(* ====================================================================== *)
(** ** JavaScript values that cross the HTTP boundary *)
(* ====================================================================== *)

Module JS.

(** A string is the sequence of its code units, one [ascii] for each: the
    text that crosses the boundary is text whose code units are below 256
    (ASCII and the Latin-1 supplement), and [ascii_of_nat 160] is the
    no-break space U+00A0.

    A JSON value as found in a parsed request body or produced by
    JSON.parse. Numbers are restricted to the integers a number holds
    exactly (below 2^53 in absolute value). *)
Inductive value : Type :=
| Null
| Bool (b : bool)
| Num (z : Z)
| Str (s : string)
| Arr (l : list value).

(** ToBoolean: what [x ? a : b], [!!x] and [x || y] test. *)
Definition truthy (v : value) : bool :=
  match v with
  | Null => false
  | Bool b => b
  | Num z => negb (z =? 0)
  | Str s => negb (String.eqb s "")
  | Arr _ => true
  end.

(** [!!x] *)
Definition notnot (v : value) : value := Bool (truthy v).

Definition is_boolean (v : value) : Prop := exists b, v = Bool b.

(** *** Decimal digits *)

Definition digit_of (radix : Z) (c : ascii) : option Z :=
  let n := Z.of_nat (nat_of_ascii c) in
  let d :=
    if (48 <=? n) && (n <=? 57) then Some (n - 48)
    else if (97 <=? n) && (n <=? 122) then Some (n - 97 + 10)
    else if (65 <=? n) && (n <=? 90) then Some (n - 65 + 10)
    else None in
  match d with
  | Some k => if k <? radix then Some k else None
  | None => None
  end.

(** The longest prefix of digits in [radix], read most significant first;
    [None] when the prefix is empty. *)
Fixpoint digits_prefix (radix : Z) (acc : option Z) (s : string) : option Z :=
  match s with
  | EmptyString => acc
  | String c rest =>
      match digit_of radix c with
      | Some d =>
          digits_prefix radix
            (Some (match acc with Some a => a * radix + d | None => d end)) rest
      | None => acc
      end
  end.

(** White space and line terminators, as [parseInt], [trim()] and the
    regular expression class [\s] know them: below 256 these are the tab,
    the line feed, the vertical tab, the form feed, the carriage return, the
    space and the no-break space. *)
Definition is_white (c : ascii) : bool :=
  let n := nat_of_ascii c in
  (Nat.eqb n 32 || Nat.eqb n 9 || Nat.eqb n 10 || Nat.eqb n 11
   || Nat.eqb n 12 || Nat.eqb n 13 || Nat.eqb n 160)%bool.

Fixpoint skip_white (s : string) : string :=
  match s with
  | String c rest => if is_white c then skip_white rest else s
  | EmptyString => s
  end.

Fixpoint forallb_string_with (f : ascii -> bool) (s : string) : bool :=
  match s with
  | EmptyString => true
  | String c rest => f c && forallb_string_with f rest
  end.

Definition is_decimal_digit (c : ascii) : bool :=
  let n := nat_of_ascii c in (Nat.leb 48 n && Nat.leb n 57)%bool.

Definition forallb_string : string -> bool := forallb_string_with is_decimal_digit.

Definition is_char (n : nat) (c : ascii) : bool := Nat.eqb (nat_of_ascii c) n.

(** *** Numbers *)

(** A JS number that is an integer or an infinity; NaN is the [None] of an
    [option number]. A number is a double: it holds an integer exactly up to
    2^53 in absolute value, and beyond that only the integers with 53
    significant bits, up to the largest double. *)
Inductive number : Type :=
| Int (z : Z)
| Infinity (negative : bool).

(** The number an integer value becomes: the nearest double, a tie going to
    the even significand, and an infinity from 2^1024 - 2^970 on. *)
Definition round_double (z : Z) : number :=
  let a := Z.abs z in
  let e := Z.log2 a - 52 in
  if e <=? 0 then Int z
  else
    let q := Z.shiftr a e in
    let r := a - Z.shiftl q e in
    let half := Z.shiftl 1 (e - 1) in
    let q' := if (half <? r) || ((r =? half) && Z.odd q) then q + 1 else q in
    let v := Z.shiftl q' e in
    if Z.shiftl 1 1024 <=? v then Infinity (z <? 0)
    else Int (if z <? 0 then - v else v).

(** [Math.max(a, b)] and [Math.min(a, b)] *)
Definition Math_max (a b : number) : number :=
  match a, b with
  | Int x, Int y => Int (Z.max x y)
  | Infinity false, _ => Infinity false
  | _, Infinity false => Infinity false
  | Infinity true, _ => b
  | _, Infinity true => a
  end.

Definition Math_min (a b : number) : number :=
  match a, b with
  | Int x, Int y => Int (Z.min x y)
  | Infinity true, _ => Infinity true
  | _, Infinity true => Infinity true
  | Infinity false, _ => b
  | _, Infinity false => a
  end.

(** [a + n] for an integer [n]: the sum is rounded like every number. *)
Definition plus (a : number) (n : Z) : number :=
  match a with
  | Int x => round_double (x + n)
  | Infinity _ => a
  end.

(** [a < b] *)
Definition ltb (a b : number) : bool :=
  match a, b with
  | Int x, Int y => x <? y
  | Infinity true, Infinity true => false
  | Infinity true, _ => true
  | _, Infinity false => match a with Infinity false => false | _ => true end
  | _, _ => false
  end.

(** [parseInt(s)] with no radix argument: leading white space is skipped, a
    sign is read, a [0x]/[0X] prefix selects radix 16, and the longest digit
    prefix is the value, as a number. [None] is NaN. *)
Definition parseInt (s : string) : option number :=
  let s1 := skip_white s in
  let '(neg, s2) :=
    match s1 with
    | String c rest =>
        if is_char 45 c then (true, rest)
        else if is_char 43 c then (false, rest)
        else (false, s1)
    | EmptyString => (false, s1)
    end in
  let '(radix, s3) :=
    match s2 with
    | String c0 (String cx rest) =>
        if is_char 48 c0 && (is_char 120 cx || is_char 88 cx)
        then (16, rest) else (10, s2)
    | _ => (10, s2)
    end in
  match digits_prefix radix None s3 with
  | Some n => Some (round_double (if neg then - n else n))
  | None => None
  end.

(** [parseInt(q)] of a query parameter that may be missing:
    [parseInt(undefined)] is NaN. *)
Definition parseInt_opt (q : option string) : option number :=
  match q with
  | Some s => parseInt s
  | None => None
  end.

(** [n || d] on a number: NaN and 0 are falsy. *)
Definition num_or (n : option number) (d : Z) : number :=
  match n with
  | Some (Int k) => if k =? 0 then Int d else Int k
  | Some (Infinity negative) => Infinity negative
  | None => Int d
  end.

(** [String(z)] for an integer. *)
Fixpoint pos_digits (fuel : nat) (z : Z) (acc : string) : string :=
  match fuel with
  | O => acc
  | S f =>
      let d := ascii_of_nat (Z.to_nat (48 + z mod 10)) in
      if z <? 10 then String d acc else pos_digits f (z / 10) (String d acc)
  end.

Definition string_of_Z (z : Z) : string :=
  let fuel := S (Z.to_nat (Z.log2 (Z.abs z))) in
  if z <? 0 then String (ascii_of_nat 45) (pos_digits fuel (- z) "")
  else pos_digits fuel z "".

(** [String(v)] *)
Fixpoint String_ (v : value) : string :=
  match v with
  | Null => "null"
  | Bool true => "true"
  | Bool false => "false"
  | Num z => string_of_Z z
  | Str s => s
  | Arr l =>
      (fix join (l : list value) : string :=
         match l with
         | [] => ""
         | [x] => match x with Null => "" | _ => String_ x end
         | x :: rest =>
             (match x with Null => "" | _ => String_ x end) ++ "," ++ join rest
         end) l
  end.

(** [Number(s)] on the strings that reach it past [isInt]: an optional sign
    followed by decimal digits (exact below 2^53, where row ids live).
    [None] stands for every other string; none of them passes [isInt], so
    none reaches a handler. *)
Definition Number (s : string) : option Z :=
  let '(neg, body) :=
    match s with
    | String c rest =>
        if is_char 45 c then (true, rest)
        else if is_char 43 c then (false, rest)
        else (false, s)
    | EmptyString => (false, s)
    end in
  if forallb_string body then
    match digits_prefix 10 None body with
    | Some n => Some (if neg then - n else n)
    | None => None
    end
  else None.

End JS.


(* ====================================================================== *)
(** ** The validators and sanitizers of the express-validator chains *)
(* ====================================================================== *)

Module Validator.

(** The library stringifies a field before a standard validator or
    sanitizer sees it ([toString(value, deep = true)]): a non-empty array
    stands for its first element, one level deep only; there null becomes
    the empty string and every other value, an array included, its
    [String(value)]. *)
Definition toString_shallow (v : JS.value) : string :=
  match v with
  | JS.Null => ""
  | _ => JS.String_ v
  end.

Definition toString (v : JS.value) : string :=
  match v with
  | JS.Arr (x :: _) => toString_shallow x
  | _ => toString_shallow v
  end.

(** [isInt({ gt: 0 })]: the string is an optional sign followed by one or
    more decimal digits (leading zeros are allowed unless the option
    allow_leading_zeroes is set to false), and its value is greater than 0. *)
Definition isInt_literal (s : string) : bool :=
  let body :=
    match s with
    | String c rest =>
        if JS.is_char 45 c || JS.is_char 43 c then rest else s
    | EmptyString => s
    end in
  match body with
  | EmptyString => false
  | String _ _ => JS.forallb_string body
  end.

Definition isInt_gt0 (s : string) : bool :=
  isInt_literal s &&
  match JS.Number s with
  | Some n => 0 <? n
  | None => false
  end.

(** [isLength({ min: 1 })] *)
Definition isLength_min1 (s : string) : bool := negb (String.eqb s "").

(** [isBoolean()]: one of true, false, 1, 0. *)
Definition isBoolean (s : string) : bool :=
  String.eqb s "true" || String.eqb s "false" || String.eqb s "1" || String.eqb s "0".

(** [trim()]: the white space of [\s] removed at both ends. *)
Fixpoint rtrim (s : string) : string :=
  match s with
  | EmptyString => EmptyString
  | String c rest =>
      match rtrim rest with
      | EmptyString => if JS.is_white c then EmptyString else String c EmptyString
      | r => String c r
      end
  end.

Definition trim (s : string) : string := rtrim (JS.skip_white s).

(** [escape()]: the characters & < > / \ ` and both quotes are replaced by
    HTML entities. *)
Definition escape_char (c : ascii) : string :=
  let n := nat_of_ascii c in
  if Nat.eqb n 38 then "&amp;"
  else if Nat.eqb n 34 then "&quot;"
  else if Nat.eqb n 39 then "&#x27;"
  else if Nat.eqb n 60 then "&lt;"
  else if Nat.eqb n 62 then "&gt;"
  else if Nat.eqb n 47 then "&#x2F;"
  else if Nat.eqb n 92 then "&#x5C;"
  else if Nat.eqb n 96 then "&#96;"
  else String c EmptyString.

Fixpoint escape (s : string) : string :=
  match s with
  | EmptyString => EmptyString
  | String c rest => escape_char c ++ escape rest
  end.

(** One entry of [validationResult(req).array()] after
    [formatValidationErrors]: [{ field: err.param, message: err.msg }]. *)
Definition error : Type := (string * string)%type.

(** [body(f).exists().withMessage(req_msg).bail()
      .isLength({ min: 1 }).withMessage(empty_msg).trim().escape()] *)
Definition required_text (field req_msg empty_msg : string)
    (v : option JS.value) : list error * option JS.value :=
  match v with
  | None => ([(field, req_msg)], None)
  | Some x =>
      let errs := if isLength_min1 (toString x) then [] else [(field, empty_msg)] in
      (errs, Some (JS.Str (escape (trim (toString x)))))
  end.

(** [body(f).optional().isLength({ min: 1 }).withMessage(empty_msg)
      .trim().escape()] *)
Definition optional_text (field empty_msg : string)
    (v : option JS.value) : list error * option JS.value :=
  match v with
  | None => ([], None)
  | Some x =>
      let errs := if isLength_min1 (toString x) then [] else [(field, empty_msg)] in
      (errs, Some (JS.Str (escape (trim (toString x)))))
  end.

(** [body(f).optional().isBoolean().withMessage(msg)]: no sanitizer, the
    field keeps the value the client sent. *)
Definition optional_boolean (field msg : string)
    (v : option JS.value) : list error * option JS.value :=
  match v with
  | None => ([], None)
  | Some x => (if isBoolean (toString x) then [] else [(field, msg)], Some x)
  end.

(** [param('id').isInt({ gt: 0 }).withMessage(...)] *)
Definition param_id (id : string) : list error :=
  if isInt_gt0 id then [] else [("id", "id must be a positive integer")].

End Validator.

(* ====================================================================== *)
(** ** The SQLite store: tables of db.js and migrate-create-rentals.js *)
(* ====================================================================== *)

Module DB.

Record user_row : Type := mkUser {
  u_id : Z;
  u_email : string;
  u_password_hash : string;
  u_name : option string;
  u_created_at : string }.

(** [done INTEGER DEFAULT 0] *)
Record todo_row : Type := mkTodo {
  t_id : Z;
  t_user_id : Z;
  t_text : string;
  t_done : Z;
  t_created_at : string }.

(** [images TEXT] holds the JSON text of the image list, or NULL. *)
Record rental_row : Type := mkRental {
  r_id : Z;
  r_owner_id : Z;
  r_title : string;
  r_description : option string;
  r_price : option Z;
  r_location : option string;
  r_images : option string;
  r_created_at : string;
  r_updated_at : string }.

Record comment_row : Type := mkComment {
  c_id : Z;
  c_rental_id : Z;
  c_user_id : Z;
  c_text : string;
  c_created_at : string }.

(** [UNIQUE(rental_id, user_id)] *)
Record like_row : Type := mkLike {
  l_id : Z;
  l_rental_id : Z;
  l_user_id : Z;
  l_created_at : string }.

(** The database file: the five tables and, for the tables the application
    inserts into, the AUTOINCREMENT counter kept in sqlite_sequence. *)
Record store : Type := mkStore {
  users : list user_row;
  todos : list todo_row;
  rentals : list rental_row;
  comments : list comment_row;
  likes : list like_row;
  seq_todos : Z;
  seq_comments : Z;
  seq_likes : Z }.

Definition empty : store := mkStore [] [] [] [] [] 0 0 0.

Definition set_todos (s : store) (l : list todo_row) (q : Z) : store :=
  mkStore (users s) l (rentals s) (comments s) (likes s) q (seq_comments s) (seq_likes s).
Definition set_comments (s : store) (l : list comment_row) (q : Z) : store :=
  mkStore (users s) (todos s) (rentals s) l (likes s) (seq_todos s) q (seq_likes s).
Definition set_likes (s : store) (l : list like_row) (q : Z) : store :=
  mkStore (users s) (todos s) (rentals s) (comments s) l (seq_todos s) (seq_comments s) q.

(** AUTOINCREMENT: one more than the largest rowid the table ever held. *)
Definition next_rowid (seq : Z) (ids : list Z) : Z :=
  Z.max seq (fold_right Z.max 0 ids) + 1.

Definition user_exists (s : store) (uid : Z) : bool :=
  existsb (fun u => u_id u =? uid) (users s).
Definition rental_exists (s : store) (rid : Z) : bool :=
  existsb (fun r => r_id r =? rid) (rentals s).

Definition like_matches (rid uid : Z) (l : like_row) : bool :=
  (l_rental_id l =? rid) && (l_user_id l =? uid).

(** ORDER BY a key: insertion sort, ascending or descending. *)
Section Sort.
Context {A : Type} (key : A -> Z) (desc : bool).

Definition before (a b : A) : bool :=
  if desc then key b <=? key a else key a <=? key b.

Fixpoint insert_sorted (a : A) (l : list A) : list A :=
  match l with
  | [] => [a]
  | b :: rest => if before a b then a :: l else b :: insert_sorted a rest
  end.

Definition order_by (l : list A) : list A := fold_right insert_sorted [] l.
End Sort.

(** LIMIT n OFFSET k *)
Definition limit_offset {A : Type} (n k : Z) (l : list A) : list A :=
  firstn (Z.to_nat n) (skipn (Z.to_nat k) l).

(** *** Rows as the driver hands them to JavaScript *)

(** [SELECT id, text, created_at, done FROM todos]: a mutable object whose
    [done] is the stored number, until the handler overwrites it. *)
Record todo_json : Type := mkTodoJson {
  tj_id : Z;
  tj_text : string;
  tj_created_at : string;
  tj_done : JS.value }.

Definition todo_public (t : todo_row) : todo_json :=
  mkTodoJson (t_id t) (t_text t) (t_created_at t) (JS.Num (t_done t)).

(** [SELECT c.id, c.text, c.created_at, u.name as user_name
     FROM comments c JOIN users u ON c.user_id = u.id] *)
Record comment_json : Type := mkCommentJson {
  cj_id : Z;
  cj_text : string;
  cj_created_at : string;
  cj_user_name : option string }.

Definition join_user (s : store) (uid : Z) : option user_row :=
  find (fun u => u_id u =? uid) (users s).

Definition comment_joined (s : store) (c : comment_row) : list comment_json :=
  match join_user s (c_user_id c) with
  | Some u => [mkCommentJson (c_id c) (c_text c) (c_created_at c) (u_name u)]
  | None => []
  end.

(** [SELECT r.*, u.name as owner_name FROM rentals r JOIN users u
     ON r.owner_id = u.id] *)
Definition rental_joined (s : store) (r : rental_row) : list (rental_row * option string) :=
  match join_user s (r_owner_id r) with
  | Some u => [(r, u_name u)]
  | None => []
  end.

(** *** Constraint violations raised by a statement *)
Inductive sqlite_error : Type :=
| SQLITE_CONSTRAINT_UNIQUE
| SQLITE_CONSTRAINT_FOREIGNKEY
| SQLITE_MISMATCH.

(** A number bound to [LIMIT ?] or [OFFSET ?]. The driver binds a JS number
    as a REAL, and SQLite takes a REAL there when it is an integer strictly
    between -2^63 and 2^63; for any other the statement fails with a
    datatype mismatch. *)
Definition must_be_int (x : JS.number) : option Z :=
  match x with
  | JS.Int z => if (- 2 ^ 63 <? z) && (z <? 2 ^ 63) then Some z else None
  | JS.Infinity _ => None
  end.

(** *** The statements the handlers prepare, indexed by what they return:
    [get] gives a row or undefined, [all] a list, [run] of an INSERT the
    lastInsertRowid. *)
Inductive stmt : Type -> Type :=
(* SELECT id FROM rentals WHERE id = ? *)
| Rental_id (rid : Z) : stmt (option Z)
(* SELECT id FROM likes WHERE rental_id = ? AND user_id = ? *)
| Like_of (rid uid : Z) : stmt (option Z)
(* DELETE FROM likes WHERE id = ? *)
| Delete_like (id : Z) : stmt unit
(* INSERT INTO likes (rental_id, user_id) VALUES (?, ?) *)
| Insert_like (rid uid : Z) : stmt Z
(* SELECT COUNT( * ) as count FROM likes WHERE rental_id = ? *)
| Count_likes (rid : Z) : stmt Z
(* INSERT INTO comments (rental_id, user_id, text) VALUES (?, ?, ?) *)
| Insert_comment (rid uid : Z) (text : string) : stmt Z
(* SELECT ... FROM comments c JOIN users u ... WHERE c.id = ? *)
| Comment_by_id (id : Z) : stmt (option comment_json)
(* SELECT ... WHERE c.rental_id = ? ORDER BY c.id ASC LIMIT 5 *)
| Comments_first5 (rid : Z) : stmt (list comment_json)
(* SELECT ... WHERE c.rental_id = ? ORDER BY c.id ASC *)
| Comments_all (rid : Z) : stmt (list comment_json)
(* SELECT r.id, ..., u.name as owner_name FROM rentals r JOIN users u
   ON r.owner_id = u.id ORDER BY r.id DESC LIMIT ? OFFSET ? *)
| Feed_page (limit offset : JS.number) : stmt (list (rental_row * option string))
(* SELECT COUNT( * ) as count FROM rentals *)
| Count_rentals : stmt Z
(* SELECT r.*, u.name as owner_name FROM rentals r JOIN users u ... WHERE r.id = ? *)
| Rental_detail (rid : Z) : stmt (option (rental_row * option string))
(* INSERT INTO todos (user_id, text, done) VALUES (?, ?, ?) *)
| Insert_todo (uid : Z) (text : string) (done : Z) : stmt Z
(* SELECT id, text, created_at, done FROM todos WHERE id = ? *)
| Todo_public (id : Z) : stmt (option todo_json)
(* SELECT id, user_id, text, done FROM todos WHERE id = ?
   SELECT id, user_id FROM todos WHERE id = ? *)
| Todo_owner (id : Z) : stmt (option todo_row)
(* SELECT id, text, created_at, done FROM todos WHERE user_id = ? ORDER BY id DESC *)
| Todos_of (uid : Z) : stmt (list todo_json)
(* UPDATE todos SET text = ?, done = ? WHERE id = ?, with the columns the
   handler pushed into [updates] *)
| Update_todo (text : option string) (done : option Z) (id : Z) : stmt unit
(* DELETE FROM todos WHERE id = ? *)
| Delete_todo (id : Z) : stmt unit.

Definition update_todo_row (text : option string) (done : option Z) (t : todo_row) : todo_row :=
  mkTodo (t_id t) (t_user_id t)
    (match text with Some x => x | None => t_text t end)
    (match done with Some d => d | None => t_done t end)
    (t_created_at t).

Definition comments_of (s : store) (rid : Z) : list comment_json :=
  flat_map (comment_joined s)
    (order_by c_id false (filter (fun c => c_rental_id c =? rid) (comments s))).

(** The page of the feed query; a negative LIMIT is no limit. *)
Definition feed_rows (s : store) (limit offset : Z) : list (rental_row * option string) :=
  let joined := flat_map (rental_joined s) (order_by r_id true (rentals s)) in
  if limit <? 0 then skipn (Z.to_nat offset) joined
  else limit_offset limit offset joined.

Definition count_likes (s : store) (rid : Z) : Z :=
  Z.of_nat (List.length (filter (fun l => l_rental_id l =? rid) (likes s))).

(** One statement against the store at time [now] (CURRENT_TIMESTAMP): the
    value it returns and the store it leaves, or the constraint it violates
    (and then the store is as before). *)
Definition exec (now : string) {A : Type} (q : stmt A) (s : store)
    : sqlite_error + (A * store) :=
  match q in stmt T return sqlite_error + (T * store) with
  | Rental_id rid =>
      inr (option_map r_id (find (fun r => r_id r =? rid) (rentals s)), s)
  | Like_of rid uid =>
      inr (option_map l_id (find (like_matches rid uid) (likes s)), s)
  | Delete_like id =>
      inr (tt, set_likes s (filter (fun l => negb (l_id l =? id)) (likes s)) (seq_likes s))
  | Insert_like rid uid =>
      if existsb (like_matches rid uid) (likes s) then inl SQLITE_CONSTRAINT_UNIQUE
      else if rental_exists s rid && user_exists s uid then
        let id := next_rowid (seq_likes s) (map l_id (likes s)) in
        inr (id, set_likes s (likes s ++ [mkLike id rid uid now])%list id)
      else inl SQLITE_CONSTRAINT_FOREIGNKEY
  | Count_likes rid => inr (count_likes s rid, s)
  | Insert_comment rid uid text =>
      if rental_exists s rid && user_exists s uid then
        let id := next_rowid (seq_comments s) (map c_id (comments s)) in
        inr (id, set_comments s (comments s ++ [mkComment id rid uid text now])%list id)
      else inl SQLITE_CONSTRAINT_FOREIGNKEY
  | Comment_by_id id =>
      inr (match find (fun c => c_id c =? id) (comments s) with
           | Some c => hd_error (comment_joined s c)
           | None => None
           end, s)
  | Comments_first5 rid => inr (firstn 5 (comments_of s rid), s)
  | Comments_all rid => inr (comments_of s rid, s)
  | Feed_page limit offset =>
      match must_be_int limit, must_be_int offset with
      | Some n, Some k => inr (feed_rows s n k, s)
      | _, _ => inl SQLITE_MISMATCH
      end
  | Count_rentals => inr (Z.of_nat (List.length (rentals s)), s)
  | Rental_detail rid =>
      inr (match find (fun r => r_id r =? rid) (rentals s) with
           | Some r => hd_error (rental_joined s r)
           | None => None
           end, s)
  | Insert_todo uid text done =>
      if user_exists s uid then
        let id := next_rowid (seq_todos s) (map t_id (todos s)) in
        inr (id, set_todos s (todos s ++ [mkTodo id uid text done now])%list id)
      else inl SQLITE_CONSTRAINT_FOREIGNKEY
  | Todo_public id =>
      inr (option_map todo_public (find (fun t => t_id t =? id) (todos s)), s)
  | Todo_owner id => inr (find (fun t => t_id t =? id) (todos s), s)
  | Todos_of uid =>
      inr (map todo_public
             (order_by t_id true (filter (fun t => t_user_id t =? uid) (todos s))), s)
  | Update_todo text done id =>
      inr (tt, set_todos s
                 (map (fun t => if t_id t =? id then update_todo_row text done t else t)
                      (todos s))
                 (seq_todos s))
  | Delete_todo id =>
      inr (tt, set_todos s (filter (fun t => negb (t_id t =? id)) (todos s)) (seq_todos s))
  end.

End DB.

(* ====================================================================== *)
(** ** The application: middleware and route handlers of app.js *)
(* ====================================================================== *)

Module App.
Import DB.

(** What a handler can throw: an error of a statement from the driver, or a
    TypeError from writing a property of undefined. *)
Inductive exn : Type :=
| SqliteError (e : sqlite_error)
| TypeError.

(** A handler is a program over SQL statements: it answers, throws, or runs
    a statement and goes on with what the statement returned. *)
Inductive prog (A : Type) : Type :=
| Ret (a : A)
| Throw (e : exn)
| Exec {B : Type} (q : stmt B) (k : B -> prog A).
Arguments Ret {A} a.
Arguments Throw {A} e.
Arguments Exec {A B} q k.

Fixpoint bind {A B : Type} (p : prog A) (f : A -> prog B) : prog B :=
  match p with
  | Ret a => f a
  | Throw e => Throw e
  | Exec q k => Exec q (fun b => bind (k b) f)
  end.

Notation "'let*' x ':=' q 'in' k" := (Exec q (fun x => k))
  (at level 10, x pattern, q at level 100, k at level 200).

Fixpoint mapM {A B : Type} (f : A -> prog B) (l : list A) : prog (list B) :=
  match l with
  | [] => Ret []
  | a :: rest => bind (f a) (fun b => bind (mapM f rest) (fun bs => Ret (b :: bs)))
  end.

(** Running a program against the database file. The file is shared with
    every other connection to it (the seed and migration scripts open the
    same file): [others] lists what the other connections commit just
    before each statement of this handler, in order; the empty list is a
    handler running alone. *)
Fixpoint run_with (now : string) (others : list (store -> store)) {A : Type}
    (p : prog A) (s : store) : (exn + A) * store :=
  match p with
  | Ret a => (inr a, s)
  | Throw e => (inl e, s)
  | Exec q k =>
      let s0 := match others with f :: _ => f s | [] => s end in
      match exec now q s0 with
      | inl e => (inl (SqliteError e), s0)
      | inr (b, s1) => run_with now (tl others) (k b) s1
      end
  end.

Definition run (now : string) {A : Type} (p : prog A) (s : store) : (exn + A) * store :=
  run_with now [] p s.

(** *** Responses *)

Record feed_entry : Type := mkFeedEntry {
  fe_id : Z;
  fe_title : string;
  fe_description : option string;
  fe_price : option Z;
  fe_location : option string;
  fe_images : JS.value;
  fe_owner_id : Z;
  fe_owner_name : option string;
  fe_created_at : string;
  fe_comments : list comment_json;
  fe_likes : Z }.

(** [{ ...r, comments, likes }] with [r.images] overwritten by the decoded
    value. *)
Record rental_json : Type := mkRentalJson {
  rj_row : rental_row;
  rj_owner_name : option string;
  rj_images : JS.value;
  rj_comments : list comment_json;
  rj_likes : Z }.

Inductive body : Type :=
| Message (message : string)
| Validation_failed (errors : list Validator.error)
| Liked (liked : bool)
| Todo (todo : todo_json)
| Todos (todos : list todo_json)
| Comment (comment : option comment_json)
| Feed (feed : list feed_entry) (offset limit : JS.number) (total : Z) (hasMore : bool)
| Rental (rental : rental_json).

Record response : Type := mkResponse { status : Z; payload : body }.

(** [res.status(n).json(b)]; [res.json(b)] is status 200. *)
Definition json (n : Z) (b : body) : response := mkResponse n b.

(** The error taxonomy, by status code. *)
Inductive failure : Type :=
| ValidationError
| AuthenticationError
| AuthorizationError
| NotFoundError
| DuplicateError
| InternalError.

Definition failure_of (r : response) : option failure :=
  if status r =? 400 then Some ValidationError
  else if status r =? 401 then Some AuthenticationError
  else if status r =? 403 then Some AuthorizationError
  else if status r =? 404 then Some NotFoundError
  else if status r =? 409 then Some DuplicateError
  else if status r =? 500 then Some InternalError
  else None.

(** *** Middleware *)

(** What [authenticateJWT] finds in the cookie or the Authorization header:
    nothing, a token [jwt.verify] rejects, or a token with its payload. *)
Inductive credential : Type :=
| No_token
| Bad_token
| Token (sub : Z) (email : string).

Record identity : Type := mkIdentity { id : Z; email : string }.

Definition authenticateJWT (c : credential) (next : identity -> prog response)
    : prog response :=
  match c with
  | No_token => Ret (json 401 (Message "Missing token"))
  | Bad_token => Ret (json 401 (Message "Invalid or expired token"))
  | Token sub e => next (mkIdentity sub e)
  end.

Definition validateRequest (errors : list Validator.error) (next : prog response)
    : prog response :=
  match errors with
  | [] => next
  | _ => Ret (json 400 (Validation_failed errors))
  end.

(** The global error handler: whatever a handler throws becomes a 500. *)
Definition error_handler (r : (exn + response) * store) : response * store :=
  match r with
  | (inr resp, s) => (resp, s)
  | (inl _, s) => (json 500 (Message "Internal server error"), s)
  end.

(** One request served by the application, alone on the database. *)
Definition serve (now : string) (p : prog response) (s : store) : response * store :=
  error_handler (run now p s).

(** One request served while other connections write to the database. *)
Definition serve_with (now : string) (others : list (store -> store))
    (p : prog response) (s : store) : response * store :=
  error_handler (run_with now others p s).

(** [const id = Number(req.params.id)] at the head of a handler. The
    validators have let through only integer literals; for any other string
    the handler is given its row-not-found exit, a branch no request
    reaches. *)
Definition with_id (param : string) (not_found : response)
    (next : Z -> prog response) : prog response :=
  match JS.Number param with
  | Some n => next n
  | None => Ret not_found
  end.

(** *** Todos *)

(** POST /api/todos *)
Definition post_todos_handler (user : identity) (text : string) : prog response :=
  let userId := id user in
  let* rowid := Insert_todo userId text 0 in
  let* todo := Todo_public rowid in
  match todo with
  | Some t =>
      let t' := mkTodoJson (tj_id t) (tj_text t) (tj_created_at t) (JS.notnot (tj_done t)) in
      Ret (json 201 (Todo t'))
  | None => Throw TypeError
  end.

(** The [text] a handler destructures from [req.body] once the chain has
    run: the sanitizers have left a string there. *)
Definition body_string (v : option JS.value) : string :=
  match v with
  | Some x => JS.String_ x
  | None => "undefined"
  end.

Definition post_todos (c : credential) (text : option JS.value) : prog response :=
  authenticateJWT c (fun user =>
    let '(errors, text') :=
      Validator.required_text "text" "text is required" "text cannot be empty" text in
    validateRequest errors (post_todos_handler user (body_string text'))).

(** GET /api/todos *)
Definition get_todos (c : credential) : prog response :=
  authenticateJWT c (fun user =>
    let userId := id user in
    let* todos := Todos_of userId in
    let normalized :=
      map (fun t => mkTodoJson (tj_id t) (tj_text t) (tj_created_at t)
                      (JS.notnot (tj_done t))) todos in
    Ret (json 200 (Todos normalized))).

(** PATCH /api/todos/:id *)
Definition patch_todo_handler (user : identity) (param : string)
    (text done : option JS.value) : prog response :=
  let userId := id user in
  with_id param (json 404 (Message "Todo not found")) (fun todoId =>
    let* todo := Todo_owner todoId in
    match todo with
    | None => Ret (json 404 (Message "Todo not found"))
    | Some t =>
        if negb (t_user_id t =? userId)
        then Ret (json 403 (Message "Not authorized to modify this todo"))
        else
          let set_text := option_map JS.String_ text in
          let set_done := option_map (fun d => if JS.truthy d then 1 else 0) done in
          match set_text, set_done with
          | None, None => Ret (json 400 (Message "Nothing to update"))
          | _, _ =>
              let* _ := Update_todo set_text set_done todoId in
              let* updated := Todo_public todoId in
              match updated with
              | Some u =>
                  Ret (json 200 (Todo (mkTodoJson (tj_id u) (tj_text u) (tj_created_at u)
                                         (JS.notnot (tj_done u)))))
              | None => Throw TypeError
              end
          end
    end).

Definition patch_todo_errors (param : string) (text done : option JS.value)
    : list Validator.error :=
  (Validator.param_id param
   ++ fst (Validator.optional_text "text" "text cannot be empty" text)
   ++ fst (Validator.optional_boolean "done" "done must be a boolean" done))%list.

Definition patch_todo (c : credential) (param : string) (text done : option JS.value)
    : prog response :=
  authenticateJWT c (fun user =>
    validateRequest (patch_todo_errors param text done)
      (patch_todo_handler user param
         (snd (Validator.optional_text "text" "text cannot be empty" text))
         (snd (Validator.optional_boolean "done" "done must be a boolean" done)))).

(** DELETE /api/todos/:id *)
Definition delete_todo_handler (user : identity) (param : string) : prog response :=
  let userId := id user in
  with_id param (json 404 (Message "Todo not found")) (fun todoId =>
    let* todo := Todo_owner todoId in
    match todo with
    | None => Ret (json 404 (Message "Todo not found"))
    | Some t =>
        if negb (t_user_id t =? userId)
        then Ret (json 403 (Message "Not authorized to delete this todo"))
        else
          let* _ := Delete_todo todoId in
          Ret (json 200 (Message "Deleted"))
    end).

Definition delete_todo (c : credential) (param : string) : prog response :=
  authenticateJWT c (fun user =>
    validateRequest (Validator.param_id param) (delete_todo_handler user param)).

(** *** Comments and likes *)

(** POST /api/rentals/:id/comments *)
Definition post_comment_handler (user : identity) (param : string) (text : string)
    : prog response :=
  with_id param (json 404 (Message "Rental not found")) (fun rentalId =>
    let userId := id user in
    let* exists_ := Rental_id rentalId in
    match exists_ with
    | None => Ret (json 404 (Message "Rental not found"))
    | Some _ =>
        let* rowid := Insert_comment rentalId userId text in
        let* comment := Comment_by_id rowid in
        Ret (json 201 (Comment comment))
    end).

Definition post_comment_errors (param : string) (text : option JS.value)
    : list Validator.error :=
  (Validator.param_id param
   ++ fst (Validator.required_text "text" "text is required" "text cannot be empty" text))%list.

Definition post_comment (c : credential) (param : string) (text : option JS.value)
    : prog response :=
  authenticateJWT c (fun user =>
    validateRequest (post_comment_errors param text)
      (post_comment_handler user param
         (body_string
            (snd (Validator.required_text "text" "text is required"
                    "text cannot be empty" text))))).

(** POST /api/rentals/:id/like *)
Definition post_like_handler (user : identity) (param : string) : prog response :=
  with_id param (json 404 (Message "Rental not found")) (fun rentalId =>
    let userId := id user in
    let* exists_ := Rental_id rentalId in
    match exists_ with
    | None => Ret (json 404 (Message "Rental not found"))
    | Some _ =>
        let* liked := Like_of rentalId userId in
        match liked with
        | Some liked_id =>
            let* _ := Delete_like liked_id in
            Ret (json 200 (Liked false))
        | None =>
            let* _ := Insert_like rentalId userId in
            Ret (json 200 (Liked true))
        end
    end).

Definition post_like (c : credential) (param : string) : prog response :=
  authenticateJWT c (fun user =>
    validateRequest (Validator.param_id param) (post_like_handler user param)).

(** The seed script's [insertLike]: the same INSERT inside try/catch, the
    unique-constraint violation ignored. *)
Definition insertLike (now : string) (rental_id user_id : Z) (s : store) : store :=
  match exec now (Insert_like rental_id user_id) s with
  | inr (_, s') => s'
  | inl _ => s
  end.

(** *** The feed *)

(** [Math.min(Math.max(parseInt(req.query.limit) || 8, 1), 50)] *)
Definition feed_limit (limit : option string) : JS.number :=
  JS.Math_min (JS.Math_max (JS.num_or (JS.parseInt_opt limit) 8) (JS.Int 1)) (JS.Int 50).

(** [Math.max(parseInt(req.query.offset) || 0, 0)] *)
Definition feed_offset (offset : option string) : JS.number :=
  JS.Math_max (JS.num_or (JS.parseInt_opt offset) 0) (JS.Int 0).

Section Feed.
(** [JSON.parse]: the decoded value, or [None] when it throws a
    SyntaxError. *)
Variable JSON_parse : string -> option JS.value.

(** [let images = []; try { images = JSON.parse(r.images || '[]'); }
     catch (e) { images = []; }] *)
Definition decode_images (images : option string) : JS.value :=
  let text :=
    match images with
    | Some t => if String.eqb t "" then "[]" else t
    | None => "[]"
    end in
  match JSON_parse text with
  | Some v => v
  | None => JS.Arr []
  end.

Definition feed_entry_of (r : rental_row * option string) : prog feed_entry :=
  let images := decode_images (r_images (fst r)) in
  let* comments := Comments_first5 (r_id (fst r)) in
  let* likes := Count_likes (r_id (fst r)) in
  Ret (mkFeedEntry (r_id (fst r)) (r_title (fst r)) (r_description (fst r))
         (r_price (fst r)) (r_location (fst r)) images (r_owner_id (fst r)) (snd r)
         (r_created_at (fst r)) comments likes).

(** GET /api/feed. The count of a table is far below 2^53, a number holds
    it exactly. *)
Definition get_feed (q_limit q_offset : option string) : prog response :=
  let limit := feed_limit q_limit in
  let offset := feed_offset q_offset in
  let* rows := Feed_page limit offset in
  let* total := Count_rentals in
  bind (mapM feed_entry_of rows) (fun feed =>
    let hasMore :=
      JS.ltb (JS.plus offset (Z.of_nat (List.length rows))) (JS.Int total) in
    Ret (json 200 (Feed feed offset limit total hasMore))).

(** GET /api/rentals/:id *)
Definition get_rental_handler (param : string) : prog response :=
  with_id param (json 404 (Message "Rental not found")) (fun rid =>
    let* r := Rental_detail rid in
    match r with
    | None => Ret (json 404 (Message "Rental not found"))
    | Some row =>
        let images := decode_images (r_images (fst row)) in
        let* comments := Comments_all rid in
        let* likes := Count_likes rid in
        Ret (json 200 (Rental (mkRentalJson (fst row) (snd row) images comments likes)))
    end).

Definition get_rental (param : string) : prog response :=
  validateRequest (Validator.param_id param) (get_rental_handler param).
End Feed.

End App.

(* ====================================================================== *)
(** ** Schema constraints and observations on the store *)
(* ====================================================================== *)

Module Schema.
Import DB.

Definition like_pair (l : like_row) : Z * Z := (l_rental_id l, l_user_id l).

(** PRIMARY KEY on every table, UNIQUE(rental_id, user_id) on likes. *)
Record constraints (s : store) : Prop := mkConstraints {
  users_pk : NoDup (map u_id (users s));
  todos_pk : NoDup (map t_id (todos s));
  rentals_pk : NoDup (map r_id (rentals s));
  comments_pk : NoDup (map c_id (comments s));
  likes_pk : NoDup (map l_id (likes s));
  likes_unique : NoDup (map like_pair (likes s)) }.

(** The Like relation: is the pair (listing, user) present? *)
Definition liked (s : store) (rid uid : Z) : bool :=
  existsb (like_matches rid uid) (likes s).

(** Everything but the likes table and its counter. *)
Definition same_but_likes (s s' : store) : Prop :=
  users s' = users s /\ todos s' = todos s /\ rentals s' = rentals s
  /\ comments s' = comments s /\ seq_todos s' = seq_todos s
  /\ seq_comments s' = seq_comments s.

(** Everything but the todos table and its counter. *)
Definition same_but_todos (s s' : store) : Prop :=
  users s' = users s /\ rentals s' = rentals s /\ comments s' = comments s
  /\ likes s' = likes s /\ seq_comments s' = seq_comments s
  /\ seq_likes s' = seq_likes s.

Definition todo_by_id (s : store) (tid : Z) : option todo_row :=
  find (fun t => t_id t =? tid) (todos s).

(** The todos table after [UPDATE todos SET ... WHERE id = tid]. *)
Definition patched_rows (text : option string) (done : option Z) (tid : Z)
    (l : list todo_row) : list todo_row :=
  map (fun t => if t_id t =? tid then update_todo_row text done t else t) l.

(** The feed entry of one row of the page, read off the store. *)
Definition entry_at (JSON_parse : string -> option JS.value) (s : store)
    (r : rental_row * option string) : App.feed_entry :=
  App.mkFeedEntry (r_id (fst r)) (r_title (fst r)) (r_description (fst r))
    (r_price (fst r)) (r_location (fst r))
    (App.decode_images JSON_parse (r_images (fst r)))
    (r_owner_id (fst r)) (snd r) (r_created_at (fst r))
    (firstn 5 (comments_of s (r_id (fst r)))) (count_likes s (r_id (fst r))).

(** [images] is what the stored column decodes to: the empty list when the
    column is NULL or empty, the parsed value when the text parses, the
    empty list when it does not. *)
Definition decodes_to (JSON_parse : string -> option JS.value)
    (stored : option string) (images : JS.value) : Prop :=
  ((stored = None \/ stored = Some "") -> images = JS.Arr [])
  /\ (forall t v, stored = Some t -> t <> "" -> JSON_parse t = Some v -> images = v)
  /\ (forall t, stored = Some t -> JSON_parse t = None -> images = JS.Arr []).

(** The likes table after [DELETE FROM likes WHERE id = ?]. *)
Definition without_id (id : Z) (rows : list like_row) : list like_row :=
  filter (fun l => negb (l_id l =? id)) rows.

(** One toggle of the pair (rid, uid) between two stores: the pair's
    presence is flipped, every other pair is as before, the like count of
    the listing moves by one, and nothing else in the store changes. *)
Definition toggled (s s' : store) (rid uid : Z) : Prop :=
  liked s' rid uid = negb (liked s rid uid)
  /\ (forall r u, (r, u) <> (rid, uid) -> liked s' r u = liked s r u)
  /\ count_likes s' rid = count_likes s rid + (if liked s rid uid then -1 else 1)
  /\ same_but_likes s s'.

(** A request parameter that passes [isInt({ gt: 0 })] and denotes [n]. *)
Definition id_param (param : string) (n : Z) : Prop :=
  Validator.isInt_gt0 param = true /\ JS.Number param = Some n.

End Schema.

(* ====================================================================== *)
(** ** The page size as the specification words it *)
(* ====================================================================== *)

Module Paging.

Definition clamp (lo hi : Z) (x : JS.number) : JS.number :=
  JS.Math_min (JS.Math_max x (JS.Int lo)) (JS.Int hi).

(** "limit is clamped to [1,50], default 8": the requested number clamped,
    8 when the request carries no number. *)
Definition limit_as_specified (requested : option JS.number) : JS.number :=
  match requested with
  | Some n => clamp 1 50 n
  | None => JS.Int 8
  end.

(** "offset clamped to >= 0" *)
Definition offset_as_specified (requested : option JS.number) : JS.number :=
  match requested with
  | Some n => JS.Math_max n (JS.Int 0)
  | None => JS.Int 0
  end.

End Paging.

(* ====================================================================== *)
(** ** A decoder for the image lists the application writes *)
(* ====================================================================== *)

Module Images.

Inductive mode : Type :=
| Open_bracket
| Item_or_close
| In_string (acc : string)
| After_item
| Item
| Closed.

(** Reads the JSON text of a list of strings that need no escaping, as
    [JSON.stringify(filenames)] writes it; anything else is rejected. It
    stands in for [JSON.parse] where an example needs a concrete decoder. *)
Fixpoint read (m : mode) (items : list JS.value) (s : string) : option JS.value :=
  match s with
  | EmptyString =>
      match m with
      | Closed => Some (JS.Arr (rev items))
      | _ => None
      end
  | String c rest =>
      match m with
      | Open_bracket => if JS.is_char 91 c then read Item_or_close items rest else None
      | Item_or_close =>
          if JS.is_char 93 c then read Closed items rest
          else if JS.is_char 34 c then read (In_string "") items rest
          else None
      | Item => if JS.is_char 34 c then read (In_string "") items rest else None
      | In_string acc =>
          if JS.is_char 34 c then read After_item (JS.Str acc :: items) rest
          else if JS.is_char 92 c then None
          else read (In_string (acc ++ String c EmptyString)) items rest
      | After_item =>
          if JS.is_char 44 c then read Item items rest
          else if JS.is_char 93 c then read Closed items rest
          else None
      | Closed => None
      end
  end.

Definition parse (s : string) : option JS.value := read Open_bracket [] s.

End Images.

(* ====================================================================== *)
(** ** A small database used in the examples *)
(* ====================================================================== *)

Module Sample.
Import DB.

Definition quote : string := String (ascii_of_nat 34) EmptyString.

Definition alice : user_row := mkUser 1 "alice@example.com" "x" (Some "Alice") "2024-01-01 10:00:00".
Definition bob : user_row := mkUser 2 "bob@example.com" "x" (Some "Bob") "2024-01-01 10:05:00".

Definition loft : rental_row :=
  mkRental 1 1 "Loft" None (Some 900) (Some "Downtown")
    (Some ("[" ++ quote ++ "/uploads/1-a.png" ++ quote ++ "]"))
    "2024-01-02 09:00:00" "2024-01-02 09:00:00".
Definition studio : rental_row :=
  mkRental 2 2 "Studio" (Some "Cozy") None None None
    "2024-01-03 09:00:00" "2024-01-03 09:00:00".
Definition cabin : rental_row :=
  mkRental 3 1 "Cabin" None None None (Some "{not json")
    "2024-01-04 09:00:00" "2024-01-04 09:00:00".

Definition db : store :=
  mkStore [alice; bob] [mkTodo 1 1 "Write tests" 0 "2024-01-05 08:00:00"]
    [loft; studio; cabin]
    [mkComment 1 1 2 "Looks great!" "2024-01-05 09:00:00"]
    [mkLike 1 1 2 "2024-01-05 09:30:00"]
    1 1 1.

Definition now : string := "2024-01-06 12:00:00".

End Sample.

(* ====================================================================== *)
(** ** Auxiliary notions for the properties of the client and the routes *)
(* ====================================================================== *)

(** The number read so far by [digits_prefix]; nothing read counts as 0. *)
Definition digits_value (a : option Z) : Z :=
  match a with Some x => x | None => 0 end.

(** A todo row as every response shows it: the stored [done] as a boolean. *)
Definition todo_view (t : DB.todo_row) : DB.todo_json :=
  DB.mkTodoJson (DB.t_id t) (DB.t_text t) (DB.t_created_at t)
    (JS.Bool (negb (DB.t_done t =? 0))).

(** The order ORDER BY asks for, between two keys. *)
Definition in_order (desc : bool) (x y : Z) : Prop :=
  if desc then y <= x else x <= y.

(** What GET /api/todos lists for a user, read off the store. *)
Definition todos_listed (s : DB.store) (uid : Z) : list DB.todo_json :=
  map todo_view
    (DB.order_by DB.t_id true (filter (fun t => DB.t_user_id t =? uid) (DB.todos s))).

(** The characters [escape()] replaces, the ampersand apart (it begins the
    entities): both quotes, slash, less-than, greater-than, backslash,
    backquote. *)
Definition raw_html_char (c : ascii) : bool :=
  let n := nat_of_ascii c in
  (Nat.eqb n 34 || Nat.eqb n 39 || Nat.eqb n 47 || Nat.eqb n 60 || Nat.eqb n 62
   || Nat.eqb n 92 || Nat.eqb n 96)%bool.

Definition html_free (s : string) : bool :=
  JS.forallb_string_with (fun c => negb (raw_html_char c)) s.

(** Every text the store holds for a todo or a comment is free of raw HTML
    characters. *)
Definition texts_escaped (s : DB.store) : Prop :=
  Forall (fun t => html_free (DB.t_text t) = true) (DB.todos s)
  /\ Forall (fun c => html_free (DB.c_text c) = true) (DB.comments s).

(** A statement writes no text with a raw HTML character. *)
Definition writes_escaped {A : Type} (q : DB.stmt A) : Prop :=
  match q with
  | DB.Insert_todo _ text _ => html_free text = true
  | DB.Insert_comment _ _ text => html_free text = true
  | DB.Update_todo (Some text) _ _ => html_free text = true
  | _ => True
  end.

(** A handler all of whose statements write escaped texts only, whatever the
    statements before them returned. *)
Inductive escaping {A : Type} : App.prog A -> Prop :=
| escaping_ret (a : A) : escaping (App.Ret a)
| escaping_throw (e : App.exn) : escaping (App.Throw e)
| escaping_exec {B : Type} (q : DB.stmt B) (k : B -> App.prog A) :
    writes_escaped q -> (forall b, escaping (k b)) -> escaping (App.Exec q k).

(** A response that refuses the request. *)
Definition refused (r : App.response) : Prop :=
  App.status r = 400 \/ App.status r = 401 \/ App.status r = 403 \/ App.status r = 404.

(** The token, if there is one, names a row of users. *)
Definition known (s : DB.store) (c : App.credential) : Prop :=
  match c with
  | App.Token sub _ => DB.user_exists s sub = true
  | _ => True
  end.

(** The three ways a request can end: refused with the store untouched,
    failed on the foreign key of an unknown user with the store untouched,
    or served. *)
Definition outcome (s : DB.store) (c : App.credential) (r : App.response * DB.store) : Prop :=
  (snd r = s /\ refused (fst r))
  \/ (snd r = s /\ App.status (fst r) = 500 /\ ~ known s c)
  \/ (App.status (fst r) = 200 \/ App.status (fst r) = 201).

(** Every listing with its owner's name, newest first: what the feed query
    cuts its page from. *)
Definition all_feed_rows (s : DB.store) : list (DB.rental_row * option string) :=
  flat_map (DB.rental_joined s) (DB.order_by DB.r_id true (DB.rentals s)).

(** The [feed] array of a feed response. *)
Definition feed_of (r : App.response) : list App.feed_entry :=
  match App.payload r with
  | App.Feed feed _ _ _ _ => feed
  | _ => []
  end.

(** The [hasMore] flag of a feed response. *)
Definition hasMore_of (r : App.response) : bool :=
  match App.payload r with
  | App.Feed _ _ _ _ hasMore => hasMore
  | _ => false
  end.

(** FOREIGN KEY(owner_id) REFERENCES users(id): every listing has its owner
    among the users. *)
Definition owners_exist (s : DB.store) : Prop :=
  forall r, In r (DB.rentals s) -> DB.user_exists s (DB.r_owner_id r) = true.

(** GET /api/feed?offset=${offset}&limit=${limit}, as the client builds it. *)
Definition feed_page (JSON_parse : string -> option JS.value) (now : string)
    (s : DB.store) (limit offset : Z) : App.response :=
  fst (App.serve now
         (App.get_feed JSON_parse (Some (JS.string_of_Z limit)) (Some (JS.string_of_Z offset)))
         s).

(* ====================================================================== *)
(** ** The feed page in the browser: public/feed.js *)
(* ====================================================================== *)

Module Client.

(** [timeAgo(when)], given [Date.now()] and [new Date(when).getTime()] in
    milliseconds ([None] is the NaN of an invalid date, which fails every
    comparison and prints as NaN). The quotients are exact for differences
    below 2^40 ms. *)
Definition timeAgo (now : Z) (time : option Z) : string :=
  match time with
  | None => "NaNd"
  | Some t =>
      let diff := now - t in
      let mins := diff / 60000 in
      if mins <? 1 then "just now"
      else if mins <? 60 then JS.string_of_Z mins ++ "m"
      else
        let hours := mins / 60 in
        if hours <? 24 then JS.string_of_Z hours ++ "h"
        else
          let days := hours / 24 in
          JS.string_of_Z days ++ "d"
  end.

(** The carousel of a card with [len] images: [show(i)] sets
    [idx = (i + images.length) % images.length]; the operator is the
    remainder of the truncated division. *)
Definition show (len i : Z) : Z := Z.rem (i + len) len.

(** The click handlers of the two buttons, acting on [idx]. *)
Definition prev (len idx : Z) : Z := show len (idx - 1).
Definition next (len idx : Z) : Z := show len (idx + 1).

(** [res.ok] *)
Definition ok (r : App.response) : bool :=
  (200 <=? App.status r) && (App.status r <=? 299).

(** The like button: the count shown on the card after the server answered
    the click. A response that is not ok makes [getJSON] throw and the count
    stays; otherwise [liked ? current + 1 : Math.max(0, current - 1)], with
    [liked] undefined (falsy) when the body has no such field. *)
Definition like_click (r : App.response) (current : Z) : Z :=
  if ok r then
    match App.payload r with
    | App.Liked true => current + 1
    | _ => Z.max 0 (current - 1)
    end
  else current.

(** What [feedEl] holds: cards, and the error notice of a failed load. *)
Inductive element : Type :=
| Card (rental : App.feed_entry)
| Feed_error (message : string).

(** The module state of the infinite scroll. *)
Record scroll : Type := mkScroll {
  feedOffset : Z;
  hasMore : bool;
  feedEl : list element }.

Definition FEED_LIMIT : Z := 6.

(** The network as one call of [loadMore] meets it: the answer to the feed
    request at an offset, and the answers to the (at most two) requests for
    /sample-feed.json; [None] is a request that fails. The message is the
    thrown error's. *)
Record network : Type := mkNetwork {
  fetch_feed : Z -> option App.response;
  fetch_sample : option (list App.feed_entry);
  fetch_sample_again : option (list App.feed_entry);
  failure_message : string }.

(** [getJSON] of the feed: the parsed body of an ok response, or a throw. *)
Definition getJSON_feed (net : network) (offset : Z) : option App.response :=
  match fetch_feed net offset with
  | Some r => if ok r then Some r else None
  | None => None
  end.

(** Rendering a slice of the sample data at the current offset. *)
Definition render_sample (st : scroll) (sample : list App.feed_entry) : scroll :=
  let slice := DB.limit_offset FEED_LIMIT (feedOffset st) sample in
  let offset := feedOffset st + Z.of_nat (List.length slice) in
  mkScroll offset (offset <? Z.of_nat (List.length sample))
    (feedEl st ++ map Card slice)%list.

(** The catch block: the sample data once more, or the error notice. *)
Definition load_fallback (net : network) (st : scroll) : scroll :=
  match fetch_sample_again net with
  | Some sample => render_sample st sample
  | None =>
      mkScroll (feedOffset st) false
        (feedEl st ++ [Feed_error ("Failed to load feed: " ++ failure_message net)])%list
  end.

(** One completed call of [loadMore(feedEl)]. *)
Definition loadMore (net : network) (st : scroll) : scroll :=
  if negb (hasMore st) then st
  else
    match getJSON_feed net (feedOffset st) with
    | Some data =>
        match App.payload data with
        | App.Feed (e :: rest) _ _ _ more =>
            mkScroll (feedOffset st + Z.of_nat (List.length (e :: rest))) more
              (feedEl st ++ map Card (e :: rest))%list
        | _ =>
            if feedOffset st =? 0 then
              match fetch_sample net with
              | Some sample => render_sample st sample
              | None => load_fallback net st
              end
            else mkScroll (feedOffset st) false (feedEl st)
        end
    | None => load_fallback net st
    end.

(** [loadFeed] empties the page and resets the state before the first
    [loadMore]. *)
Definition loadFeed_start : scroll := mkScroll 0 true [].

(** The browser talking to the application over a store nobody writes to:
    every feed request is answered by GET /api/feed. *)
Definition live (JSON_parse : string -> option JS.value) (now : string) (s : DB.store)
    (sample : option (list App.feed_entry)) : network :=
  mkNetwork (fun offset => Some (feed_page JSON_parse now s FEED_LIMIT offset))
    sample sample "".

End Client.

(* ====================================================================== *)
(** ** Tokens and upload names: the helpers at the head of app.js *)
(* ====================================================================== *)

Module Http.

(** [s.split(sep)] for a one-character separator. *)
Fixpoint split_on (sep : ascii) (s : string) : list string :=
  match s with
  | EmptyString => [EmptyString]
  | String c rest =>
      if Ascii.eqb c sep then EmptyString :: split_on sep rest
      else
        match split_on sep rest with
        | h :: t => String c h :: t
        | [] => [String c EmptyString]
        end
  end.

(** [toLowerCase()] on code units below 256: the letters A-Z and the
    capital letters of Latin-1. *)
Definition lower_char (c : ascii) : ascii :=
  let n := nat_of_ascii c in
  if (Nat.leb 65 n && Nat.leb n 90)%bool then ascii_of_nat (n + 32)
  else if (Nat.leb 192 n && Nat.leb n 222 && negb (Nat.eqb n 215))%bool
       then ascii_of_nat (n + 32)
  else c.

Fixpoint toLowerCase (s : string) : string :=
  match s with
  | EmptyString => EmptyString
  | String c rest => String (lower_char c) (toLowerCase rest)
  end.

Definition space : ascii := ascii_of_nat 32.

(** A value that is truthy as a string: present and not empty. *)
Definition nonempty (v : option string) : option string :=
  match v with
  | Some t => if String.eqb t "" then None else Some t
  | None => None
  end.

(** The token [authenticateJWT] picks: the cookie [token] if there is one,
    else the second part of an [Authorization] header of two parts whose
    first is "bearer" in any case. *)
Definition token_of (cookie authorization : option string) : option string :=
  match nonempty cookie with
  | Some t => Some t
  | None =>
      match nonempty authorization with
      | Some h =>
          match split_on space h with
          | [scheme; t] =>
              if String.eqb (toLowerCase scheme) "bearer" then Some t else None
          | _ => None
          end
      | None => None
      end
  end.

(** [authenticateJWT] up to [next()]: [verify] is [jwt.verify] with the
    secret, [None] when it throws. *)
Definition credential_of (verify : string -> option (Z * string))
    (cookie authorization : option string) : App.credential :=
  match nonempty (token_of cookie authorization) with
  | None => App.No_token
  | Some t =>
      match verify t with
      | Some (sub, email) => App.Token sub email
      | None => App.Bad_token
      end
  end.

(** The characters the upload name keeps: letters, digits, dot, hyphen,
    underscore. *)
Definition safe_char (c : ascii) : bool :=
  let n := nat_of_ascii c in
  ((Nat.leb 97 n && Nat.leb n 122) || (Nat.leb 65 n && Nat.leb n 90)
   || (Nat.leb 48 n && Nat.leb n 57)
   || Nat.eqb n 46 || Nat.eqb n 45 || Nat.eqb n 95)%bool.

(** [file.originalname.replace(/[^a-z0-9.\-_-]/gi, '_')] *)
Fixpoint safe_name (s : string) : string :=
  match s with
  | EmptyString => EmptyString
  | String c rest =>
      String (if safe_char c then c else ascii_of_nat 95) (safe_name rest)
  end.

(** The [filename] callback of the disk storage:
    [Date.now() + '-' + Math.round(Math.random() * 1e9)], a hyphen, and the
    safe name. *)
Definition filename (now random : Z) (originalname : string) : string :=
  JS.string_of_Z now ++ "-" ++ JS.string_of_Z random ++ "-" ++ safe_name originalname.

End Http.

(** No space in the string. *)
Definition spaceless (s : string) : bool :=
  JS.forallb_string_with (fun c => negb (Ascii.eqb c Http.space)) s.

(** Every character is one the upload name keeps. *)
Definition all_safe (s : string) : bool := JS.forallb_string_with Http.safe_char s.

(* ====================================================================== *)
(** ** Accounts: POST /api/register, POST /api/login, GET /api/me *)
(* ====================================================================== *)

Module Accounts.
Import DB.

(** The library functions the three routes call, taken as they are:
    validator's [isEmail] and [normalizeEmail], bcrypt's [hashSync] (with
    the salt it drew) and [compareSync], and [jwt.sign] of the payload
    [{ sub, email }] at a time. *)
Record libraries : Type := mkLibraries {
  isEmail : string -> bool;
  normalizeEmail : string -> string;
  hashSync : string -> string -> string;
  compareSync : string -> string -> bool;
  sign : Z -> string -> string -> string }.

(** The database with the AUTOINCREMENT counter of the users table. *)
Record accounts : Type := mkAccounts { base : store; seq_users : Z }.


(** SELECT ... FROM users WHERE email = ? *)
Definition user_by_email (a : accounts) (email : string) : option user_row :=
  find (fun u => String.eqb (u_email u) email) (users (base a)).



(** [SELECT id, email, name, created_at FROM users]: what the routes send
    of a user. *)
Record user_json : Type := mkUserJson {
  uj_id : Z;
  uj_email : string;
  uj_name : option string;
  uj_created_at : string }.


(** What the routes answer. [Logged_in] is the 200 of the login, which also
    sets the [token] cookie to the same token; [Failure] is the
    [{ error }] body of the register handlers of the earlier lessons, and
    [Uncaught] an exception that leaves such a handler (Express answers
    500). *)
Inductive reply : Type :=
| Message (status : Z) (message : string)
| Validation_failed (errors : list Validator.error)
| User (status : Z) (user : option user_json)
| Logged_in (token : string)
| Failure (status : Z) (error : string)
| Uncaught.


(** [body('email').exists().withMessage('email is required').bail()
      .isEmail().withMessage(msg).trim().normalizeEmail()] *)
Definition email_chain (lib : libraries) (msg : string) (v : option JS.value)
    : list Validator.error * option JS.value :=
  match v with
  | None => ([("email", "email is required")], None)
  | Some x =>
      let errs := if isEmail lib (Validator.toString x) then [] else [("email", msg)] in
      (errs, Some (JS.Str (normalizeEmail lib (Validator.trim (Validator.toString x)))))
  end.


(** [body('password').exists().withMessage('password is required')] *)
Definition password_exists (v : option JS.value) : list Validator.error :=
  match v with
  | None => [("password", "password is required")]
  | Some _ => []
  end.

(** [body('name').optional().trim().escape()] followed by [name || null]. *)
Definition name_or_null (v : option JS.value) : option string :=
  match v with
  | None => None
  | Some x =>
      let n := Validator.escape (Validator.trim (Validator.toString x)) in
      if String.eqb n "" then None else Some n
  end.

(** [String(email).toLowerCase()] on the sanitized field. *)
Definition normalized_email (lib : libraries) (msg : string) (v : option JS.value) : string :=
  Http.toLowerCase (App.body_string (snd (email_chain lib msg v))).

Definition internal_error : reply := Message 500 "Internal server error".


(** POST /api/login *)
Definition login (lib : libraries) (now : string)
    (email password : option JS.value) (a : accounts) : reply * accounts :=
  let msg := "email must be valid" in
  match (fst (email_chain lib msg email) ++ password_exists password)%list with
  | _ :: _ as errors => (Validation_failed errors, a)
  | [] =>
      let normalized := normalized_email lib msg email in
      match user_by_email a normalized with
      | None => (Message 401 "Invalid credentials", a)
      | Some user =>
          match password with
          | Some (JS.Str p) =>
              if compareSync lib p (u_password_hash user)
              then (Logged_in (sign lib (u_id user) (u_email user) now), a)
              else (Message 401 "Invalid credentials", a)
          | _ => (internal_error, a)
          end
      end
  end.


(** *** The register handlers of the earlier lessons:
    server.register.js and server.register-enhanced.js *)



(** [String(email).trim().toLowerCase()] *)
Definition lesson_normalized (email : option JS.value) : string :=
  Http.toLowerCase (Validator.trim (App.body_string email)).






(** Stand-ins for the libraries where an example needs them to compute. *)
Definition toy : libraries :=
  mkLibraries
    (fun e => Nat.ltb 1 (List.length (Http.split_on (ascii_of_nat 64) e)))
    (fun e => e)
    (fun p salt => salt ++ "$" ++ p)
    (fun p h => match Http.split_on (ascii_of_nat 36) h with
                | [_; q] => String.eqb p q
                | _ => false
                end)
    (fun sub email now => "jwt." ++ JS.string_of_Z sub ++ "." ++ email ++ "." ++ now).

End Accounts.

(** The sample database with the counter of its users table. *)
Definition sample_accounts : Accounts.accounts := Accounts.mkAccounts Sample.db 2.

(** The integers a JS number holds exactly and [String] prints digit by
    digit: up to [Number.MAX_SAFE_INTEGER] on both sides of zero. *)
Definition safe_integer (z : Z) : Prop := Z.abs z <= 9007199254740991.

(** A database file holds far fewer than 2^53 rows (at most 2^32 pages of at
    most 2^16 bytes each): a JS number counts the listings exactly. *)
Definition countable (s : DB.store) : Prop :=
  Z.of_nat (List.length (DB.rentals s)) < 2 ^ 53.

(* ====================================================================== *)
(** * Properties *)
(* ====================================================================== *)

Import DB App Schema.

Example parseInt_examples :
  JS.parseInt "10" = Some (JS.Int 10) /\ JS.parseInt "0" = Some (JS.Int 0)
  /\ JS.parseInt " -37px" = Some (JS.Int (-37)) /\ JS.parseInt "0x1F" = Some (JS.Int 31)
  /\ JS.parseInt "ten" = None /\ JS.parseInt "" = None
  /\ JS.parseInt (String (ascii_of_nat 160) "5") = Some (JS.Int 5).
Proof. repeat split; reflexivity. Qed.

Example round_double_examples :
  JS.round_double 9007199254740992 = JS.Int 9007199254740992
  /\ JS.round_double 9007199254740993 = JS.Int 9007199254740992
  /\ JS.round_double 9007199254740995 = JS.Int 9007199254740996
  /\ JS.round_double (-9007199254740993) = JS.Int (-9007199254740992)
  /\ JS.round_double 9223372036854775807 = JS.Int 9223372036854775808
  /\ JS.round_double (2 ^ 1024 - 2 ^ 970 - 1) = JS.Int (2 ^ 1024 - 2 ^ 971)
  /\ JS.round_double (2 ^ 1024 - 2 ^ 970) = JS.Infinity false
  /\ JS.round_double (- 10 ^ 400) = JS.Infinity true.
Proof. repeat split; vm_compute; reflexivity. Qed.

Example feed_paging_examples :
  feed_limit None = JS.Int 8 /\ feed_limit (Some "0") = JS.Int 8
  /\ feed_limit (Some "-3") = JS.Int 1 /\ feed_limit (Some "1000") = JS.Int 50
  /\ feed_limit (Some "12abc") = JS.Int 12 /\ feed_limit (Some "abc") = JS.Int 8
  /\ feed_offset None = JS.Int 0 /\ feed_offset (Some "-5") = JS.Int 0
  /\ feed_offset (Some "9007199254740993") = JS.Int 9007199254740992
  /\ must_be_int (feed_offset (Some "9223372036854775807")) = None
  /\ must_be_int (feed_offset (Some "9223372036854774784"))
     = Some 9223372036854774784.
Proof. repeat split; vm_compute; reflexivity. Qed.

Example string_of_Z_examples :
  JS.string_of_Z 1203 = "1203" /\ JS.string_of_Z (-45) = "-45" /\ JS.string_of_Z 0 = "0".
Proof. repeat split; reflexivity. Qed.

Example isInt_examples :
  Validator.isInt_gt0 "7" = true /\ Validator.isInt_gt0 "+12" = true
  /\ Validator.isInt_gt0 "0" = false /\ Validator.isInt_gt0 "-3" = false
  /\ Validator.isInt_gt0 "07" = true /\ Validator.isInt_gt0 "7a" = false
  /\ Validator.isInt_gt0 "1.5" = false /\ Validator.isInt_gt0 " 7" = false
  /\ JS.Number "07" = Some 7 /\ JS.Number "+12" = Some 12
  /\ Validator.isInt_gt0 "" = false.
Proof. repeat split; reflexivity. Qed.

Example toString_examples :
  Validator.toString (JS.Arr [JS.Str "a"; JS.Str "b"]) = "a"
  /\ Validator.toString (JS.Arr [JS.Arr [JS.Num 1; JS.Num 2]]) = "1,2"
  /\ Validator.toString (JS.Arr [JS.Null]) = ""
  /\ Validator.toString (JS.Arr []) = ""
  /\ Validator.toString JS.Null = ""
  /\ Validator.toString (JS.Bool true) = "true"
  /\ Validator.toString (JS.Num 12345678) = "12345678".
Proof. repeat split; reflexivity. Qed.

Example name_examples :
  Accounts.name_or_null (Some (JS.Str (String (ascii_of_nat 160) "Carl"))) = Some "Carl"
  /\ Accounts.name_or_null (Some (JS.Arr [JS.Arr [JS.Str "a"; JS.Str "b"]])) = Some "a,b"
  /\ Accounts.name_or_null (Some (JS.Str " ")) = None
  /\ Accounts.name_or_null (Some JS.Null) = None
  /\ Accounts.lesson_normalized (Some (JS.Str (String (ascii_of_nat 160) "A@B.c ")))
     = "a@b.c".
Proof. repeat split; reflexivity. Qed.

Example sanitize_examples :
  Validator.trim "  a b  " = "a b"
  /\ Validator.trim (String (ascii_of_nat 160) ("hi" ++ String (ascii_of_nat 160) ""))
     = "hi"
  /\ Validator.escape "<b>Tom & Jerry</b>" = "&lt;b&gt;Tom &amp; Jerry&lt;&#x2F;b&gt;".
Proof. repeat split; reflexivity. Qed.

Example images_parse_examples :
  Images.parse "[]" = Some (JS.Arr [])
  /\ Images.parse (JS.String_ (JS.Str "[") ++ String (ascii_of_nat 34) "/uploads/1-a.png"
                   ++ String (ascii_of_nat 34) "]")
     = Some (JS.Arr [JS.Str "/uploads/1-a.png"])
  /\ Images.parse "{not json" = None
  /\ Images.parse "[" = None.
Proof. repeat split; reflexivity. Qed.

(* ---------------------------------------------------------------------- *)
(** ** Generic facts on lookups and runs *)
(* ---------------------------------------------------------------------- *)

Lemma find_existsb_false {A : Type} (f : A -> bool) (l : list A) :
  existsb f l = false -> find f l = None.
Proof.
  induction l as [|a l IH]; simpl; [reflexivity|].
  destruct (f a); simpl; [discriminate | exact IH].
Qed.

Lemma find_existsb_true {A : Type} (f : A -> bool) (l : list A) :
  existsb f l = true -> exists a, find f l = Some a /\ f a = true /\ In a l.
Proof.
  induction l as [|a l IH]; simpl; [discriminate|].
  destruct (f a) eqn:E; simpl; intros H.
  - exists a. auto.
  - destruct (IH H) as (b & Hb & Hf & Hin). exists b. auto.
Qed.

Lemma param_id_ok param n : id_param param n -> Validator.param_id param = [].
Proof. intros [H _]. unfold Validator.param_id. now rewrite H. Qed.

Lemma param_id_bad param :
  Validator.isInt_gt0 param = false ->
  Validator.param_id param = [("id", "id must be a positive integer")].
Proof. intros H. unfold Validator.param_id. now rewrite H. Qed.

Lemma with_id_ok param n not_found next :
  id_param param n -> with_id param not_found next = next n.
Proof. intros [_ H]. unfold with_id. now rewrite H. Qed.

(* ---------------------------------------------------------------------- *)
(** ** Todos: ownership, empty patches *)
(* ---------------------------------------------------------------------- *)

Lemma patch_todo_valid_run now s sub mail param tid text done :
  id_param param tid ->
  patch_todo_errors param text done = [] ->
  serve now (patch_todo (Token sub mail) param text done) s
  = serve now (patch_todo_handler (mkIdentity sub mail) param
                 (snd (Validator.optional_text "text" "text cannot be empty" text))
                 (snd (Validator.optional_boolean "done" "done must be a boolean" done))) s.
Proof.
  intros _ He. unfold patch_todo, authenticateJWT. now rewrite He.
Qed.

Lemma patch_todo_invalid_run now s sub mail param text done :
  patch_todo_errors param text done <> [] ->
  serve now (patch_todo (Token sub mail) param text done) s
  = (json 400 (Validation_failed (patch_todo_errors param text done)), s).
Proof.
  intros He. unfold patch_todo, authenticateJWT, validateRequest.
  destruct (patch_todo_errors param text done); [congruence | reflexivity].
Qed.

Lemma patch_todo_handler_other now s sub mail param tid t text done :
  id_param param tid ->
  todo_by_id s tid = Some t ->
  t_user_id t <> sub ->
  serve now (patch_todo_handler (mkIdentity sub mail) param text done) s
  = (json 403 (Message "Not authorized to modify this todo"), s).
Proof.
  intros Hp Ht Hne. unfold patch_todo_handler. rewrite (with_id_ok _ _ _ _ Hp).
  unfold serve, run. cbn [run_with exec tl id]. unfold todo_by_id in Ht. rewrite Ht.
  apply Z.eqb_neq in Hne. rewrite Hne. reflexivity.
Qed.

Lemma delete_todo_other now s sub mail param tid t :
  id_param param tid ->
  todo_by_id s tid = Some t ->
  t_user_id t <> sub ->
  serve now (delete_todo (Token sub mail) param) s
  = (json 403 (Message "Not authorized to delete this todo"), s).
Proof.
  intros Hp Ht Hne. unfold delete_todo, authenticateJWT.
  rewrite (param_id_ok _ _ Hp). unfold validateRequest, delete_todo_handler.
  rewrite (with_id_ok _ _ _ _ Hp).
  unfold serve, run. cbn [run_with exec tl id]. unfold todo_by_id in Ht. rewrite Ht.
  apply Z.eqb_neq in Hne. rewrite Hne. reflexivity.
Qed.

Lemma sample_constraints : constraints Sample.db.
Proof.
  constructor; cbn; repeat constructor; cbn; intuition congruence.
Qed.

Lemma patch_todo_not_404_when_found now s c param tid t text done :
  JS.Number param = Some tid ->
  todo_by_id s tid = Some t ->
  failure_of (fst (serve now (patch_todo c param text done) s)) <> Some NotFoundError.
Proof.
  intros Hn Ht. unfold patch_todo, authenticateJWT.
  destruct c as [| |sub mail]; try (cbn; discriminate).
  unfold validateRequest.
  destruct (patch_todo_errors param text done); [|cbn; discriminate].
  unfold patch_todo_handler, with_id. rewrite Hn.
  unfold serve, run. cbn [run_with exec tl id]. unfold todo_by_id in Ht. rewrite Ht.
  destruct (negb (t_user_id t =? sub)); [cbn; discriminate|].
  destruct (option_map JS.String_ _) as [x|], (option_map _ _) as [d|];
    cbn [run_with exec tl];
    try match goal with
        | |- context [option_map todo_public ?o] => destruct o
        end; cbn; discriminate.
Qed.

Lemma delete_todo_not_404_when_found now s c param tid t :
  JS.Number param = Some tid ->
  todo_by_id s tid = Some t ->
  failure_of (fst (serve now (delete_todo c param) s)) <> Some NotFoundError.
Proof.
  intros Hn Ht. unfold delete_todo, authenticateJWT.
  destruct c as [| |sub mail]; try (cbn; discriminate).
  unfold validateRequest.
  destruct (Validator.param_id param); [|cbn; discriminate].
  unfold delete_todo_handler, with_id. rewrite Hn.
  unfold serve, run. cbn [run_with exec tl id]. unfold todo_by_id in Ht. rewrite Ht.
  destruct (negb (t_user_id t =? sub)); cbn; discriminate.
Qed.

(** C4, as amended. An authenticated user who is not the owner of an
    existing todo gets an AuthorizationError (403) from DELETE, and from
    PATCH when the body passes the route's validators; a PATCH whose body
    does not pass them is answered with a ValidationError (400), before the
    ownership check. In each case the store (so the todo) is left as it was;
    and no PATCH or DELETE request whatsoever answers NotFoundError (404) for
    a todo id that exists. *)
Theorem todo_non_owner_forbidden now s sub mail param tid t text done :
  id_param param tid ->
  todo_by_id s tid = Some t ->
  t_user_id t <> sub ->
  let patched := serve now (patch_todo (Token sub mail) param text done) s in
  let deleted := serve now (delete_todo (Token sub mail) param) s in
  (patch_todo_errors param text done = [] ->
     failure_of (fst patched) = Some AuthorizationError)
  /\ (patch_todo_errors param text done <> [] ->
      failure_of (fst patched) = Some ValidationError)
  /\ snd patched = s
  /\ (failure_of (fst deleted) = Some AuthorizationError /\ snd deleted = s)
  /\ (forall c p x d,
        JS.Number p = Some tid ->
        failure_of (fst (serve now (patch_todo c p x d) s)) <> Some NotFoundError
        /\ failure_of (fst (serve now (delete_todo c p) s)) <> Some NotFoundError).
Proof.
  intros Hp Ht Hne. cbv zeta.
  rewrite (delete_todo_other _ _ _ _ _ _ _ Hp Ht Hne).
  assert (Hpatch : serve now (patch_todo (Token sub mail) param text done) s
                   = (json 403 (Message "Not authorized to modify this todo"), s)
                     /\ patch_todo_errors param text done = []
                   \/ serve now (patch_todo (Token sub mail) param text done) s
                      = (json 400 (Validation_failed (patch_todo_errors param text done)),
                         s)
                      /\ patch_todo_errors param text done <> []).
  { destruct (patch_todo_errors param text done) as [|e errs] eqn:He.
    - left. split; [|reflexivity].
      rewrite (patch_todo_valid_run _ _ _ _ _ _ _ _ Hp He).
      apply (patch_todo_handler_other _ _ _ _ _ _ _ _ _ Hp Ht Hne).
    - right. assert (Hbad : patch_todo_errors param text done <> [])
        by (rewrite He; discriminate).
      split; [|discriminate]. rewrite <- He.
      apply (patch_todo_invalid_run _ _ _ _ _ _ _ Hbad). }
  split; [|split; [|split; [|split]]].
  - intros He. destruct Hpatch as [[-> _]|[_ Hbad]]; [reflexivity | contradiction].
  - intros He. destruct Hpatch as [[_ Hnil]|[-> _]]; [contradiction | reflexivity].
  - destruct Hpatch as [[-> _]|[-> _]]; reflexivity.
  - split; reflexivity.
  - intros c p x d Hnum. split.
    + eapply patch_todo_not_404_when_found; eauto.
    + eapply delete_todo_not_404_when_found; eauto.
Qed.

Lemma todo_non_owner_forbidden_witness :
  (failure_of (fst (serve Sample.now
                      (patch_todo (Token 2 "bob@example.com") "1" None (Some (JS.Bool true)))
                      Sample.db)) = Some AuthorizationError
   /\ snd (serve Sample.now
             (patch_todo (Token 2 "bob@example.com") "1" None (Some (JS.Bool true)))
             Sample.db) = Sample.db)
  /\ (failure_of (fst (serve Sample.now (delete_todo (Token 2 "bob@example.com") "1")
                         Sample.db)) = Some AuthorizationError
      /\ snd (serve Sample.now (delete_todo (Token 2 "bob@example.com") "1") Sample.db)
         = Sample.db).
Proof.
  assert (Hne : t_user_id (mkTodo 1 1 "Write tests" 0 "2024-01-05 08:00:00") <> 2)
    by (cbn; lia).
  pose proof (todo_non_owner_forbidden Sample.now Sample.db 2 "bob@example.com" "1" 1
                (mkTodo 1 1 "Write tests" 0 "2024-01-05 08:00:00")
                None (Some (JS.Bool true))
                (conj eq_refl eq_refl) eq_refl Hne) as H.
  cbv zeta in H. destruct H as (H1 & _ & H2 & H3 & _).
  split; [split; [exact (H1 eq_refl) | exact H2] | exact H3].
Defined.

(** C4, as stated, fails for a PATCH whose body does not pass validation:
    sent by a user who does not own the todo, it is answered with a
    ValidationError (400) by validateRequest, not with an AuthorizationError. *)
Lemma patch_todo_non_owner_invalid_body_is_400 :
  let r := serve Sample.now
             (patch_todo (Token 2 "bob@example.com") "1" (Some (JS.Str "")) None)
             Sample.db in
  option_map t_user_id (todo_by_id Sample.db 1) = Some 1
  /\ status (fst r) = 400
  /\ failure_of (fst r) = Some ValidationError
  /\ failure_of (fst r) <> Some AuthorizationError.
Proof. cbv zeta. repeat split. discriminate. Qed.

(* ---------------------------------------------------------------------- *)
(** ** AUTOINCREMENT gives fresh row ids *)
(* ---------------------------------------------------------------------- *)

Lemma fold_max_bound (ids : list Z) (i : Z) :
  In i ids -> i <= fold_right Z.max 0 ids.
Proof.
  induction ids as [|a ids IH]; simpl; [tauto|].
  intros [->|H]; [lia | specialize (IH H); lia].
Qed.

Lemma next_rowid_above seq ids i : In i ids -> i < next_rowid seq ids.
Proof. intros H. apply fold_max_bound in H. unfold next_rowid. lia. Qed.

Lemma next_rowid_above_seq seq ids : seq < next_rowid seq ids.
Proof. unfold next_rowid. lia. Qed.

Lemma next_rowid_fresh seq ids : ~ In (next_rowid seq ids) ids.
Proof. intros H. apply (next_rowid_above seq) in H. lia. Qed.

Lemma find_app_fresh {A : Type} (f : A -> bool) (l : list A) (x : A) :
  (forall y, In y l -> f y = false) -> f x = true -> find f (l ++ [x]) = Some x.
Proof.
  intros Hl Hx. induction l as [|a l IH]; simpl.
  - now rewrite Hx.
  - rewrite (Hl a (or_introl eq_refl)). apply IH. intros y Hy. apply Hl. now right.
Qed.

Lemma find_new_todo seq (l : list todo_row) uid text done now :
  let id := next_rowid seq (map t_id l) in
  find (fun t => t_id t =? id) (l ++ [mkTodo id uid text done now])
  = Some (mkTodo id uid text done now).
Proof.
  cbv zeta. apply find_app_fresh.
  - intros y Hy. apply Z.eqb_neq. intros E.
    apply (next_rowid_fresh seq (map t_id l)). rewrite <- E. now apply in_map.
  - cbn. apply Z.eqb_refl.
Qed.

(* ---------------------------------------------------------------------- *)
(** ** Todos: what PATCH changes and what it returns *)
(* ---------------------------------------------------------------------- *)

Lemma find_patched text done tid l :
  find (fun t => t_id t =? tid) (patched_rows text done tid l)
  = option_map (update_todo_row text done) (find (fun t => t_id t =? tid) l).
Proof.
  induction l as [|a l IH]; simpl; [reflexivity|].
  destruct (t_id a =? tid) eqn:E; simpl; rewrite E; [reflexivity | exact IH].
Qed.

Lemma patched_rows_ids text done tid l :
  map t_id (patched_rows text done tid l) = map t_id l.
Proof.
  induction l as [|a l IH]; simpl; [reflexivity|].
  rewrite IH. now destruct (t_id a =? tid).
Qed.

Lemma patched_rows_nth text done tid l n x :
  nth_error l n = Some x ->
  nth_error (patched_rows text done tid l) n
  = Some (if t_id x =? tid then update_todo_row text done x else x).
Proof.
  intros H. unfold patched_rows. now rewrite nth_error_map, H.
Qed.

(** The run of the PATCH handler for the owner, with at least one field. *)
Lemma patch_todo_handler_owner now s sub mail param tid t text done :
  id_param param tid ->
  todo_by_id s tid = Some t ->
  t_user_id t = sub ->
  (text <> None \/ done <> None) ->
  let set_text := option_map JS.String_ text in
  let set_done := option_map (fun d => if JS.truthy d then 1 else 0) done in
  let t' := update_todo_row set_text set_done t in
  serve now (patch_todo_handler (mkIdentity sub mail) param text done) s
  = (json 200 (Todo (mkTodoJson (t_id t') (t_text t') (t_created_at t')
                       (JS.Bool (negb (t_done t' =? 0))))),
     set_todos s (patched_rows set_text set_done tid (todos s)) (seq_todos s)).
Proof.
  intros Hp Ht Ho Hsome. cbv zeta. unfold patch_todo_handler.
  rewrite (with_id_ok _ _ _ _ Hp).
  unfold serve, run. cbn [run_with exec tl id]. unfold todo_by_id in Ht. rewrite Ht.
  rewrite Ho, Z.eqb_refl. cbn [negb].
  assert (Hrun : forall x d,
    error_handler
      (run_with now [] (let* _ := Update_todo x d tid in
                        let* updated := Todo_public tid in
                        match updated with
                        | Some u =>
                            Ret (json 200 (Todo (mkTodoJson (tj_id u) (tj_text u)
                                                   (tj_created_at u) (JS.notnot (tj_done u)))))
                        | None => Throw TypeError
                        end) s)
    = (json 200 (Todo (mkTodoJson (t_id (update_todo_row x d t))
                         (t_text (update_todo_row x d t))
                         (t_created_at (update_todo_row x d t))
                         (JS.Bool (negb (t_done (update_todo_row x d t) =? 0))))),
       set_todos s (patched_rows x d tid (todos s)) (seq_todos s))).
  { intros x d. cbn [run_with exec tl set_todos todos].
    fold (patched_rows x d tid (todos s)). rewrite find_patched, Ht. reflexivity. }
  destruct text as [x|], done as [d|]; cbn [option_map]; try apply Hrun.
  destruct Hsome; congruence.
Qed.

Lemma find_some_id (l : list todo_row) tid t :
  find (fun x => t_id x =? tid) l = Some t -> In t l /\ t_id t = tid.
Proof.
  intros H. apply find_some in H. destruct H as [Hin He]. split; [exact Hin | lia].
Qed.

Lemma NoDup_map_inj {A B : Type} (f : A -> B) (l : list A) (x y : A) :
  NoDup (map f l) -> In x l -> In y l -> f x = f y -> x = y.
Proof.
  induction l as [|a l IH]; simpl; [tauto|].
  intros Hnd Hx Hy E. inversion Hnd as [|? ? Hnotin Hnd']; subst.
  destruct Hx as [->|Hx], Hy as [->|Hy]; auto.
  - exfalso. apply Hnotin. rewrite E. now apply in_map.
  - exfalso. apply Hnotin. rewrite <- E. now apply in_map.
Qed.

Lemma optional_text_none text :
  text = None -> snd (Validator.optional_text "text" "text cannot be empty" text) = None.
Proof. now intros ->. Qed.

Lemma optional_text_some text :
  text <> None -> snd (Validator.optional_text "text" "text cannot be empty" text) <> None.
Proof. destruct text; [discriminate | congruence]. Qed.

Lemma optional_boolean_snd done :
  snd (Validator.optional_boolean "done" "done must be a boolean" done) = done.
Proof. now destruct done. Qed.

(** C8. A successful PATCH of a todo by its owner changes only the columns
    the body supplies: without [text] the text stays, without [done] the done
    flag stays, id, owner and created_at always stay, no row is added or
    removed, every other todo row is as before, and so is every other
    table. *)
Theorem patch_todo_frame now s sub mail param tid t text done :
  constraints s ->
  id_param param tid ->
  todo_by_id s tid = Some t ->
  t_user_id t = sub ->
  patch_todo_errors param text done = [] ->
  (text <> None \/ done <> None) ->
  let r := serve now (patch_todo (Token sub mail) param text done) s in
  status (fst r) = 200
  /\ (exists t',
        todo_by_id (snd r) tid = Some t'
        /\ t_id t' = t_id t /\ t_user_id t' = t_user_id t
        /\ t_created_at t' = t_created_at t
        /\ (text = None -> t_text t' = t_text t)
        /\ (done = None -> t_done t' = t_done t))
  /\ List.length (todos (snd r)) = List.length (todos s)
  /\ (forall n x, nth_error (todos s) n = Some x -> x <> t ->
                  nth_error (todos (snd r)) n = Some x)
  /\ same_but_todos s (snd r)
  /\ seq_todos (snd r) = seq_todos s.
Proof.
  intros Hc Hp Ht Ho He Hsome. cbv zeta.
  rewrite (patch_todo_valid_run _ _ _ _ _ _ _ _ Hp He).
  rewrite optional_boolean_snd.
  assert (Hsome' : snd (Validator.optional_text "text" "text cannot be empty" text) <> None
                   \/ done <> None).
  { destruct Hsome as [H|H]; [left; now apply optional_text_some | now right]. }
  rewrite (patch_todo_handler_owner _ _ _ _ _ _ _ _ _ Hp Ht Ho Hsome').
  cbn [fst snd status json].
  destruct (find_some_id _ _ _ Ht) as [Hin Hid].
  split; [reflexivity|]. split; [|split; [|split; [|split]]].
  - eexists. split.
    + unfold todo_by_id. cbn [todos set_todos]. rewrite find_patched.
      unfold todo_by_id in Ht. rewrite Ht. reflexivity.
    + cbn. repeat split; auto.
      * intros ->. reflexivity.
      * intros ->. reflexivity.
  - cbn [todos set_todos]. unfold patched_rows. apply length_map.
  - intros n x Hn Hx. cbn [todos set_todos].
    rewrite (patched_rows_nth _ _ _ _ _ _ Hn).
    destruct (t_id x =? tid) eqn:E; [|reflexivity].
    exfalso. apply Hx. apply (NoDup_map_inj t_id (todos s)).
    + apply (todos_pk _ Hc).
    + eapply nth_error_In; eauto.
    + exact Hin.
    + lia.
  - repeat split.
  - reflexivity.
Qed.

Lemma patch_todo_frame_witness :
  let r := serve Sample.now
             (patch_todo (Token 1 "alice@example.com") "1" None (Some (JS.Bool true)))
             Sample.db in
  status (fst r) = 200
  /\ todo_by_id (snd r) 1 = Some (mkTodo 1 1 "Write tests" 1 "2024-01-05 08:00:00").
Proof.
  pose proof (patch_todo_frame Sample.now Sample.db 1 "alice@example.com" "1" 1
                (mkTodo 1 1 "Write tests" 0 "2024-01-05 08:00:00")
                None (Some (JS.Bool true))
                sample_constraints (conj eq_refl eq_refl) eq_refl eq_refl eq_refl
                (or_intror (fun H => eq_ind (Some (JS.Bool true))
                                       (fun o => match o with Some _ => True | None => False end)
                                       I None H))) as H.
  cbv zeta in H. destruct H as (H1 & _). cbv zeta. split; [exact H1 | reflexivity].
Defined.

(** C9. A PATCH of an existing todo by its owner whose body has neither
    [text] nor [done] is answered 400 "Nothing to update", a ValidationError,
    and the store is left as it was. *)
Theorem patch_todo_nothing_to_update now s sub mail param tid t :
  id_param param tid ->
  todo_by_id s tid = Some t ->
  t_user_id t = sub ->
  let r := serve now (patch_todo (Token sub mail) param None None) s in
  r = (json 400 (Message "Nothing to update"), s)
  /\ failure_of (fst r) = Some ValidationError.
Proof.
  intros Hp Ht Ho. cbv zeta.
  assert (E : serve now (patch_todo (Token sub mail) param None None) s
              = (json 400 (Message "Nothing to update"), s)).
  { unfold patch_todo, authenticateJWT, patch_todo_errors.
    rewrite (param_id_ok _ _ Hp). cbn [Validator.optional_text Validator.optional_boolean
                                        fst snd app validateRequest].
    unfold patch_todo_handler. rewrite (with_id_ok _ _ _ _ Hp).
    unfold serve, run. cbn [run_with exec tl id]. unfold todo_by_id in Ht. rewrite Ht.
    rewrite Ho, Z.eqb_refl. reflexivity. }
  rewrite E. split; reflexivity.
Qed.

Lemma patch_todo_nothing_to_update_witness :
  serve Sample.now (patch_todo (Token 1 "alice@example.com") "1" None None) Sample.db
  = (json 400 (Message "Nothing to update"), Sample.db).
Proof.
  apply (patch_todo_nothing_to_update Sample.now Sample.db 1 "alice@example.com" "1" 1
           (mkTodo 1 1 "Write tests" 0 "2024-01-05 08:00:00")
           (conj eq_refl eq_refl) eq_refl eq_refl).
Defined.

(* ---------------------------------------------------------------------- *)
(** ** Todos: the done flag in responses *)
(* ---------------------------------------------------------------------- *)

Lemma post_todos_handler_run now s sub mail text :
  user_exists s sub = true ->
  let rowid := next_rowid (seq_todos s) (map t_id (todos s)) in
  serve now (post_todos_handler (mkIdentity sub mail) text) s
  = (json 201 (Todo (mkTodoJson rowid text now (JS.Bool false))),
     set_todos s (todos s ++ [mkTodo rowid sub text 0 now])%list rowid).
Proof.
  intros Hu. cbv zeta. unfold post_todos_handler, serve, run.
  cbn [run_with exec tl id]. rewrite Hu. cbn [run_with exec tl todos set_todos].
  rewrite find_new_todo. reflexivity.
Qed.

Lemma post_todos_handler_no_user now s sub mail text :
  user_exists s sub = false ->
  serve now (post_todos_handler (mkIdentity sub mail) text) s
  = (json 500 (Message "Internal server error"), s).
Proof.
  intros Hu. unfold post_todos_handler, serve, run.
  cbn [run_with exec tl id]. rewrite Hu. reflexivity.
Qed.

Lemma post_todos_done_false now s c text t :
  payload (fst (serve now (post_todos c text) s)) = Todo t -> tj_done t = JS.Bool false.
Proof.
  unfold post_todos, authenticateJWT.
  destruct c as [| |sub mail]; try (cbn; discriminate).
  destruct (Validator.required_text _ _ _ text) as [errors text'].
  unfold validateRequest. destruct errors; [|cbn; discriminate].
  destruct (user_exists s sub) eqn:Hu.
  - rewrite (post_todos_handler_run _ _ _ _ _ Hu). cbn. intros H. now inversion H.
  - rewrite (post_todos_handler_no_user _ _ _ _ _ Hu). cbn. discriminate.
Qed.

Lemma get_todos_done_boolean now s c l :
  payload (fst (serve now (get_todos c) s)) = Todos l ->
  Forall (fun t => JS.is_boolean (tj_done t)) l.
Proof.
  unfold get_todos, authenticateJWT.
  destruct c as [| |sub mail]; try (cbn; discriminate).
  unfold serve, run. cbn [run_with exec tl id error_handler fst payload json].
  intros H. inversion H. apply Forall_forall. intros t Ht.
  apply in_map_iff in Ht. destruct Ht as (x & <- & _). cbn. now eexists.
Qed.

Lemma patch_todo_done_boolean now s c param text done t :
  payload (fst (serve now (patch_todo c param text done) s)) = Todo t ->
  JS.is_boolean (tj_done t).
Proof.
  unfold patch_todo, authenticateJWT.
  destruct c as [| |sub mail]; try (cbn; discriminate).
  unfold validateRequest.
  destruct (patch_todo_errors param text done); [|cbn; discriminate].
  unfold patch_todo_handler, with_id.
  destruct (JS.Number param) as [tid|]; [|cbn; discriminate].
  unfold serve, run. cbn [run_with exec tl id].
  destruct (find _ (todos s)) as [row|]; [|cbn; discriminate].
  destruct (negb (t_user_id row =? sub)); [cbn; discriminate|].
  destruct (option_map JS.String_ _) as [x|], (option_map _ _) as [d|];
    cbn [run_with exec tl];
    try match goal with
        | |- context [option_map todo_public ?o] => destruct o
        end; cbn; try discriminate;
    intros H; inversion H; cbn; now eexists.
Qed.

(** C10. Every todo the interface returns (create, list, patch) carries a
    boolean [done], whatever integer the store holds; creating a todo
    succeeds for a known user with a non-empty text, and the todo it returns
    has [done] false. *)
Theorem todo_done_is_boolean now s c :
  (forall text t,
      payload (fst (serve now (post_todos c text) s)) = Todo t ->
      tj_done t = JS.Bool false)
  /\ (forall l,
        payload (fst (serve now (get_todos c) s)) = Todos l ->
        Forall (fun t => JS.is_boolean (tj_done t)) l)
  /\ (forall param text done t,
        payload (fst (serve now (patch_todo c param text done) s)) = Todo t ->
        JS.is_boolean (tj_done t))
  /\ (forall sub mail x,
        c = Token sub mail ->
        user_exists s sub = true ->
        Validator.toString x <> "" ->
        exists t, fst (serve now (post_todos c (Some x)) s) = json 201 (Todo t)
                  /\ tj_done t = JS.Bool false).
Proof.
  split; [|split; [|split]].
  - intros text t. apply post_todos_done_false.
  - intros l. apply get_todos_done_boolean.
  - intros param text done t. apply patch_todo_done_boolean.
  - intros sub mail x -> Hu Hx. unfold post_todos, authenticateJWT, Validator.required_text.
    unfold Validator.isLength_min1.
    destruct (String.eqb_spec (Validator.toString x) ""); [contradiction|].
    cbn [negb validateRequest]. rewrite (post_todos_handler_run _ _ _ _ _ Hu).
    eexists. split; reflexivity.
Qed.

Lemma todo_done_is_boolean_witness :
  (exists t, fst (serve Sample.now
                    (post_todos (Token 1 "alice@example.com") (Some (JS.Str "Buy milk")))
                    Sample.db) = json 201 (Todo t)
             /\ tj_done t = JS.Bool false)
  /\ Forall (fun t => JS.is_boolean (tj_done t))
       [mkTodoJson 1 "Write tests" "2024-01-05 08:00:00" (JS.Bool false)].
Proof.
  destruct (todo_done_is_boolean Sample.now Sample.db (Token 1 "alice@example.com"))
    as (_ & Hlist & _ & Hnew).
  split.
  - apply (Hnew 1 "alice@example.com" (JS.Str "Buy milk") eq_refl eq_refl).
    cbn. discriminate.
  - apply Hlist. reflexivity.
Defined.

(* ---------------------------------------------------------------------- *)
(** ** The feed: page bounds and decoded images *)
(* ---------------------------------------------------------------------- *)

Lemma run_bind now {A B : Type} (p : prog A) (f : A -> prog B) s :
  run_with now [] (bind p f) s
  = match run_with now [] p s with
    | (inr a, s') => run_with now [] (f a) s'
    | (inl e, s') => (inl e, s')
    end.
Proof.
  revert s. induction p as [a|e|C q k IH]; intros s; cbn [bind run_with tl].
  - reflexivity.
  - reflexivity.
  - destruct (exec now q s) as [err|[b s1]]; [reflexivity | apply IH].
Qed.

Section FeedFacts.
Variable JSON_parse : string -> option JS.value.

Lemma feed_entries_run now s rows :
  run_with now [] (mapM (feed_entry_of JSON_parse) rows) s
  = (inr (map (entry_at JSON_parse s) rows), s).
Proof.
  induction rows as [|r rows IH]; [reflexivity|].
  cbn [mapM map]. rewrite run_bind.
  replace (run_with now [] (feed_entry_of JSON_parse r) s)
    with (@inr exn _ (entry_at JSON_parse s r), s) by reflexivity.
  rewrite run_bind, IH. reflexivity.
Qed.

Lemma get_feed_run now s q_limit q_offset n k :
  must_be_int (feed_limit q_limit) = Some n ->
  must_be_int (feed_offset q_offset) = Some k ->
  let rows := feed_rows s n k in
  let total := Z.of_nat (List.length (rentals s)) in
  serve now (get_feed JSON_parse q_limit q_offset) s
  = (json 200 (Feed (map (entry_at JSON_parse s) rows) (feed_offset q_offset)
                 (feed_limit q_limit) total
                 (JS.ltb (JS.plus (feed_offset q_offset) (Z.of_nat (List.length rows)))
                    (JS.Int total))), s).
Proof.
  intros Hn Hk. cbv zeta. unfold get_feed, serve.
  unfold run. cbn [run_with exec tl]. rewrite Hn, Hk. cbn [run_with exec tl].
  rewrite run_bind, feed_entries_run. reflexivity.
Qed.

Lemma get_feed_mismatch now s q_limit q_offset :
  must_be_int (feed_offset q_offset) = None ->
  serve now (get_feed JSON_parse q_limit q_offset) s
  = (json 500 (Message "Internal server error"), s).
Proof.
  intros Hk. unfold get_feed, serve, run. cbn [run_with exec tl]. rewrite Hk.
  destruct (must_be_int (feed_limit q_limit)); reflexivity.
Qed.

Lemma decode_images_cases (stored : option string) :
  JSON_parse "[]" = Some (JS.Arr []) ->
  decodes_to JSON_parse stored (decode_images JSON_parse stored).
Proof.
  intros H0. unfold decodes_to, decode_images. repeat split.
  - intros [->| ->]; cbn; now rewrite H0.
  - intros t v -> Hne Hv. destruct (String.eqb_spec t ""); [contradiction|].
    now rewrite Hv.
  - intros t -> Hn. destruct (String.eqb_spec t "") as [->|_].
    + now rewrite H0.
    + now rewrite Hn.
Qed.
End FeedFacts.


(** The limit of a feed request is an integer of [1,50], its offset an
    integer that is not negative or the infinity. *)
Lemma feed_limit_int q_limit :
  exists n, feed_limit q_limit = JS.Int n /\ 1 <= n <= 50.
Proof.
  unfold feed_limit, JS.num_or.
  destruct (JS.parseInt_opt q_limit) as [[k|[|]]|]; cbn.
  - destruct (k =? 0); cbn; eexists; (split; [reflexivity | lia]).
  - exists 1. split; [reflexivity | lia].
  - exists 50. split; [reflexivity | lia].
  - exists 8. split; [reflexivity | lia].
Qed.

Lemma feed_limit_bound q_limit :
  exists n, feed_limit q_limit = JS.Int n /\ must_be_int (feed_limit q_limit) = Some n
            /\ 1 <= n <= 50.
Proof.
  destruct (feed_limit_int q_limit) as (n & E & Hn). exists n. rewrite E.
  repeat split; try lia. unfold must_be_int.
  destruct (Z.ltb_spec (- 2 ^ 63) n); [|lia]. destruct (Z.ltb_spec n (2 ^ 63)); [|lia].
  reflexivity.
Qed.

Lemma feed_offset_shape q_offset :
  feed_offset q_offset = JS.Infinity false
  \/ exists k, feed_offset q_offset = JS.Int k /\ 0 <= k.
Proof.
  unfold feed_offset, JS.num_or.
  destruct (JS.parseInt_opt q_offset) as [[k|[|]]|]; cbn.
  - right. destruct (k =? 0); cbn; eexists; (split; [reflexivity | lia]).
  - right. exists 0. split; [reflexivity | lia].
  - now left.
  - right. exists 0. split; [reflexivity | lia].
Qed.




(** The detail route decodes the stored images the same way. *)
Lemma get_rental_images_decoded JSON_parse now s param rid row :
  JSON_parse "[]" = Some (JS.Arr []) ->
  id_param param rid ->
  find (fun r => r_id r =? rid) (rentals s) = Some row ->
  forall owner, join_user s (r_owner_id row) = Some owner ->
  exists rental,
    serve now (get_rental JSON_parse param) s = (json 200 (Rental rental), s)
    /\ decodes_to JSON_parse (r_images row) (rj_images rental).
Proof.
  intros H0 Hp Hrow owner Ho. unfold get_rental. rewrite (param_id_ok _ _ Hp).
  cbn [validateRequest]. unfold get_rental_handler. rewrite (with_id_ok _ _ _ _ Hp).
  unfold serve, run. cbn [run_with exec tl]. rewrite Hrow.
  unfold rental_joined. rewrite Ho. cbn [hd_error run_with exec tl error_handler fst snd].
  eexists. split; [reflexivity|]. cbn. now apply decode_images_cases.
Qed.

(** The clamp the handler applies to the parsed query parameters. *)
Lemma feed_limit_cases q_limit :
  feed_limit q_limit
  = match JS.parseInt_opt q_limit with
    | Some (JS.Int 0) | None => JS.Int 8
    | Some n => Paging.clamp 1 50 n
    end.
Proof.
  unfold feed_limit, JS.num_or, Paging.clamp.
  destruct (JS.parseInt_opt q_limit) as [[n|neg]|]; try reflexivity.
  destruct n; reflexivity.
Qed.

Lemma feed_offset_cases q_offset :
  feed_offset q_offset = Paging.offset_as_specified (JS.parseInt_opt q_offset).
Proof.
  unfold feed_offset, JS.num_or, Paging.offset_as_specified.
  destruct (JS.parseInt_opt q_offset) as [[n|neg]|]; try reflexivity.
  destruct (Z.eqb_spec n 0) as [->|_]; reflexivity.
Qed.

(** C5, as amended. [parseInt] reads the requested limit and offset as
    numbers. The limit of the page is the requested limit clamped to [1,50],
    or 8 when no limit is supplied, when it is not a number, or when it is 0;
    the offset is the requested offset clamped to at least 0 (0 when absent
    or not a number). The limit is an integer of [1,50] in every case and the
    offset is not negative. When the offset is below 2^63 the page is cut
    with LIMIT [limit] OFFSET [offset] and both are reported in the response;
    from 2^63 on the page query is refused and the request answered 500. *)
Theorem feed_paging_clamped JSON_parse now s q_limit q_offset :
  let limit :=
    match JS.parseInt_opt q_limit with
    | Some (JS.Int 0) | None => JS.Int 8
    | Some n => Paging.clamp 1 50 n
    end in
  let offset := Paging.offset_as_specified (JS.parseInt_opt q_offset) in
  feed_limit q_limit = limit
  /\ feed_offset q_offset = offset
  /\ exists n,
       limit = JS.Int n /\ 1 <= n <= 50
       /\ match offset with
          | JS.Int k =>
              0 <= k
              /\ if k <? 2 ^ 63
                 then exists total hasMore,
                     serve now (get_feed JSON_parse q_limit q_offset) s
                     = (json 200 (Feed (map (entry_at JSON_parse s) (feed_rows s n k))
                                    offset limit total hasMore), s)
                 else serve now (get_feed JSON_parse q_limit q_offset) s
                      = (json 500 (Message "Internal server error"), s)
          | JS.Infinity negative =>
              negative = false
              /\ serve now (get_feed JSON_parse q_limit q_offset) s
                 = (json 500 (Message "Internal server error"), s)
          end.
Proof.
  cbv zeta. rewrite <- feed_limit_cases, <- feed_offset_cases.
  split; [reflexivity|]. split; [reflexivity|].
  destruct (feed_limit_bound q_limit) as (n & En & Hn & Hrange).
  exists n. split; [exact En|]. split; [exact Hrange|].
  destruct (feed_offset_shape q_offset) as [E|(k & E & Hk0)].
  - rewrite E. split; [reflexivity|]. apply get_feed_mismatch. now rewrite E.
  - assert (Hshape : feed_offset q_offset = JS.Int k) by exact E.
    rewrite E. split; [exact Hk0|].
    destruct (Z.ltb_spec k (2 ^ 63)) as [Hlt|Hge].
    + assert (Hk : must_be_int (feed_offset q_offset) = Some k).
      { rewrite Hshape. unfold must_be_int.
        destruct (Z.ltb_spec (- 2 ^ 63) k); [|lia].
        destruct (Z.ltb_spec k (2 ^ 63)); [reflexivity | lia]. }
      do 2 eexists.
      rewrite (get_feed_run JSON_parse now s q_limit q_offset n k Hn Hk).
      rewrite Hshape, En. reflexivity.
    + apply get_feed_mismatch. rewrite Hshape. unfold must_be_int.
      destruct (Z.ltb_spec k (2 ^ 63)); [lia|]. now rewrite andb_false_r.
Qed.

(** C5, as stated, fails for a requested limit of 0: the handler answers with
    the default 8, where clamping 0 to [1,50] gives 1. *)
Lemma feed_limit_zero_is_default :
  JS.parseInt_opt (Some "0") = Some (JS.Int 0)
  /\ feed_limit (Some "0") = JS.Int 8
  /\ Paging.limit_as_specified (JS.parseInt_opt (Some "0")) = JS.Int 1
  /\ feed_limit (Some "0") <> Paging.limit_as_specified (JS.parseInt_opt (Some "0")).
Proof. repeat split. discriminate. Qed.

(* ---------------------------------------------------------------------- *)
(** ** The likes table under its constraints *)
(* ---------------------------------------------------------------------- *)

Lemma like_matches_pair rid uid l :
  like_matches rid uid l = true <-> like_pair l = (rid, uid).
Proof.
  unfold like_matches, like_pair. rewrite andb_true_iff, !Z.eqb_eq.
  split; [intros [-> ->]; reflexivity | intros H; inversion H; auto].
Qed.

Lemma liked_iff s rid uid :
  liked s rid uid = true <-> In (rid, uid) (map like_pair (likes s)).
Proof.
  unfold liked. rewrite existsb_exists, in_map_iff.
  split; intros (l & H1 & H2).
  - exists l. split; [now apply like_matches_pair | exact H1].
  - exists l. split; [exact H2 | now apply like_matches_pair].
Qed.

(** A key that is unique in a table stays unique in any selection of its
    rows. *)
Lemma unique_after_delete {R K : Type} (key : R -> K) (keep : R -> bool)
    (rows : list R) (Hunique : NoDup (map key rows)) :
  NoDup (map key (filter keep rows)).
Proof.
  induction rows as [|a rows IH]; simpl; [constructor|].
  inversion Hunique as [|? ? Hnotin Hnd]; subst.
  destruct (keep a); simpl; [constructor|]; auto.
  intros Hin. apply Hnotin. apply in_map_iff in Hin. destruct Hin as (x & Hx & Hf).
  apply filter_In in Hf. rewrite <- Hx. apply in_map. tauto.
Qed.

Lemma filter_all {A : Type} (p : A -> bool) (l : list A) :
  (forall x, In x l -> p x = true) -> filter p l = l.
Proof.
  induction l as [|a l IH]; simpl; [reflexivity|].
  intros H. rewrite (H a (or_introl eq_refl)). f_equal. apply IH. auto.
Qed.

Section DeleteById.
Variable rows : list like_row.
Variable row : like_row.
Hypothesis pk : NoDup (map l_id rows).
Hypothesis present : In row rows.

Lemma without_id_iff x : In x (without_id (l_id row) rows) <-> In x rows /\ x <> row.
Proof.
  unfold without_id. rewrite filter_In, negb_true_iff, Z.eqb_neq. split.
  - intros [Hin Hne]. split; [exact Hin | intros ->; now apply Hne].
  - intros [Hin Hne]. split; [exact Hin|]. intros E. apply Hne.
    now apply (NoDup_map_inj l_id rows).
Qed.

Lemma without_id_count (p : like_row -> bool) :
  p row = true ->
  List.length (filter p rows) = S (List.length (filter p (without_id (l_id row) rows))).
Proof.
  intros Hp. unfold without_id. revert pk present.
  induction rows as [|a l IH]; simpl; [tauto|].
  intros Hnd Hin. inversion Hnd as [|? ? Hnotin Hnd']; subst.
  destruct (Z.eqb_spec (l_id a) (l_id row)) as [E|E]; cbn [negb].
  - assert (a = row) by (apply (NoDup_map_inj l_id (a :: l)); simpl; auto).
    subst a. rewrite Hp. simpl. rewrite (filter_all (fun x => negb (l_id x =? l_id row)) l).
    + reflexivity.
    + intros x Hx. apply negb_true_iff, Z.eqb_neq. intros Ex. apply Hnotin.
      rewrite <- Ex. now apply in_map.
  - destruct Hin as [->|Hin]; [congruence|].
    simpl. destruct (p a); simpl; rewrite (IH Hnd' Hin); reflexivity.
Qed.
End DeleteById.

Lemma NoDup_snoc {A : Type} (l : list A) (x : A) :
  NoDup l -> ~ In x l -> NoDup (l ++ [x]).
Proof.
  induction l as [|a l IH]; simpl; intros Hnd Hx.
  - constructor; [tauto | constructor].
  - inversion Hnd as [|? ? Hnotin Hnd']; subst. constructor.
    + rewrite in_app_iff. simpl. intuition congruence.
    + apply IH; tauto.
Qed.

Lemma constraints_set_likes s rows q :
  constraints s ->
  NoDup (map l_id rows) -> NoDup (map like_pair rows) ->
  constraints (set_likes s rows q).
Proof. intros [] H1 H2. constructor; assumption. Qed.

Lemma rental_id_found s rid :
  rental_exists s rid = true ->
  exists r, find (fun r => r_id r =? rid) (rentals s) = Some r.
Proof.
  intros H. destruct (find_existsb_true _ _ H) as (r & Hr & _). now exists r.
Qed.

(** DELETE of the row of a pair, by its id. *)
Lemma delete_like_toggled s rid uid l q :
  constraints s ->
  In l (likes s) -> like_matches rid uid l = true ->
  constraints (set_likes s (without_id (l_id l) (likes s)) q)
  /\ toggled s (set_likes s (without_id (l_id l) (likes s)) q) rid uid.
Proof.
  intros Hc Hin Hm. pose proof (likes_pk _ Hc) as Hpk. pose proof (likes_unique _ Hc) as Hun.
  assert (Hliked : liked s rid uid = true).
  { unfold liked. apply existsb_exists. eauto. }
  apply like_matches_pair in Hm.
  split.
  - apply constraints_set_likes; auto; unfold without_id; now apply unique_after_delete.
  - unfold toggled. rewrite Hliked. cbn [negb]. repeat split.
    + apply not_true_is_false. unfold liked. cbn [likes set_likes]. intros H.
      apply existsb_exists in H. destruct H as (x & Hx & Hxm).
      apply (without_id_iff _ _ Hpk Hin) in Hx. destruct Hx as [Hx Hne].
      apply Hne. apply (NoDup_map_inj like_pair (likes s)); auto.
      apply like_matches_pair in Hxm. congruence.
    + intros r u Hru. unfold liked. cbn [likes set_likes]. apply eq_true_iff_eq.
      rewrite !existsb_exists. split; intros (x & Hx & Hxm); exists x; split; auto.
      * apply (without_id_iff _ _ Hpk Hin) in Hx. tauto.
      * apply (without_id_iff _ _ Hpk Hin). split; [exact Hx|].
        intros ->. apply like_matches_pair in Hxm. congruence.
    + unfold count_likes. cbn [likes set_likes].
      rewrite (without_id_count _ _ Hpk Hin (fun x => l_rental_id x =? rid)).
      * lia.
      * inversion Hm. apply Z.eqb_refl.
Qed.

(** INSERT of a pair that is not there. *)
Lemma insert_like_toggled now s rid uid :
  constraints s ->
  liked s rid uid = false ->
  let id := next_rowid (seq_likes s) (map l_id (likes s)) in
  let s' := set_likes s (likes s ++ [mkLike id rid uid now])%list id in
  constraints s' /\ toggled s s' rid uid.
Proof.
  intros Hc Hl. cbv zeta. split.
  - apply constraints_set_likes; auto; rewrite map_app; apply NoDup_snoc.
    + apply (likes_pk _ Hc).
    + cbn. apply next_rowid_fresh.
    + apply (likes_unique _ Hc).
    + cbn. intros H. apply liked_iff in H. cbn in H. congruence.
  - unfold toggled. rewrite Hl. cbn [negb]. repeat split.
    + unfold liked. cbn [likes set_likes]. rewrite existsb_app.
      cbn [existsb]. unfold like_matches at 2. cbn [l_rental_id l_user_id].
      rewrite !Z.eqb_refl. cbn [andb orb]. apply orb_true_r.
    + intros r u Hru. unfold liked. cbn [likes set_likes]. rewrite existsb_app.
      cbn [existsb]. unfold like_matches at 2. cbn [l_rental_id l_user_id].
      replace ((rid =? r) && (uid =? u)) with false; [now rewrite !orb_false_r|].
      symmetry. apply not_true_is_false. rewrite andb_true_iff, !Z.eqb_eq.
      intros [-> ->]. now apply Hru.
    + unfold count_likes. cbn [likes set_likes]. rewrite filter_app, length_app.
      cbn [filter l_rental_id]. rewrite Z.eqb_refl. cbn [List.length]. lia.
Qed.

(* ---------------------------------------------------------------------- *)
(** ** Toggle like *)
(* ---------------------------------------------------------------------- *)

Lemma post_like_enter now others s uid mail param rid :
  id_param param rid ->
  serve_with now others (post_like (Token uid mail) param) s
  = serve_with now others (post_like_handler (mkIdentity uid mail) param) s.
Proof.
  intros Hp. unfold post_like, authenticateJWT. now rewrite (param_id_ok _ _ Hp).
Qed.

(** One toggle, served alone, on a listing that exists. *)
Lemma post_like_run now s uid mail param rid :
  constraints s ->
  id_param param rid ->
  rental_exists s rid = true ->
  (liked s rid uid = false -> user_exists s uid = true) ->
  exists s',
    serve now (post_like (Token uid mail) param) s
    = (json 200 (Liked (negb (liked s rid uid))), s')
    /\ constraints s' /\ toggled s s' rid uid.
Proof.
  intros Hc Hp Hr Hu. change (serve now) with (serve_with now []).
  rewrite (post_like_enter _ _ _ _ _ _ _ Hp).
  unfold post_like_handler. rewrite (with_id_ok _ _ _ _ Hp).
  unfold serve_with. cbn [run_with exec tl id].
  destruct (rental_id_found _ _ Hr) as (r & ->). cbn [option_map].
  destruct (liked s rid uid) eqn:Hl.
  - destruct (find_existsb_true _ _ Hl) as (l & Hfind & Hm & Hin).
    cbn [run_with exec tl]. rewrite Hfind. cbn [option_map run_with exec tl error_handler].
    eexists. split; [reflexivity|].
    assert (Hl' : liked s rid uid = true) by exact Hl.
    destruct (delete_like_toggled s rid uid l (seq_likes s) Hc Hin Hm) as [H1 H2].
    split; [exact H1 | exact H2].
  - cbn [run_with exec tl]. rewrite (find_existsb_false _ _ Hl).
    cbn [option_map run_with exec tl]. unfold liked in Hl. rewrite Hl.
    rewrite Hr, (Hu eq_refl). cbn [andb run_with error_handler].
    eexists. split; [reflexivity|].
    apply insert_like_toggled; auto.
Qed.

Lemma post_like_missing now s uid mail param rid :
  id_param param rid ->
  rental_exists s rid = false ->
  serve now (post_like (Token uid mail) param) s
  = (json 404 (Message "Rental not found"), s).
Proof.
  intros Hp Hr. change (serve now) with (serve_with now []).
  rewrite (post_like_enter _ _ _ _ _ _ _ Hp).
  unfold post_like_handler. rewrite (with_id_ok _ _ _ _ Hp).
  unfold serve_with. cbn [run_with exec tl id].
  unfold rental_exists in Hr. rewrite (find_existsb_false _ _ Hr). reflexivity.
Qed.

Lemma same_but_likes_exists s s' :
  same_but_likes s s' ->
  (forall rid, rental_exists s' rid = rental_exists s rid)
  /\ (forall uid, user_exists s' uid = user_exists s uid).
Proof.
  intros (Hu & _ & Hr & _). unfold rental_exists, user_exists. now rewrite Hu, Hr.
Qed.

(** C1. For a listing that exists and an authenticated user, toggle-like
    flips the presence of the pair (listing, user): a pair that is present is
    removed (the count of the listing drops by one) and the answer is
    [{liked:false}]; a pair that is absent is inserted (the count grows by
    one) and the answer is [{liked:true}]; every other pair and every other
    table is as before. For a listing id that does not exist the answer is
    NotFoundError (404) and the store is unchanged. *)
Theorem post_like_toggles now s uid mail param rid :
  constraints s ->
  id_param param rid ->
  user_exists s uid = true ->
  let r := serve now (post_like (Token uid mail) param) s in
  (rental_exists s rid = true ->
     (liked s rid uid = true ->
        fst r = json 200 (Liked false) /\ liked (snd r) rid uid = false
        /\ count_likes (snd r) rid = count_likes s rid - 1)
     /\ (liked s rid uid = false ->
           fst r = json 200 (Liked true) /\ liked (snd r) rid uid = true
           /\ count_likes (snd r) rid = count_likes s rid + 1)
     /\ (forall r' u', (r', u') <> (rid, uid) -> liked (snd r) r' u' = liked s r' u')
     /\ same_but_likes s (snd r)
     /\ constraints (snd r))
  /\ (rental_exists s rid = false ->
        fst r = json 404 (Message "Rental not found")
        /\ failure_of (fst r) = Some NotFoundError
        /\ snd r = s).
Proof.
  intros Hc Hp Hu. cbv zeta. split.
  - intros Hr.
    destruct (post_like_run now s uid mail param rid Hc Hp Hr (fun _ => Hu))
      as (s' & -> & Hc' & Ht & Ho & Hcount & Hsame).
    cbn [fst snd].
    split; [intros H; rewrite Ht, Hcount, H; cbn [negb]; repeat split; lia|].
    split; [intros H; rewrite Ht, Hcount, H; cbn [negb]; repeat split; lia|].
    split; [exact Ho|]. split; [exact Hsame | exact Hc'].
  - intros Hr. rewrite (post_like_missing _ _ _ _ _ _ Hp Hr). repeat split.
Qed.

Lemma post_like_toggles_witness :
  let r := serve Sample.now (post_like (Token 2 "bob@example.com") "1") Sample.db in
  let r' := serve Sample.now (post_like (Token 2 "bob@example.com") "9") Sample.db in
  (fst r = json 200 (Liked false) /\ liked (snd r) 1 2 = false
   /\ count_likes (snd r) 1 = count_likes Sample.db 1 - 1)
  /\ (fst r' = json 404 (Message "Rental not found")
      /\ failure_of (fst r') = Some NotFoundError /\ snd r' = Sample.db).
Proof.
  cbv zeta. split.
  - pose proof (post_like_toggles Sample.now Sample.db 2 "bob@example.com" "1" 1
                  sample_constraints (conj eq_refl eq_refl) eq_refl) as H.
    cbv zeta in H. destruct H as [H _]. destruct (H eq_refl) as [Hp _]. exact (Hp eq_refl).
  - pose proof (post_like_toggles Sample.now Sample.db 2 "bob@example.com" "9" 9
                  sample_constraints (conj eq_refl eq_refl) eq_refl) as H.
    cbv zeta in H. destruct H as [_ H]. exact (H eq_refl).
Defined.

(** C2. On a listing that exists, two toggles in a row by the same user, with
    nothing in between, undo each other: the second answers [{liked:false}]
    when the first answered [{liked:true}] (and the other way round), the
    stored like count of the listing is what it was before the first call,
    and so is the presence of every pair. *)
Theorem post_like_twice now1 now2 s uid mail param rid :
  constraints s ->
  id_param param rid ->
  rental_exists s rid = true ->
  user_exists s uid = true ->
  let first := serve now1 (post_like (Token uid mail) param) s in
  let second := serve now2 (post_like (Token uid mail) param) (snd first) in
  (fst first = json 200 (Liked true) -> fst second = json 200 (Liked false))
  /\ (fst first = json 200 (Liked false) -> fst second = json 200 (Liked true))
  /\ (fst first = json 200 (Liked true) \/ fst first = json 200 (Liked false))
  /\ count_likes (snd second) rid = count_likes s rid
  /\ (forall r u, liked (snd second) r u = liked s r u).
Proof.
  intros Hc Hp Hr Hu. cbv zeta.
  destruct (post_like_run now1 s uid mail param rid Hc Hp Hr (fun _ => Hu))
    as (s1 & -> & Hc1 & Ht1 & Ho1 & Hcount1 & Hsame1).
  cbn [fst snd].
  destruct (same_but_likes_exists _ _ Hsame1) as [Hr1 Hu1].
  assert (Hr' : rental_exists s1 rid = true) by now rewrite Hr1.
  assert (Hu' : user_exists s1 uid = true) by now rewrite Hu1.
  destruct (post_like_run now2 s1 uid mail param rid Hc1 Hp Hr' (fun _ => Hu'))
    as (s2 & -> & Hc2 & Ht2 & Ho2 & Hcount2 & Hsame2).
  cbn [fst snd]. rewrite Ht1, negb_involutive.
  destruct (liked s rid uid) eqn:Hl; cbn [negb]; repeat split; try congruence; auto.
  - rewrite Hcount2, Hcount1, Ht1. cbn [negb]. lia.
  - intros r u. destruct (Z.eq_dec r rid) as [->|Hne1].
    + destruct (Z.eq_dec u uid) as [->|Hne2].
      * rewrite Ht2, Ht1, Hl. reflexivity.
      * rewrite Ho2, Ho1; congruence.
    + rewrite Ho2, Ho1; congruence.
  - rewrite Hcount2, Hcount1, Ht1. cbn [negb]. lia.
  - intros r u. destruct (Z.eq_dec r rid) as [->|Hne1].
    + destruct (Z.eq_dec u uid) as [->|Hne2].
      * rewrite Ht2, Ht1, Hl. reflexivity.
      * rewrite Ho2, Ho1; congruence.
    + rewrite Ho2, Ho1; congruence.
Qed.

Lemma post_like_twice_witness :
  let first := serve Sample.now (post_like (Token 1 "alice@example.com") "2") Sample.db in
  let second := serve Sample.now (post_like (Token 1 "alice@example.com") "2") (snd first) in
  fst first = json 200 (Liked true)
  /\ fst second = json 200 (Liked false)
  /\ count_likes (snd second) 2 = count_likes Sample.db 2.
Proof.
  pose proof (post_like_twice Sample.now Sample.now Sample.db 1 "alice@example.com" "2" 2
                sample_constraints (conj eq_refl eq_refl) eq_refl eq_refl) as H.
  cbv zeta in H. destruct H as (H1 & _ & _ & H3 & _).
  cbv zeta. split; [reflexivity|]. split; [exact (H1 eq_refl) | exact H3].
Defined.

(* ---------------------------------------------------------------------- *)
(** ** Toggle like against a concurrent writer *)
(* ---------------------------------------------------------------------- *)

(** The seed script's [insertLike] swallows the unique-constraint violation:
    inserting a pair that is present leaves the store as it is. *)
Lemma insertLike_idempotent now s rid uid :
  liked s rid uid = true -> insertLike now rid uid s = s.
Proof.
  intros H. unfold insertLike. cbn [exec]. unfold liked in H. now rewrite H.
Qed.

(** The handler has no such guard: when another connection inserts the pair
    between the handler's SELECT and its INSERT, the INSERT raises the
    unique-constraint violation, nothing catches it, and the global error
    handler answers 500. *)
Lemma post_like_unique_violation now s other uid mail param rid :
  id_param param rid ->
  rental_exists s rid = true ->
  liked s rid uid = false ->
  liked (other s) rid uid = true ->
  serve_with now [fun x => x; fun x => x; other] (post_like (Token uid mail) param) s
  = (json 500 (Message "Internal server error"), other s).
Proof.
  intros Hp Hr Hl Hrace. rewrite (post_like_enter _ _ _ _ _ _ _ Hp).
  unfold post_like_handler. rewrite (with_id_ok _ _ _ _ Hp).
  unfold serve_with. cbn [run_with exec tl id].
  destruct (rental_id_found _ _ Hr) as (r & ->). cbn [option_map run_with exec tl].
  rewrite (find_existsb_false _ _ Hl). cbn [option_map run_with exec tl].
  unfold liked in Hrace. rewrite Hrace. reflexivity.
Qed.

(** C7, on the code. Alice toggles her like on listing 2, which she has not
    liked; another connection (the seed script's [insertLike]) commits the
    pair between the handler's SELECT and its INSERT. The handler answers
    500 "Internal server error", not [{liked:true}]. *)
Theorem post_like_duplicate_insert_is_500 :
  let racing := insertLike Sample.now 2 1 in
  let r := serve_with Sample.now [fun x => x; fun x => x; racing]
             (post_like (Token 1 "alice@example.com") "2") Sample.db in
  liked Sample.db 2 1 = false
  /\ liked (racing Sample.db) 2 1 = true
  /\ fst r = json 500 (Message "Internal server error")
  /\ failure_of (fst r) = Some InternalError
  /\ fst r <> json 200 (Liked true).
Proof.
  cbv zeta.
  rewrite (post_like_unique_violation Sample.now Sample.db (insertLike Sample.now 2 1)
             1 "alice@example.com" "2" 2 (conj eq_refl eq_refl) eq_refl eq_refl eq_refl).
  repeat split. discriminate.
Qed.

(* ---------------------------------------------------------------------- *)
(** ** Comments on a listing that does not exist *)
(* ---------------------------------------------------------------------- *)

Lemma post_comment_text_errors text :
  fst (Validator.required_text "text" "text is required" "text cannot be empty" text) = []
  <-> exists x, text = Some x /\ Validator.toString x <> "".
Proof.
  unfold Validator.required_text, Validator.isLength_min1.
  destruct text as [x|]; cbn [fst].
  - destruct (String.eqb_spec (Validator.toString x) "") as [E|E]; cbn [negb]; split.
    + discriminate.
    + intros (y & Hy & Hne). inversion Hy; subst. contradiction.
    + intros _. now exists x.
    + reflexivity.
  - split; [discriminate | intros (y & Hy & _); discriminate].
Qed.

(** C3, as amended. For a listing id that does not exist, adding a comment
    whose text is present and non-empty fails with NotFoundError (404); when
    the text is missing or empty the request fails with ValidationError
    (400), because validateRequest answers before the handler looks the
    listing up. In both cases the store is unchanged. *)
Theorem post_comment_missing_rental now s uid mail param rid text :
  id_param param rid ->
  rental_exists s rid = false ->
  let r := serve now (post_comment (Token uid mail) param text) s in
  snd r = s
  /\ ((exists x, text = Some x /\ Validator.toString x <> "") ->
        fst r = json 404 (Message "Rental not found")
        /\ failure_of (fst r) = Some NotFoundError)
  /\ (~ (exists x, text = Some x /\ Validator.toString x <> "") ->
        failure_of (fst r) = Some ValidationError).
Proof.
  intros Hp Hr. cbv zeta. unfold post_comment, authenticateJWT, post_comment_errors.
  rewrite (param_id_ok _ _ Hp). cbn [app].
  pose proof (post_comment_text_errors text) as Hiff.
  destruct (fst (Validator.required_text _ _ _ text)) as [|e errs].
  - cbn [validateRequest]. unfold post_comment_handler. rewrite (with_id_ok _ _ _ _ Hp).
    unfold serve, run. cbn [run_with exec tl id].
    unfold rental_exists in Hr. rewrite (find_existsb_false _ _ Hr).
    cbn [option_map run_with error_handler fst snd].
    split; [reflexivity|]. split.
    + intros _. split; reflexivity.
    + intros Hn. exfalso. apply Hn. now apply Hiff.
  - cbn [validateRequest]. unfold serve, run. cbn [run_with error_handler fst snd].
    split; [reflexivity|]. split.
    + intros Hx. apply Hiff in Hx. discriminate.
    + intros _. reflexivity.
Qed.

Lemma post_comment_missing_rental_witness :
  let r := serve Sample.now
             (post_comment (Token 1 "alice@example.com") "9" (Some (JS.Str "Is it free?")))
             Sample.db in
  snd r = Sample.db /\ failure_of (fst r) = Some NotFoundError.
Proof.
  pose proof (post_comment_missing_rental Sample.now Sample.db 1 "alice@example.com" "9" 9
                (Some (JS.Str "Is it free?")) (conj eq_refl eq_refl) eq_refl) as H.
  cbv zeta in H. destruct H as (H1 & H2 & _). cbv zeta. split; [exact H1|].
  apply H2. exists (JS.Str "Is it free?"). split; [reflexivity | cbn; discriminate].
Defined.

(** C3, as stated, fails for the empty text: on a listing id that does not
    exist, a comment with empty text is answered with ValidationError (400),
    not NotFoundError. *)
Lemma post_comment_empty_text_is_400 :
  let r := serve Sample.now
             (post_comment (Token 1 "alice@example.com") "9" (Some (JS.Str "")))
             Sample.db in
  rental_exists Sample.db 9 = false
  /\ status (fst r) = 400
  /\ failure_of (fst r) = Some ValidationError
  /\ failure_of (fst r) <> Some NotFoundError.
Proof. cbv zeta. repeat split. discriminate. Qed.

(* ---------------------------------------------------------------------- *)
(** ** The schema constraints are an invariant of the application *)
(* ---------------------------------------------------------------------- *)

Lemma empty_constraints : constraints DB.empty.
Proof. constructor; constructor. Qed.

Ltac unchanged H Hc := inversion H; subst; exact Hc.

(** The page query either refuses its numbers or reads. *)
Ltac page_query H :=
  repeat match type of H with
         | context [must_be_int ?x] => destruct (must_be_int x)
         end.

Lemma exec_keeps_constraints now {A : Type} (q : stmt A) s a s' :
  constraints s -> exec now q s = inr (a, s') -> constraints s'.
Proof.
  intros Hc. destruct q; cbn [exec]; intros H; try (unchanged H Hc);
    try (page_query H; first [discriminate | unchanged H Hc]).
  - (* DELETE FROM likes *)
    inversion H; subst. destruct Hc. constructor; cbn [likes set_likes]; auto;
      now apply unique_after_delete.
  - (* INSERT INTO likes *)
    destruct (existsb (like_matches rid uid) (likes s)) eqn:Hl; [discriminate|].
    destruct (rental_exists s rid && user_exists s uid); [|discriminate].
    inversion H; subst. now apply insert_like_toggled.
  - (* INSERT INTO comments *)
    destruct (rental_exists s rid && user_exists s uid); [|discriminate].
    inversion H; subst. destruct Hc. constructor; cbn; auto.
    rewrite map_app. apply NoDup_snoc; [assumption | apply next_rowid_fresh].
  - (* INSERT INTO todos *)
    destruct (user_exists s uid); [|discriminate].
    inversion H; subst. destruct Hc. constructor; cbn; auto.
    rewrite map_app. apply NoDup_snoc; [assumption | apply next_rowid_fresh].
  - (* UPDATE todos *)
    inversion H; subst. destruct Hc. constructor; cbn [todos set_todos]; auto.
    pose proof (patched_rows_ids text done) as Hids. unfold patched_rows in Hids.
    now rewrite Hids.
  - (* DELETE FROM todos *)
    inversion H; subst. destruct Hc. constructor; cbn [todos set_todos]; auto.
    now apply unique_after_delete.
Qed.

(** Whatever a handler does, alone on the database, the store it leaves
    satisfies the constraints. *)
Lemma run_keeps_constraints now {A : Type} (p : prog A) s :
  constraints s -> constraints (snd (run now p s)).
Proof.
  unfold run. revert s. induction p as [a|e|B q k IH]; intros s Hc; cbn [run_with tl].
  - exact Hc.
  - exact Hc.
  - destruct (exec now q s) as [err|[b s1]] eqn:E; [exact Hc|].
    apply IH. eapply exec_keeps_constraints; eauto.
Qed.

Lemma serve_keeps_constraints now (p : prog response) s :
  constraints s -> constraints (snd (serve now p s)).
Proof.
  intros Hc. unfold serve. pose proof (run_keeps_constraints now p s Hc) as H.
  destruct (run now p s) as [[e|r] s']; exact H.
Qed.

(* ---------------------------------------------------------------------- *)
(** ** Numbers in URLs: what the client prints, the server reads back *)
(* ---------------------------------------------------------------------- *)

Lemma decimal_digit_char c :
  JS.is_decimal_digit c = true ->
  JS.is_white c = false /\ JS.is_char 45 c = false /\ JS.is_char 43 c = false
  /\ JS.is_char 120 c = false /\ JS.is_char 88 c = false.
Proof.
  destruct c as [[] [] [] [] [] [] [] []]; cbn; intros H;
    try discriminate H; repeat split.
Qed.

Lemma digit_char_of z :
  0 <= z < 10 ->
  let c := ascii_of_nat (Z.to_nat (48 + z)) in
  JS.digit_of 10 c = Some z /\ JS.is_decimal_digit c = true
  /\ (JS.is_char 48 c = true -> z = 0).
Proof.
  intros H.
  assert (E : z = 0 \/ z = 1 \/ z = 2 \/ z = 3 \/ z = 4 \/ z = 5 \/ z = 6 \/ z = 7
              \/ z = 8 \/ z = 9) by lia.
  repeat (destruct E as [->|E]); try subst z; cbn; repeat split; auto; discriminate.
Qed.

(** Reading back what [pos_digits] printed in front of [acc]. *)
Lemma digits_prefix_pos_digits f :
  forall z, 0 <= z < 2 ^ Z.of_nat (S f) ->
  exists k, forall a acc,
    JS.digits_prefix 10 a (JS.pos_digits (S f) z acc)
    = JS.digits_prefix 10 (Some (digits_value a * k + z)) acc.
Proof.
  induction f as [|f IH]; intros z Hz.
  - exists 10. intros a acc. cbn [JS.pos_digits].
    assert (Hlt : z < 10) by (cbn in Hz; lia).
    apply Z.ltb_lt in Hlt. rewrite Hlt. cbn [JS.digits_prefix].
    apply Z.ltb_lt in Hlt. rewrite Z.mod_small by lia.
    destruct (digit_char_of z) as (-> & _); [lia|].
    destruct a; reflexivity.
  - destruct (Z.ltb_spec z 10) as [Hlt|Hge].
    + exists 10. intros a acc. cbn [JS.pos_digits].
      apply Z.ltb_lt in Hlt. rewrite Hlt. cbn [JS.digits_prefix].
      apply Z.ltb_lt in Hlt. rewrite Z.mod_small by lia.
      destruct (digit_char_of z) as (-> & _); [lia|].
      destruct a; reflexivity.
    + destruct (IH (z / 10)) as (k & Hk).
      { split; [apply Z.div_pos; lia|].
        apply Z.div_lt_upper_bound; [lia|].
        rewrite Nat2Z.inj_succ, Z.pow_succ_r in Hz by lia. lia. }
      exists (k * 10). intros a acc.
      change (JS.pos_digits (S (S f)) z acc)
        with (let d := ascii_of_nat (Z.to_nat (48 + z mod 10)) in
              if z <? 10 then String d acc
              else JS.pos_digits (S f) (z / 10) (String d acc)).
      cbv zeta. apply Z.ltb_ge in Hge. rewrite Hge.
      rewrite Hk. cbn [JS.digits_prefix].
      destruct (digit_char_of (z mod 10)) as (-> & _).
      { apply Z.mod_pos_bound. lia. }
      cbn [digits_value]. f_equal. f_equal.
      pose proof (Z.div_mod z 10). lia.
Qed.

Lemma pos_digits_shape f :
  forall z acc, 0 <= z -> JS.forallb_string acc = true ->
  exists c rest,
    JS.pos_digits (S f) z acc = String c rest
    /\ JS.is_decimal_digit c = true /\ JS.forallb_string rest = true.
Proof.
  induction f as [|f IH]; intros z acc Hz Hacc.
  - cbn [JS.pos_digits]. destruct (digit_char_of (z mod 10)) as (_ & Hd & _).
    { apply Z.mod_pos_bound. lia. }
    destruct (z <? 10); eauto.
  - change (JS.pos_digits (S (S f)) z acc)
      with (let d := ascii_of_nat (Z.to_nat (48 + z mod 10)) in
            if z <? 10 then String d acc
            else JS.pos_digits (S f) (z / 10) (String d acc)).
    cbv zeta. destruct (digit_char_of (z mod 10)) as (_ & Hd & _).
    { apply Z.mod_pos_bound. lia. }
    destruct (z <? 10); [eauto|].
    apply IH; [apply Z.div_pos; lia|].
    unfold JS.forallb_string in *. cbn [JS.forallb_string_with]. now rewrite Hd, Hacc.
Qed.

Lemma log2_fuel z : 0 <= z -> 0 <= z < 2 ^ Z.of_nat (S (Z.to_nat (Z.log2 z))).
Proof.
  intros Hz. split; [exact Hz|].
  rewrite Nat2Z.inj_succ, Z2Nat.id by apply Z.log2_nonneg.
  destruct (Z.eq_dec z 0) as [->|Hne]; [cbn; lia|].
  apply Z.log2_spec. lia.
Qed.

(** The decimal numeral of a natural number, as [string_of_Z] prints it. *)
Lemma numeral_read z :
  0 <= z ->
  exists c rest,
    JS.pos_digits (S (Z.to_nat (Z.log2 z))) z "" = String c rest
    /\ JS.is_decimal_digit c = true /\ JS.forallb_string rest = true
    /\ JS.digits_prefix 10 None (String c rest) = Some z.
Proof.
  intros Hz.
  destruct (pos_digits_shape (Z.to_nat (Z.log2 z)) z "" Hz eq_refl) as (c & rest & E & Hc & Hr).
  exists c, rest. repeat split; auto. rewrite <- E.
  destruct (digits_prefix_pos_digits _ z (log2_fuel z Hz)) as (k & Hk).
  rewrite Hk. cbn. reflexivity.
Qed.

Lemma parseInt_numeral c rest :
  JS.is_decimal_digit c = true -> JS.forallb_string rest = true ->
  JS.parseInt (String c rest)
  = option_map JS.round_double (JS.digits_prefix 10 None (String c rest))
  /\ JS.parseInt (String (ascii_of_nat 45) (String c rest))
     = option_map (fun n => JS.round_double (- n))
         (JS.digits_prefix 10 None (String c rest)).
Proof.
  intros Hc Hr. destruct (decimal_digit_char c Hc) as (Hw & Hm & Hp & _).
  assert (Hx : match rest with
               | String cx _ => JS.is_char 120 cx || JS.is_char 88 cx
               | EmptyString => false
               end = false).
  { destruct rest as [|cx r]; [reflexivity|].
    unfold JS.forallb_string in Hr. cbn in Hr. apply andb_true_iff in Hr.
    destruct (decimal_digit_char cx (proj1 Hr)) as (_ & _ & _ & -> & ->). reflexivity. }
  split.
  - unfold JS.parseInt. cbn [JS.skip_white]. rewrite Hw, Hm, Hp.
    destruct rest as [|cx r].
    + destruct (JS.digits_prefix 10 None (String c "")); reflexivity.
    + rewrite Hx, andb_false_r.
      destruct (JS.digits_prefix 10 None (String c (String cx r))); reflexivity.
  - assert (Hw' : JS.is_white (ascii_of_nat 45) = false) by reflexivity.
    assert (Hm' : JS.is_char 45 (ascii_of_nat 45) = true) by reflexivity.
    unfold JS.parseInt. cbn [JS.skip_white]. rewrite Hw', Hm'.
    destruct rest as [|cx r].
    + destruct (JS.digits_prefix 10 None (String c "")); reflexivity.
    + rewrite Hx, andb_false_r.
      destruct (JS.digits_prefix 10 None (String c (String cx r))); reflexivity.
Qed.

(** [parseInt] reads the decimal numeral of an integer as the number that
    integer becomes. *)
Lemma parseInt_decimal z : JS.parseInt (JS.string_of_Z z) = Some (JS.round_double z).
Proof.
  unfold JS.string_of_Z. cbv zeta. destruct (Z.ltb_spec z 0) as [Hneg|Hpos].
  - replace (Z.abs z) with (- z) by lia.
    destruct (numeral_read (- z)) as (c & rest & -> & Hc & Hr & Hv); [lia|].
    rewrite (proj2 (parseInt_numeral c rest Hc Hr)), Hv. cbn. do 2 f_equal. lia.
  - replace (Z.abs z) with z by lia.
    destruct (numeral_read z Hpos) as (c & rest & -> & Hc & Hr & Hv).
    now rewrite (proj1 (parseInt_numeral c rest Hc Hr)), Hv.
Qed.

(** A number holds every integer below 2^53 in absolute value. *)
Lemma round_double_safe z : Z.abs z < 2 ^ 53 -> JS.round_double z = JS.Int z.
Proof.
  intros Hz. unfold JS.round_double. cbv zeta.
  assert (He : Z.log2 (Z.abs z) - 52 <= 0).
  { destruct (Z.eq_dec (Z.abs z) 0) as [->|Hne]; [cbn; lia|].
    assert (Z.log2 (Z.abs z) < 53) by (apply Z.log2_lt_pow2; lia). lia. }
  apply Z.leb_le in He. now rewrite He.
Qed.

(** From 2^53 on a number may be another integer, never one below 2^53. *)
Lemma round_double_large z :
  2 ^ 53 <= z ->
  match JS.round_double z with
  | JS.Int v => 2 ^ 53 <= v
  | JS.Infinity negative => negative = false
  end.
Proof.
  intros Hz. unfold JS.round_double. cbv zeta.
  replace (Z.abs z) with z by lia.
  assert (Hlog : 53 <= Z.log2 z) by (apply Z.log2_le_pow2; lia).
  set (e := Z.log2 z - 52). assert (He : 1 <= e) by (unfold e; lia).
  destruct (Z.leb_spec e 0) as [H0|_]; [lia|].
  assert (Hneg : (z <? 0) = false) by (apply Z.ltb_ge; lia). rewrite Hneg.
  set (q := Z.shiftr z e).
  assert (Hq : 2 ^ 52 <= q).
  { unfold q. rewrite Z.shiftr_div_pow2 by lia.
    apply Z.div_le_lower_bound; [apply Z.pow_pos_nonneg; lia|].
    rewrite <- Z.pow_add_r by lia. replace (e + 52) with (Z.log2 z) by (unfold e; lia).
    apply Z.log2_spec. lia. }
  match goal with
  | |- context [if ?b then q + 1 else q] => set (q' := if b then q + 1 else q)
  end.
  assert (Hq' : 2 ^ 52 <= q').
  { unfold q'. match goal with |- context [if ?b then _ else _] => destruct b end; lia. }
  destruct (Z.leb_spec (Z.shiftl 1 1024) (Z.shiftl q' e)) as [_|_]; [reflexivity|].
  rewrite Z.shiftl_mul_pow2 by lia.
  assert (H2 : 2 ^ 1 <= 2 ^ e) by (apply Z.pow_le_mono_r; lia).
  change (2 ^ 53) with (2 ^ 52 * 2 ^ 1). apply Z.mul_le_mono_nonneg; lia.
Qed.

(** X1. A number the client prints into a URL with a template literal (the
    [limit] and [offset] of a feed request) is read back by [parseInt] as the
    same number, for every integer a JS number holds exactly. *)
Theorem parseInt_string_of_Z z :
  safe_integer z -> JS.parseInt (JS.string_of_Z z) = Some (JS.Int z).
Proof.
  intros Hz. rewrite parseInt_decimal. f_equal. apply round_double_safe.
  unfold safe_integer in Hz. lia.
Qed.

Lemma parseInt_string_of_Z_witness :
  JS.parseInt (JS.string_of_Z (-6)) = Some (JS.Int (-6)).
Proof. apply (parseInt_string_of_Z (-6)). unfold safe_integer. cbn. lia. Defined.

(** X2. The id the client prints into [/api/rentals/${id}/...] or
    [/api/todos/${id}] passes the route's [isInt({ gt: 0 })] when the id is
    positive (and an integer a JS number holds exactly), and [Number] gives
    the id back. *)
Theorem id_param_string_of_Z n :
  0 < n -> safe_integer n -> id_param (JS.string_of_Z n) n.
Proof.
  intros Hn _. unfold id_param, JS.string_of_Z. cbv zeta.
  destruct (Z.ltb_spec n 0) as [Hneg|_]; [lia|].
  replace (Z.abs n) with n by lia.
  destruct (numeral_read n) as (c & rest & -> & Hc & Hr & Hv); [lia|].
  destruct (decimal_digit_char c Hc) as (_ & Hm & Hp & _).
  assert (Hall : JS.forallb_string (String c rest) = true).
  { unfold JS.forallb_string in *. cbn [JS.forallb_string_with]. now rewrite Hc, Hr. }
  assert (HN : JS.Number (String c rest) = Some n).
  { unfold JS.Number. rewrite Hm, Hp, Hall, Hv. reflexivity. }
  split; [|exact HN].
  unfold Validator.isInt_gt0, Validator.isInt_literal. rewrite Hm, Hp. cbn [orb].
  rewrite Hall, HN. cbn [andb]. now apply Z.ltb_lt.
Qed.

Lemma id_param_string_of_Z_witness : id_param (JS.string_of_Z 42) 42.
Proof. apply (id_param_string_of_Z 42); [lia | unfold safe_integer; cbn; lia]. Defined.

(* ---------------------------------------------------------------------- *)
(** ** ORDER BY: the rows, each once, in order *)
(* ---------------------------------------------------------------------- *)

Section OrderBy.
Context {A : Type} (key : A -> Z) (desc : bool).

Lemma insert_sorted_perm a l : Permutation (insert_sorted key desc a l) (a :: l).
Proof.
  induction l as [|b l IH]; cbn [insert_sorted]; [reflexivity|].
  destruct (before key desc a b); [reflexivity|].
  rewrite IH. apply perm_swap.
Qed.

Lemma order_by_perm l : Permutation (order_by key desc l) l.
Proof.
  induction l as [|a l IH]; cbn [order_by fold_right]; [reflexivity|].
  fold (order_by key desc l). rewrite insert_sorted_perm. now constructor.
Qed.

Lemma before_in_order a b :
  before key desc a b = true <-> in_order desc (key a) (key b).
Proof. unfold before, in_order. destruct desc; apply Z.leb_le. Qed.

Lemma insert_sorted_sorted a l :
  StronglySorted (fun x y => in_order desc (key x) (key y)) l ->
  StronglySorted (fun x y => in_order desc (key x) (key y)) (insert_sorted key desc a l).
Proof.
  induction l as [|b l IH]; cbn [insert_sorted]; intros Hs.
  - constructor; constructor.
  - inversion Hs as [|? ? Hl Hb]; subst.
    destruct (before key desc a b) eqn:E.
    + constructor; [exact Hs|]. apply before_in_order in E.
      constructor; [exact E|].
      eapply Forall_impl; [|exact Hb]. intros c Hc. cbn in Hc.
      unfold in_order in *. destruct desc; lia.
    + constructor; [now apply IH|].
      assert (Hba : in_order desc (key b) (key a)).
      { unfold before in E. unfold in_order. destruct desc; apply Z.leb_gt in E; lia. }
      eapply Permutation_Forall; [symmetry; apply insert_sorted_perm|].
      constructor; assumption.
Qed.

Lemma order_by_sorted l :
  StronglySorted (fun x y => in_order desc (key x) (key y)) (order_by key desc l).
Proof.
  induction l as [|a l IH]; cbn [order_by fold_right]; [constructor|].
  now apply insert_sorted_sorted.
Qed.



End OrderBy.

(* ---------------------------------------------------------------------- *)
(** ** Todos: list, create, delete, patch as a user sees them *)
(* ---------------------------------------------------------------------- *)

Lemma get_todos_run now s sub mail :
  serve now (get_todos (Token sub mail)) s = (json 200 (Todos (todos_listed s sub)), s).
Proof.
  unfold get_todos, authenticateJWT, serve, run.
  cbn [run_with exec tl id error_handler]. unfold todos_listed. now rewrite map_map.
Qed.

Lemma todos_listed_in s sub j :
  In j (todos_listed s sub)
  <-> exists t, In t (todos s) /\ t_user_id t = sub /\ j = todo_view t.
Proof.
  unfold todos_listed. rewrite in_map_iff. split.
  - intros (t & <- & Ht). exists t.
    apply (Permutation_in _ (order_by_perm t_id true _)) in Ht.
    apply filter_In in Ht. destruct Ht as [Hin Hu]. repeat split; auto. lia.
  - intros (t & Hin & Hu & ->). exists t. split; [reflexivity|].
    apply (Permutation_in _ (Permutation_sym (order_by_perm t_id true _))).
    apply filter_In. split; [exact Hin | lia].
Qed.

Lemma StronglySorted_map {A B : Type} (R : B -> B -> Prop) (f : A -> B) l :
  StronglySorted (fun x y => R (f x) (f y)) l -> StronglySorted R (map f l).
Proof.
  induction 1 as [|a l Hs IH Hall]; cbn [map]; constructor; auto.
  apply Forall_map. exact Hall.
Qed.

Lemma todos_listed_sorted s sub :
  StronglySorted (fun a b => tj_id b <= tj_id a) (todos_listed s sub).
Proof.
  unfold todos_listed. apply StronglySorted_map. cbn [todo_view tj_id].
  apply (order_by_sorted t_id true).
Qed.

Lemma todos_listed_nodup s sub :
  constraints s -> NoDup (map tj_id (todos_listed s sub)).
Proof.
  intros Hc. unfold todos_listed. rewrite map_map. cbn [todo_view tj_id].
  eapply Permutation_NoDup.
  - apply Permutation_map. symmetry. apply order_by_perm.
  - apply unique_after_delete. apply (todos_pk _ Hc).
Qed.

(** X3. GET /api/todos answers 200 with exactly the caller's todos, no one
    else's, newest (largest id) first, the stored [done] shown as a boolean,
    and leaves the store as it is; under the todos primary key no id is
    listed twice. *)
Theorem get_todos_own_newest_first now s sub mail :
  let r := serve now (get_todos (Token sub mail)) s in
  exists l,
    r = (json 200 (Todos l), s)
    /\ (forall j, In j l
          <-> exists t, In t (todos s) /\ t_user_id t = sub /\ j = todo_view t)
    /\ StronglySorted (fun a b => tj_id b <= tj_id a) l
    /\ (constraints s -> NoDup (map tj_id l)).
Proof.
  cbv zeta. exists (todos_listed s sub). split; [apply get_todos_run|].
  split; [intros j; apply todos_listed_in|].
  split; [apply todos_listed_sorted | apply todos_listed_nodup].
Qed.

Lemma get_todos_own_newest_first_witness :
  exists l,
    serve Sample.now (get_todos (Token 1 "alice@example.com")) Sample.db
    = (json 200 (Todos l), Sample.db)
    /\ NoDup (map tj_id l).
Proof.
  destruct (get_todos_own_newest_first Sample.now Sample.db 1 "alice@example.com")
    as (l & Hr & _ & _ & Hnd).
  exists l. split; [exact Hr | exact (Hnd sample_constraints)].
Defined.

Lemma post_todos_valid_run now s sub mail x :
  Validator.toString x <> "" ->
  serve now (post_todos (Token sub mail) (Some x)) s
  = serve now (post_todos_handler (mkIdentity sub mail)
                 (Validator.escape (Validator.trim (Validator.toString x)))) s.
Proof.
  intros Hx. unfold post_todos, authenticateJWT, Validator.required_text.
  unfold Validator.isLength_min1.
  destruct (String.eqb_spec (Validator.toString x) ""); [contradiction|]. reflexivity.
Qed.




Lemma delete_todo_owner_run now s sub mail param tid t :
  id_param param tid ->
  todo_by_id s tid = Some t ->
  t_user_id t = sub ->
  serve now (delete_todo (Token sub mail) param) s
  = (json 200 (Message "Deleted"),
     set_todos s (filter (fun x => negb (t_id x =? tid)) (todos s)) (seq_todos s)).
Proof.
  intros Hp Ht Ho. unfold delete_todo, authenticateJWT.
  rewrite (param_id_ok _ _ Hp). unfold validateRequest, delete_todo_handler.
  rewrite (with_id_ok _ _ _ _ Hp).
  unfold serve, run. cbn [run_with exec tl id]. unfold todo_by_id in Ht. rewrite Ht.
  rewrite Ho, Z.eqb_refl. reflexivity.
Qed.

(** X5. DELETE /api/todos/:id by the owner answers 200 "Deleted"; afterwards
    the id is no longer in the store nor in anyone's list, every list keeps
    its other todos, and no other table changes. *)
Theorem delete_todo_then_gone now s sub mail param tid t :
  id_param param tid ->
  todo_by_id s tid = Some t ->
  t_user_id t = sub ->
  let r := serve now (delete_todo (Token sub mail) param) s in
  fst r = json 200 (Message "Deleted")
  /\ todo_by_id (snd r) tid = None
  /\ (forall uid j, In j (todos_listed (snd r) uid)
                    <-> In j (todos_listed s uid) /\ tj_id j <> tid)
  /\ same_but_todos s (snd r).
Proof.
  intros Hp Ht Ho. cbv zeta. rewrite (delete_todo_owner_run _ _ _ _ _ _ _ Hp Ht Ho).
  cbn [fst snd]. split; [reflexivity|]. split; [|split].
  - unfold todo_by_id. cbn [todos set_todos].
    destruct (find _ (filter _ (todos s))) as [x|] eqn:E; [|reflexivity].
    apply find_some in E. destruct E as [Hin Hid]. apply filter_In in Hin.
    destruct Hin as [_ Hne]. rewrite Hid in Hne. discriminate.
  - intros uid j. rewrite !todos_listed_in. cbn [todos set_todos]. split.
    + intros (x & Hin & Hu & ->). apply filter_In in Hin. destruct Hin as [Hin Hne].
      split; [exists x; auto|]. cbn [todo_view tj_id].
      apply negb_true_iff, Z.eqb_neq in Hne. exact Hne.
    + intros [(x & Hin & Hu & ->) Hne]. exists x. repeat split; auto.
      apply filter_In. split; [exact Hin|]. apply negb_true_iff, Z.eqb_neq. exact Hne.
  - repeat split.
Qed.

Lemma delete_todo_then_gone_witness :
  let r := serve Sample.now (delete_todo (Token 1 "alice@example.com") "1") Sample.db in
  fst r = json 200 (Message "Deleted") /\ todo_by_id (snd r) 1 = None.
Proof.
  pose proof (delete_todo_then_gone Sample.now Sample.db 1 "alice@example.com" "1" 1
                (mkTodo 1 1 "Write tests" 0 "2024-01-05 08:00:00")
                (conj eq_refl eq_refl) eq_refl eq_refl) as H.
  cbv zeta in H. destruct H as (H1 & H2 & _). cbv zeta. split; assumption.
Defined.



(* ---------------------------------------------------------------------- *)
(** ** Comments: appended, never rewritten *)
(* ---------------------------------------------------------------------- *)

Lemma post_comment_valid_run now s sub mail param rid x :
  id_param param rid ->
  Validator.toString x <> "" ->
  serve now (post_comment (Token sub mail) param (Some x)) s
  = serve now (post_comment_handler (mkIdentity sub mail) param
                 (Validator.escape (Validator.trim (Validator.toString x)))) s.
Proof.
  intros Hp Hx. unfold post_comment, authenticateJWT, post_comment_errors.
  rewrite (param_id_ok _ _ Hp). unfold Validator.required_text, Validator.isLength_min1.
  destruct (String.eqb_spec (Validator.toString x) ""); [contradiction|]. reflexivity.
Qed.

Lemma find_new_comment seq (l : list comment_row) rid uid text now :
  let id := next_rowid seq (map c_id l) in
  find (fun c => c_id c =? id) (l ++ [mkComment id rid uid text now])
  = Some (mkComment id rid uid text now).
Proof.
  cbv zeta. apply find_app_fresh.
  - intros y Hy. apply Z.eqb_neq. intros E.
    apply (next_rowid_fresh seq (map c_id l)). rewrite <- E. now apply in_map.
  - cbn. apply Z.eqb_refl.
Qed.

Lemma post_comment_handler_run now s sub mail param rid text u :
  id_param param rid ->
  rental_exists s rid = true ->
  join_user s sub = Some u ->
  let rowid := next_rowid (seq_comments s) (map c_id (comments s)) in
  serve now (post_comment_handler (mkIdentity sub mail) param text) s
  = (json 201 (Comment (Some (mkCommentJson rowid text now (u_name u)))),
     set_comments s (comments s ++ [mkComment rowid rid sub text now])%list rowid).
Proof.
  intros Hp Hr Hu. cbv zeta. unfold post_comment_handler.
  rewrite (with_id_ok _ _ _ _ Hp). unfold serve, run. cbn [run_with exec tl id].
  destruct (rental_id_found _ _ Hr) as (r & ->). cbn [option_map run_with exec tl].
  assert (Hex : user_exists s sub = true).
  { unfold user_exists. apply existsb_exists. unfold join_user in Hu.
    apply find_some in Hu. exists u. exact Hu. }
  rewrite Hr, Hex. cbn [andb run_with exec tl comments set_comments].
  rewrite find_new_comment. unfold comment_joined, join_user.
  cbn [users set_comments c_user_id]. unfold join_user in Hu. rewrite Hu. reflexivity.
Qed.




(* ---------------------------------------------------------------------- *)
(** ** Texts: what the sanitizers let into the store *)
(* ---------------------------------------------------------------------- *)

Lemma skip_white_blank t :
  JS.forallb_string_with JS.is_white t = true -> JS.skip_white t = "".
Proof.
  induction t as [|c t IH]; cbn [JS.forallb_string_with JS.skip_white]; [reflexivity|].
  intros H. apply andb_true_iff in H. destruct H as [Hc Ht]. rewrite Hc. now apply IH.
Qed.

Lemma trim_blank t :
  JS.forallb_string_with JS.is_white t = true -> Validator.trim t = "".
Proof. intros H. unfold Validator.trim. now rewrite (skip_white_blank _ H). Qed.

(** X8. The length check of the text chains runs before [trim()]: a text
    made only of white space (one character at least; spaces, tabs, line
    breaks, no-break spaces) passes "text cannot be empty", and the todo or
    the comment is created with the empty text. *)
Theorem blank_text_is_stored_empty now s sub mail param rid t u :
  t <> "" ->
  JS.forallb_string_with JS.is_white t = true ->
  join_user s sub = Some u ->
  (exists todo,
      fst (serve now (post_todos (Token sub mail) (Some (JS.Str t))) s)
      = json 201 (Todo todo) /\ tj_text todo = "")
  /\ (id_param param rid -> rental_exists s rid = true ->
      exists c,
        fst (serve now (post_comment (Token sub mail) param (Some (JS.Str t))) s)
        = json 201 (Comment (Some c)) /\ cj_text c = "").
Proof.
  intros Hne Hw Hu.
  assert (Hex : user_exists s sub = true).
  { unfold user_exists. apply existsb_exists. unfold join_user in Hu.
    apply find_some in Hu. exists u. exact Hu. }
  assert (Hx : Validator.toString (JS.Str t) <> "") by exact Hne.
  split.
  - rewrite (post_todos_valid_run _ _ _ _ _ Hx), (post_todos_handler_run _ _ _ _ _ Hex).
    cbn [fst]. change (Validator.toString (JS.Str t)) with t.
    rewrite (trim_blank _ Hw). eexists. split; reflexivity.
  - intros Hp Hr. rewrite (post_comment_valid_run _ _ _ _ _ _ _ Hp Hx).
    rewrite (post_comment_handler_run _ _ _ _ _ _ _ _ Hp Hr Hu).
    cbn [fst]. change (Validator.toString (JS.Str t)) with t.
    rewrite (trim_blank _ Hw). eexists. split; reflexivity.
Qed.

Lemma blank_text_is_stored_empty_witness :
  exists todo,
    fst (serve Sample.now
           (post_todos (Token 1 "alice@example.com")
              (Some (JS.Str (String (ascii_of_nat 160) "  "))))
           Sample.db) = json 201 (Todo todo)
    /\ tj_text todo = "".
Proof.
  assert (Hne : String (ascii_of_nat 160) "  " <> "") by discriminate.
  exact (proj1 (blank_text_is_stored_empty Sample.now Sample.db 1 "alice@example.com"
                  "1" 1 (String (ascii_of_nat 160) "  ") Sample.alice Hne eq_refl
                  eq_refl)).
Defined.

Lemma html_free_app a b : html_free (a ++ b) = html_free a && html_free b.
Proof.
  unfold html_free. induction a as [|c a IH]; cbn [append JS.forallb_string_with].
  - reflexivity.
  - now rewrite IH, andb_assoc.
Qed.

Lemma escape_char_free c : html_free (Validator.escape_char c) = true.
Proof. destruct c as [[] [] [] [] [] [] [] []]; reflexivity. Qed.

Lemma escape_free t : html_free (Validator.escape t) = true.
Proof.
  induction t as [|c t IH]; cbn [Validator.escape]; [reflexivity|].
  now rewrite html_free_app, escape_char_free, IH.
Qed.

Lemma exec_keeps_escaped now {A : Type} (q : stmt A) s a s' :
  writes_escaped q -> texts_escaped s -> exec now q s = inr (a, s') -> texts_escaped s'.
Proof.
  intros Hq [Ht Hc]. destruct q; cbn [exec]; intros H;
    repeat match type of H with
           | context [if ?b then _ else _] => destruct b; try discriminate H
           end;
    page_query H; try discriminate H;
    inversion H; subst; split;
    cbn [todos comments set_todos set_comments set_likes]; try assumption.
  - apply Forall_app. split; [assumption|]. constructor; [exact Hq | constructor].
  - apply Forall_app. split; [assumption|]. constructor; [exact Hq | constructor].
  - apply Forall_map. eapply Forall_impl; [|exact Ht]. intros t Hfree. cbn beta.
    destruct (t_id t =? _); [|exact Hfree].
    unfold update_todo_row. cbn [t_text]. destruct text; [exact Hq | exact Hfree].
  - apply Forall_forall. intros t Hin. apply filter_In in Hin.
    rewrite Forall_forall in Ht. apply Ht. tauto.
Qed.

Lemma run_keeps_escaped now {A : Type} (p : prog A) s :
  escaping p -> texts_escaped s -> texts_escaped (snd (run now p s)).
Proof.
  unfold run. intros Hp. revert s.
  induction Hp as [a|e|B q k Hq Hk IH]; intros s Hs; cbn [run_with tl]; auto.
  destruct (exec now q s) as [err|[b s1]] eqn:E; [exact Hs|].
  apply IH. eapply exec_keeps_escaped; eauto.
Qed.

Lemma serve_keeps_escaped now (p : prog response) s :
  escaping p -> texts_escaped s -> texts_escaped (snd (serve now p s)).
Proof.
  intros Hp Hs. unfold serve. pose proof (run_keeps_escaped now p s Hp Hs) as H.
  destruct (run now p s) as [[e|r] s']; exact H.
Qed.

Ltac escaping_step :=
  match goal with
  | |- escaping (Ret _) => constructor
  | |- escaping (Throw _) => constructor
  | |- escaping (Exec _ _) => constructor; [cbn; try exact I; try apply escape_free; try reflexivity | intros ?]
  | |- escaping (match ?x with _ => _ end) => destruct x
  | |- escaping (if ?x then _ else _) => destruct x
  | |- escaping (validateRequest ?e _) => unfold validateRequest
  | |- escaping (authenticateJWT ?c _) => unfold authenticateJWT
  | |- escaping (with_id _ _ _) => unfold with_id
  end.

Lemma post_todos_escaping c text : escaping (post_todos c text).
Proof.
  unfold post_todos, Validator.required_text, post_todos_handler, body_string.
  destruct text; cbn [JS.String_]; repeat escaping_step.
Qed.

Lemma patch_todo_escaping c param text done : escaping (patch_todo c param text done).
Proof.
  unfold patch_todo, Validator.optional_text, Validator.optional_boolean, patch_todo_handler.
  destruct text, done; cbn [snd option_map JS.String_]; repeat escaping_step.
Qed.

Lemma post_comment_escaping c param text : escaping (post_comment c param text).
Proof.
  unfold post_comment, Validator.required_text, post_comment_handler, body_string.
  destruct text; cbn [snd JS.String_]; repeat escaping_step.
Qed.

Lemma delete_todo_escaping c param : escaping (delete_todo c param).
Proof. unfold delete_todo, delete_todo_handler. repeat escaping_step. Qed.

Lemma post_like_escaping c param : escaping (post_like c param).
Proof. unfold post_like, post_like_handler. repeat escaping_step. Qed.

(** X9. If no todo text and no comment text in the store holds a raw HTML
    character (a quote, slash, angle bracket, backslash or backquote), the
    same is true after any request to the writing routes, whatever the
    credentials, parameters and bodies: the texts they store went through
    [escape()]. *)
Theorem stored_texts_stay_escaped now s c param text done :
  texts_escaped s ->
  texts_escaped (snd (serve now (post_todos c text) s))
  /\ texts_escaped (snd (serve now (patch_todo c param text done) s))
  /\ texts_escaped (snd (serve now (post_comment c param text) s))
  /\ texts_escaped (snd (serve now (delete_todo c param) s))
  /\ texts_escaped (snd (serve now (post_like c param) s)).
Proof.
  intros Hs. repeat split; apply serve_keeps_escaped; auto.
  - apply post_todos_escaping.
  - apply post_todos_escaping.
  - apply patch_todo_escaping.
  - apply patch_todo_escaping.
  - apply post_comment_escaping.
  - apply post_comment_escaping.
  - apply delete_todo_escaping.
  - apply delete_todo_escaping.
  - apply post_like_escaping.
  - apply post_like_escaping.
Qed.

Lemma stored_texts_stay_escaped_witness :
  texts_escaped
    (snd (serve Sample.now
            (post_todos (Token 1 "alice@example.com") (Some (JS.Str "<i>milk</i>")))
            Sample.db)).
Proof.
  assert (H0 : texts_escaped Sample.db) by (split; repeat constructor).
  exact (proj1 (stored_texts_stay_escaped Sample.now Sample.db
                  (Token 1 "alice@example.com") "1" (Some (JS.Str "<i>milk</i>")) None H0)).
Defined.

(* ---------------------------------------------------------------------- *)
(** ** How a request can end *)
(* ---------------------------------------------------------------------- *)

Lemma param_id_nil param :
  Validator.param_id param = [] -> exists n, id_param param n.
Proof.
  unfold Validator.param_id, id_param. destruct (Validator.isInt_gt0 param) eqn:E;
    [|discriminate]. intros _.
  unfold Validator.isInt_gt0 in E. apply andb_true_iff in E. destruct E as [_ E].
  destruct (JS.Number param) as [n|]; [|discriminate]. exists n. split; reflexivity.
Qed.

Lemma user_exists_join s sub :
  user_exists s sub = true -> exists u, join_user s sub = Some u.
Proof.
  intros H. destruct (find_existsb_true _ _ H) as (u & Hu & _). now exists u.
Qed.

Ltac refuse := left; split; [reflexivity | unfold refused; cbn; tauto].
Ltac served := right; right; cbn; tauto.

Lemma post_todos_outcome now s c text : outcome s c (serve now (post_todos c text) s).
Proof.
  unfold post_todos, authenticateJWT. destruct c as [| |sub mail]; try refuse.
  destruct (Validator.required_text _ _ _ text) as [errors text'].
  unfold validateRequest. destruct errors; [|refuse].
  destruct (user_exists s sub) eqn:Hu.
  - rewrite (post_todos_handler_run _ _ _ _ _ Hu). served.
  - rewrite (post_todos_handler_no_user _ _ _ _ _ Hu).
    right; left. cbn. rewrite Hu. repeat split. discriminate.
Qed.

Lemma get_todos_outcome now s c : outcome s c (serve now (get_todos c) s).
Proof.
  destruct c as [| |sub mail]; try refuse. rewrite get_todos_run. served.
Qed.

Lemma patch_todo_handler_missing now s sub mail param tid text done :
  id_param param tid ->
  todo_by_id s tid = None ->
  serve now (patch_todo_handler (mkIdentity sub mail) param text done) s
  = (json 404 (Message "Todo not found"), s).
Proof.
  intros Hp Ht. unfold patch_todo_handler. rewrite (with_id_ok _ _ _ _ Hp).
  unfold serve, run. cbn [run_with exec tl id]. unfold todo_by_id in Ht. now rewrite Ht.
Qed.

Lemma patch_todo_handler_nothing now s sub mail param tid t :
  id_param param tid ->
  todo_by_id s tid = Some t ->
  t_user_id t = sub ->
  serve now (patch_todo_handler (mkIdentity sub mail) param None None) s
  = (json 400 (Message "Nothing to update"), s).
Proof.
  intros Hp Ht Ho. unfold patch_todo_handler. rewrite (with_id_ok _ _ _ _ Hp).
  unfold serve, run. cbn [run_with exec tl id]. unfold todo_by_id in Ht. rewrite Ht.
  rewrite Ho, Z.eqb_refl. reflexivity.
Qed.

Lemma patch_todo_outcome now s c param text done :
  outcome s c (serve now (patch_todo c param text done) s).
Proof.
  unfold patch_todo, authenticateJWT. destruct c as [| |sub mail]; try refuse.
  destruct (patch_todo_errors param text done) as [|e errs] eqn:He;
    [|unfold validateRequest; refuse].
  cbn [validateRequest].
  assert (Hid : Validator.param_id param = []).
  { unfold patch_todo_errors in He. now apply app_eq_nil in He. }
  destruct (param_id_nil _ Hid) as (tid & Hp).
  rewrite optional_boolean_snd.
  destruct (todo_by_id s tid) as [t|] eqn:Ht.
  - destruct (Z.eq_dec (t_user_id t) sub) as [Ho|Ho].
    + destruct (snd (Validator.optional_text "text" "text cannot be empty" text))
        as [x|] eqn:Ex.
      * erewrite patch_todo_handler_owner; eauto; [served | left; discriminate].
      * destruct done as [d|].
        -- erewrite patch_todo_handler_owner; eauto; [served | right; discriminate].
        -- rewrite (patch_todo_handler_nothing _ _ _ _ _ _ _ Hp Ht Ho). refuse.
    + rewrite (patch_todo_handler_other _ _ _ _ _ _ _ _ _ Hp Ht Ho). refuse.
  - rewrite (patch_todo_handler_missing _ _ _ _ _ _ _ _ Hp Ht). refuse.
Qed.

Lemma delete_todo_outcome now s c param :
  outcome s c (serve now (delete_todo c param) s).
Proof.
  destruct c as [| |sub mail]; try (unfold delete_todo, authenticateJWT; refuse).
  destruct (Validator.param_id param) as [|e errs] eqn:Hid.
  - destruct (param_id_nil _ Hid) as (tid & Hp).
    destruct (todo_by_id s tid) as [t|] eqn:Ht.
    + destruct (Z.eq_dec (t_user_id t) sub) as [Ho|Ho].
      * rewrite (delete_todo_owner_run _ _ _ _ _ _ _ Hp Ht Ho). served.
      * rewrite (delete_todo_other _ _ _ _ _ _ _ Hp Ht Ho). refuse.
    + unfold delete_todo, authenticateJWT. rewrite Hid. cbn [validateRequest].
      unfold delete_todo_handler. rewrite (with_id_ok _ _ _ _ Hp).
      unfold serve, run. cbn [run_with exec tl id]. unfold todo_by_id in Ht. rewrite Ht.
      refuse.
  - unfold delete_todo, authenticateJWT. rewrite Hid. unfold validateRequest. refuse.
Qed.

Lemma post_comment_handler_missing now s sub mail param rid text :
  id_param param rid ->
  rental_exists s rid = false ->
  serve now (post_comment_handler (mkIdentity sub mail) param text) s
  = (json 404 (Message "Rental not found"), s).
Proof.
  intros Hp Hr. unfold post_comment_handler. rewrite (with_id_ok _ _ _ _ Hp).
  unfold serve, run. cbn [run_with exec tl id].
  unfold rental_exists in Hr. now rewrite (find_existsb_false _ _ Hr).
Qed.

Lemma post_comment_handler_no_user now s sub mail param rid text :
  id_param param rid ->
  rental_exists s rid = true ->
  user_exists s sub = false ->
  serve now (post_comment_handler (mkIdentity sub mail) param text) s
  = (json 500 (Message "Internal server error"), s).
Proof.
  intros Hp Hr Hu. unfold post_comment_handler. rewrite (with_id_ok _ _ _ _ Hp).
  unfold serve, run. cbn [run_with exec tl id].
  destruct (rental_id_found _ _ Hr) as (r & ->). cbn [option_map run_with exec tl].
  rewrite Hr, Hu. reflexivity.
Qed.

Lemma post_comment_outcome now s c param text :
  outcome s c (serve now (post_comment c param text) s).
Proof.
  unfold post_comment, authenticateJWT. destruct c as [| |sub mail]; try refuse.
  destruct (post_comment_errors param text) as [|e errs] eqn:He;
    [|unfold validateRequest; refuse].
  cbn [validateRequest].
  assert (Hid : Validator.param_id param = []).
  { unfold post_comment_errors in He. now apply app_eq_nil in He. }
  destruct (param_id_nil _ Hid) as (rid & Hp).
  destruct (rental_exists s rid) eqn:Hr.
  - destruct (user_exists s sub) eqn:Hu.
    + destruct (user_exists_join _ _ Hu) as (u & Hj).
      rewrite (post_comment_handler_run _ _ _ _ _ _ _ _ Hp Hr Hj). served.
    + rewrite (post_comment_handler_no_user _ _ _ _ _ _ _ Hp Hr Hu).
      right; left. cbn. rewrite Hu. repeat split. discriminate.
  - rewrite (post_comment_handler_missing _ _ _ _ _ _ _ Hp Hr). refuse.
Qed.

Lemma post_like_outcome now s c param :
  outcome s c (serve now (post_like c param) s).
Proof.
  destruct c as [| |sub mail]; try (unfold post_like, authenticateJWT; refuse).
  destruct (Validator.param_id param) as [|e errs] eqn:Hid.
  - destruct (param_id_nil _ Hid) as (rid & Hp).
    destruct (rental_exists s rid) eqn:Hr.
    + change (serve now) with (serve_with now []).
      rewrite (post_like_enter _ _ _ _ _ _ _ Hp).
      unfold post_like_handler. rewrite (with_id_ok _ _ _ _ Hp).
      unfold serve_with. cbn [run_with exec tl id].
      destruct (rental_id_found _ _ Hr) as (r & ->). cbn [option_map run_with exec tl].
      destruct (find (like_matches rid sub) (likes s)) as [l|] eqn:Hl.
      * cbn [option_map run_with exec tl]. served.
      * cbn [option_map run_with exec tl].
        assert (Hn : existsb (like_matches rid sub) (likes s) = false).
        { destruct (existsb (like_matches rid sub) (likes s)) eqn:E; [|reflexivity].
          destruct (find_existsb_true _ _ E) as (x & Hx & _). congruence. }
        rewrite Hn, Hr. cbn [andb]. destruct (user_exists s sub) eqn:Hu.
        -- served.
        -- right; left. cbn. rewrite Hu. repeat split. discriminate.
    + rewrite (post_like_missing _ _ _ _ _ _ Hp Hr). refuse.
  - unfold post_like, authenticateJWT. rewrite Hid. unfold validateRequest. refuse.
Qed.



(** X11. A request that is not served (any status but 200 and 201) leaves
    the store exactly as it was: the todo, comment and like routes write
    nothing before they refuse or fail. *)
Theorem unserved_request_writes_nothing now s c param text done :
  (forall r : response * store,
      In r [serve now (post_todos c text) s; serve now (get_todos c) s;
            serve now (patch_todo c param text done) s; serve now (delete_todo c param) s;
            serve now (post_comment c param text) s; serve now (post_like c param) s] ->
      status (fst r) <> 200 -> status (fst r) <> 201 -> snd r = s).
Proof.
  assert (H : forall r, outcome s c r ->
                        status (fst r) <> 200 -> status (fst r) <> 201 -> snd r = s).
  { intros r [[Hs _]|[(Hs & _)|Hr]] H1 H2; [exact Hs | exact Hs | lia]. }
  intros r Hin. apply H. cbn [In] in Hin.
  destruct Hin as [<-|[<-|[<-|[<-|[<-|[<-|[]]]]]]].
  - apply post_todos_outcome.
  - apply get_todos_outcome.
  - apply patch_todo_outcome.
  - apply delete_todo_outcome.
  - apply post_comment_outcome.
  - apply post_like_outcome.
Qed.

Lemma unserved_request_writes_nothing_witness :
  snd (serve Sample.now (post_like (Token 7 "ghost@example.com") "3") Sample.db)
  = Sample.db.
Proof.
  apply (unserved_request_writes_nothing Sample.now Sample.db
           (Token 7 "ghost@example.com") "3" None None).
  - cbn [In]. do 5 right. left. reflexivity.
  - cbn. discriminate.
  - cbn. discriminate.
Defined.

(* ---------------------------------------------------------------------- *)
(** ** The feed, page after page *)
(* ---------------------------------------------------------------------- *)

Lemma feed_limit_printed n :
  1 <= n <= 50 -> feed_limit (Some (JS.string_of_Z n)) = JS.Int n.
Proof.
  intros Hn. unfold feed_limit, JS.parseInt_opt.
  rewrite parseInt_decimal, round_double_safe by lia.
  unfold JS.num_or. destruct (Z.eqb_spec n 0); [lia|]. cbn. f_equal. lia.
Qed.

Lemma feed_offset_printed k :
  0 <= k < 2 ^ 53 -> feed_offset (Some (JS.string_of_Z k)) = JS.Int k.
Proof.
  intros Hk. unfold feed_offset, JS.parseInt_opt.
  rewrite parseInt_decimal, round_double_safe by lia.
  unfold JS.num_or. destruct (Z.eqb_spec k 0); cbn; f_equal; lia.
Qed.

(** An offset printed from 2^53 on is read as a number from 2^53 on. *)
Lemma feed_offset_printed_large k :
  2 ^ 53 <= k ->
  match feed_offset (Some (JS.string_of_Z k)) with
  | JS.Int v => 2 ^ 53 <= v
  | JS.Infinity negative => negative = false
  end.
Proof.
  intros Hk. unfold feed_offset, JS.parseInt_opt. rewrite parseInt_decimal.
  pose proof (round_double_large k Hk) as H.
  destruct (JS.round_double k) as [v|negative]; cbn [JS.num_or].
  - destruct (Z.eqb_spec v 0); [lia|]. cbn. lia.
  - subst negative. reflexivity.
Qed.

Lemma must_be_int_small z :
  - 2 ^ 63 < z < 2 ^ 63 -> must_be_int (JS.Int z) = Some z.
Proof.
  intros Hz. unfold must_be_int.
  destruct (Z.ltb_spec (- 2 ^ 63) z); [|lia]. destruct (Z.ltb_spec z (2 ^ 63)); [|lia].
  reflexivity.
Qed.

Lemma feed_rows_page s n k :
  0 <= n -> feed_rows s n k = limit_offset n k (all_feed_rows s).
Proof.
  intros Hn. unfold feed_rows. cbv zeta.
  destruct (Z.ltb_spec n 0); [lia | reflexivity].
Qed.

Lemma feed_page_run JSON_parse now s n k :
  1 <= n <= 50 -> 0 <= k < 2 ^ 53 ->
  let rows := limit_offset n k (all_feed_rows s) in
  let total := Z.of_nat (List.length (rentals s)) in
  feed_page JSON_parse now s n k
  = json 200 (Feed (map (entry_at JSON_parse s) rows) (JS.Int k) (JS.Int n) total
                (JS.ltb (JS.round_double (k + Z.of_nat (List.length rows)))
                   (JS.Int total))).
Proof.
  intros Hn Hk. cbv zeta. unfold feed_page.
  rewrite (get_feed_run JSON_parse now s _ _ n k).
  - cbn [fst]. rewrite (feed_limit_printed n Hn), (feed_offset_printed k Hk).
    rewrite feed_rows_page by lia. reflexivity.
  - rewrite (feed_limit_printed n Hn). apply must_be_int_small. lia.
  - rewrite (feed_offset_printed k Hk). apply must_be_int_small. lia.
Qed.

(** The rows of any page are rows of the feed. *)
Lemma feed_page_rows JSON_parse now s n k e :
  1 <= n <= 50 ->
  In e (feed_of (feed_page JSON_parse now s n k)) ->
  exists row, e = entry_at JSON_parse s row /\ In row (all_feed_rows s).
Proof.
  intros Hn. unfold feed_page.
  destruct (must_be_int (feed_offset (Some (JS.string_of_Z k)))) as [v|] eqn:Hv.
  - rewrite (get_feed_run JSON_parse now s _ _ n v).
    + cbn [fst feed_of payload json]. rewrite feed_rows_page by lia. intros He.
      apply in_map_iff in He. destruct He as (row & <- & Hrow).
      exists row. split; [reflexivity|]. unfold limit_offset in Hrow.
      rewrite <- (firstn_skipn (Z.to_nat v) (all_feed_rows s)). apply in_or_app. right.
      rewrite <- (firstn_skipn (Z.to_nat n) (skipn (Z.to_nat v) (all_feed_rows s))).
      apply in_or_app. now left.
    + rewrite (feed_limit_printed n Hn). apply must_be_int_small. lia.
    + exact Hv.
  - rewrite (get_feed_mismatch JSON_parse now s _ _ Hv). cbn. tauto.
Qed.

Lemma all_feed_rows_le s :
  (List.length (all_feed_rows s) <= List.length (rentals s))%nat.
Proof.
  unfold all_feed_rows.
  rewrite <- (Permutation_length (order_by_perm r_id true (rentals s))).
  induction (order_by r_id true (rentals s)) as [|r l IH]; [reflexivity|].
  cbn [flat_map]. rewrite length_app. cbn [List.length].
  unfold rental_joined at 1. destruct (join_user s (r_owner_id r)); cbn [List.length]; lia.
Qed.

Lemma limit_offset_length {A : Type} (n k : Z) (l : list A) :
  List.length (limit_offset n k l)
  = Nat.min (Z.to_nat n) (List.length l - Z.to_nat k).
Proof. unfold limit_offset. now rewrite length_firstn, length_skipn. Qed.

(** Where a number counts the listings, the page at an offset below 2^53 is
    the page of that offset and its flag is the exact comparison. *)
Lemma feed_page_run_exact JSON_parse now s n k :
  countable s ->
  1 <= n <= 50 -> 0 <= k < 2 ^ 53 ->
  let rows := limit_offset n k (all_feed_rows s) in
  let total := Z.of_nat (List.length (rentals s)) in
  feed_page JSON_parse now s n k
  = json 200 (Feed (map (entry_at JSON_parse s) rows) (JS.Int k) (JS.Int n) total
                (k + Z.of_nat (List.length rows) <? total)).
Proof.
  intros Hs Hn Hk. cbv zeta. rewrite (feed_page_run JSON_parse now s n k Hn Hk).
  rewrite round_double_safe; [reflexivity|].
  rewrite limit_offset_length. pose proof (all_feed_rows_le s) as Hle.
  unfold countable in Hs. lia.
Qed.

(** Where a number counts the listings, every page the client asks for holds
    the rows of its offset, and its flag is the exact comparison: past 2^53
    there are no rows, at whatever number the offset is read. *)
Lemma feed_page_exact JSON_parse now s n k :
  countable s ->
  1 <= n <= 50 -> 0 <= k ->
  let rows := limit_offset n k (all_feed_rows s) in
  feed_of (feed_page JSON_parse now s n k) = map (entry_at JSON_parse s) rows
  /\ hasMore_of (feed_page JSON_parse now s n k)
     = (k + Z.of_nat (List.length rows) <? Z.of_nat (List.length (rentals s))).
Proof.
  intros Hs Hn Hk. cbv zeta. destruct (Z.lt_ge_cases k (2 ^ 53)) as [Hlt|Hge].
  - rewrite (feed_page_run_exact JSON_parse now s n k Hs Hn (conj Hk Hlt)).
    split; reflexivity.
  - pose proof (all_feed_rows_le s) as Hle. unfold countable in Hs.
    assert (Hnone : forall v, 2 ^ 53 <= v -> limit_offset n v (all_feed_rows s) = []).
    { intros v Hv. unfold limit_offset. rewrite skipn_all2 by lia. apply firstn_nil. }
    rewrite (Hnone k Hge). cbn [map List.length].
    assert (Hfalse : (k + Z.of_nat 0 <? Z.of_nat (List.length (rentals s))) = false)
      by (apply Z.ltb_ge; lia).
    rewrite Hfalse. unfold feed_page.
    pose proof (feed_offset_printed_large k Hge) as Hlarge.
    destruct (must_be_int (feed_offset (Some (JS.string_of_Z k)))) as [v|] eqn:Hv.
    + rewrite (get_feed_run JSON_parse now s _ _ n v).
      * cbn [fst feed_of hasMore_of payload json].
        destruct (feed_offset (Some (JS.string_of_Z k))) as [w|negative];
          [|discriminate Hv].
        unfold must_be_int in Hv. destruct (_ && _); [|discriminate Hv].
        inversion Hv; subst w.
        rewrite feed_rows_page, (Hnone v Hlarge) by lia. cbn [map List.length].
        split; [reflexivity|]. cbn [JS.plus]. rewrite Z.add_0_r.
        pose proof (round_double_large v Hlarge) as Hr.
        destruct (JS.round_double v) as [x|negative]; cbn [JS.ltb].
        -- apply Z.ltb_ge. lia.
        -- subst negative. reflexivity.
      * rewrite (feed_limit_printed n Hn). apply must_be_int_small. lia.
      * exact Hv.
    + rewrite (get_feed_mismatch JSON_parse now s _ _ Hv). split; reflexivity.
Qed.

Lemma firstn_plus {A : Type} (n m : nat) (l : list A) :
  firstn (n + m) l = (firstn n l ++ firstn m (skipn n l))%list.
Proof.
  revert l. induction n as [|n IH]; intros l; [reflexivity|].
  destruct l as [|a l]; cbn [Nat.add firstn skipn app].
  - now rewrite firstn_nil.
  - now rewrite IH.
Qed.

Lemma limit_offset_next {A : Type} (n m k : Z) (l : list A) :
  0 <= n -> 0 <= m -> 0 <= k ->
  (limit_offset n k l ++ limit_offset m (k + n) l)%list = limit_offset (n + m) k l.
Proof.
  intros Hn Hm Hk. unfold limit_offset.
  rewrite (Z2Nat.inj_add n m), (Z2Nat.inj_add k n) by lia.
  rewrite firstn_plus, skipn_skipn. now rewrite (Nat.add_comm (Z.to_nat n)).
Qed.

Lemma flat_map_sorted {A B : Type} (R : Z -> Z -> Prop) (key : A -> Z) (key' : B -> Z)
    (f : A -> list B) (l : list A) :
  (forall a b, In b (f a) -> key' b = key a) ->
  (forall a, (List.length (f a) <= 1)%nat) ->
  StronglySorted (fun x y => R (key x) (key y)) l ->
  StronglySorted (fun x y => R (key' x) (key' y)) (flat_map f l).
Proof.
  intros Hkey Hlen. induction 1 as [|a l Hs IH Hall]; cbn [flat_map]; [constructor|].
  specialize (Hlen a). pose proof (Hkey a) as Ha.
  destruct (f a) as [|b [|b' rest]]; cbn [app]; [exact IH | | cbn in Hlen; lia].
  constructor; [exact IH|]. apply Forall_forall. intros y Hy.
  apply in_flat_map in Hy. destruct Hy as (x & Hx & Hyx).
  rewrite (Ha b (or_introl eq_refl)), (Hkey x y Hyx).
  rewrite Forall_forall in Hall. now apply Hall.
Qed.

Lemma StronglySorted_firstn {A : Type} (R : A -> A -> Prop) n l :
  StronglySorted R l -> StronglySorted R (firstn n l).
Proof.
  intros H. revert n. induction H as [|a l Hs IH Hall]; intros [|n]; cbn [firstn];
    try constructor; auto.
  apply Forall_forall. intros x Hx. rewrite Forall_forall in Hall. apply Hall.
  eapply (In_nth_error) in Hx. destruct Hx as [i Hi].
  apply nth_error_In with (n := i). rewrite nth_error_firstn in Hi.
  destruct (Nat.ltb i n); [exact Hi | discriminate].
Qed.

Lemma StronglySorted_skipn {A : Type} (R : A -> A -> Prop) n l :
  StronglySorted R l -> StronglySorted R (skipn n l).
Proof.
  intros H. revert n. induction H as [|a l Hs IH Hall]; intros [|n]; cbn [skipn];
    try constructor; auto.
Qed.

Lemma order_by_strict {A : Type} (key : A -> Z) (l : list A) :
  NoDup (map key l) ->
  StronglySorted (fun x y => key y < key x) (order_by key true l).
Proof.
  intros Hnd.
  assert (Hnd' : NoDup (map key (order_by key true l))).
  { eapply Permutation_NoDup; [|exact Hnd]. apply Permutation_map. symmetry.
    apply order_by_perm. }
  pose proof (order_by_sorted key true l) as Hs. cbn [in_order] in Hs.
  induction Hs as [|a m Hs IH Hall]; [constructor|].
  cbn [map] in Hnd'. inversion Hnd' as [|? ? Hnotin Hnd'']; subst.
  constructor; [now apply IH|].
  apply Forall_forall. intros y Hy. rewrite Forall_forall in Hall.
  specialize (Hall y Hy). cbn beta in Hall.
  assert (key y <> key a) by (intros E; apply Hnotin; rewrite <- E; now apply in_map).
  lia.
Qed.

Lemma all_feed_rows_strict s :
  constraints s ->
  StronglySorted (fun x y => r_id (fst y) < r_id (fst x)) (all_feed_rows s).
Proof.
  intros Hc. unfold all_feed_rows.
  apply (flat_map_sorted (fun x y => y < x) r_id (fun x => r_id (fst x))).
  - intros a b. unfold rental_joined. destruct (join_user s (r_owner_id a));
      cbn [In]; [intros [<-|[]]; reflexivity | tauto].
  - intros a. unfold rental_joined. destruct (join_user s (r_owner_id a)); cbn; lia.
  - apply order_by_strict. apply (rentals_pk _ Hc).
Qed.

Lemma strict_sorted_nodup (l : list Z) :
  StronglySorted (fun x y => y < x) l -> NoDup l.
Proof.
  induction 1 as [|a l Hs IH Hall]; constructor; auto.
  intros Hin. rewrite Forall_forall in Hall. specialize (Hall a Hin). lia.
Qed.

(** X12. Two feed pages requested one after the other as the client does
    (the second at the first's offset plus the page size) are, put end to
    end, the one page of twice the size; under the listings' primary key the
    ids on a page strictly decrease, so no listing shows twice. The listings
    are as many as a number counts, which every database file satisfies. *)
Theorem feed_pages_chain JSON_parse now s n k :
  countable s ->
  1 <= n -> 2 * n <= 50 -> 0 <= k ->
  (feed_of (feed_page JSON_parse now s n k)
   ++ feed_of (feed_page JSON_parse now s n (k + n)))%list
  = feed_of (feed_page JSON_parse now s (2 * n) k)
  /\ (constraints s ->
      StronglySorted (fun x y => y < x)
        (map fe_id (feed_of (feed_page JSON_parse now s (2 * n) k)))
      /\ NoDup (map fe_id (feed_of (feed_page JSON_parse now s (2 * n) k)))).
Proof.
  intros Hcount Hn H2 Hk.
  rewrite (proj1 (feed_page_exact JSON_parse now s n k Hcount ltac:(lia) Hk)).
  rewrite (proj1 (feed_page_exact JSON_parse now s n (k + n) Hcount ltac:(lia)
                    ltac:(lia))).
  rewrite (proj1 (feed_page_exact JSON_parse now s (2 * n) k Hcount ltac:(lia) Hk)).
  split.
  - rewrite <- map_app. f_equal. replace (2 * n) with (n + n) by lia.
    apply limit_offset_next; lia.
  - intros Hc.
    assert (Hs : StronglySorted (fun x y => y < x)
                   (map fe_id (map (entry_at JSON_parse s)
                                 (limit_offset (2 * n) k (all_feed_rows s))))).
    { rewrite map_map. cbn [entry_at fe_id]. apply StronglySorted_map.
      unfold limit_offset. apply StronglySorted_firstn, StronglySorted_skipn.
      now apply all_feed_rows_strict. }
    split; [exact Hs | now apply strict_sorted_nodup].
Qed.

Lemma sample_countable : countable Sample.db.
Proof. unfold countable. cbn. lia. Qed.

Lemma feed_pages_chain_witness :
  (feed_of (feed_page Images.parse Sample.now Sample.db 1 0)
   ++ feed_of (feed_page Images.parse Sample.now Sample.db 1 1))%list
  = feed_of (feed_page Images.parse Sample.now Sample.db 2 0)
  /\ NoDup (map fe_id (feed_of (feed_page Images.parse Sample.now Sample.db 2 0))).
Proof.
  destruct (feed_pages_chain Images.parse Sample.now Sample.db 1 0 sample_countable)
    as [H1 H2]; try lia.
  split; [exact H1 | exact (proj2 (H2 sample_constraints))].
Defined.

Lemma all_feed_rows_length s :
  owners_exist s -> List.length (all_feed_rows s) = List.length (rentals s).
Proof.
  intros Ho. unfold all_feed_rows.
  rewrite <- (Permutation_length (order_by_perm r_id true (rentals s))).
  assert (Hin : forall r, In r (order_by r_id true (rentals s)) ->
                          user_exists s (r_owner_id r) = true).
  { intros r Hr. apply Ho. eapply Permutation_in; [apply order_by_perm | exact Hr]. }
  induction (order_by r_id true (rentals s)) as [|r l IH]; [reflexivity|].
  cbn [flat_map]. rewrite length_app, IH by (intros x Hx; apply Hin; now right).
  destruct (user_exists_join _ _ (Hin r (or_introl eq_refl))) as (u & Hu).
  unfold rental_joined. rewrite Hu. reflexivity.
Qed.

(** X13. When every listing's owner is among the users, the [hasMore] flag of
    a feed page is exact: it is true if and only if the next request of the
    client (same limit, offset advanced by the number of entries received)
    returns at least one entry. The listings are as many as a number counts,
    which every database file satisfies. *)
Theorem feed_hasMore_exact JSON_parse now s n k :
  countable s ->
  owners_exist s ->
  1 <= n <= 50 -> 0 <= k ->
  let page := feed_page JSON_parse now s n k in
  hasMore_of page = true
  <-> feed_of (feed_page JSON_parse now s n (k + Z.of_nat (List.length (feed_of page))))
      <> [].
Proof.
  intros Hs Ho Hn Hk. cbv zeta.
  destruct (feed_page_exact JSON_parse now s n k Hs Hn Hk) as [-> ->].
  rewrite length_map.
  rewrite (proj1 (feed_page_exact JSON_parse now s n
                    (k + Z.of_nat (List.length (limit_offset n k (all_feed_rows s))))
                    Hs Hn ltac:(lia))).
  rewrite Z.ltb_lt, <- (all_feed_rows_length s Ho).
  set (L := all_feed_rows s).
  assert (Hlen : forall m : list (rental_row * option string),
             map (entry_at JSON_parse s) m <> [] <-> List.length m <> 0%nat).
  { intros [|a m]; cbn; split; intros H; try congruence; try lia. }
  rewrite Hlen, !limit_offset_length.
  rewrite Z2Nat.inj_add, Nat2Z.id by lia.
  lia.
Qed.

Lemma sample_owners_exist : owners_exist Sample.db.
Proof.
  intros r [<-|[<-|[<-|[]]]]; reflexivity.
Qed.

Lemma feed_hasMore_exact_witness :
  hasMore_of (feed_page Images.parse Sample.now Sample.db 2 0) = true
  /\ feed_of (feed_page Images.parse Sample.now Sample.db 2 2) <> [].
Proof.
  assert (H1 : hasMore_of (feed_page Images.parse Sample.now Sample.db 2 0) = true)
    by reflexivity.
  split; [exact H1|].
  pose proof (feed_hasMore_exact Images.parse Sample.now Sample.db 2 0
                sample_countable sample_owners_exist) as H.
  cbv zeta in H. apply H; [lia | lia | exact H1].
Defined.

Lemma limit_offset_in {A : Type} (n k : Z) (l : list A) (x : A) :
  In x (limit_offset n k l) -> In x l.
Proof.
  unfold limit_offset. intros H.
  rewrite <- (firstn_skipn (Z.to_nat k) l). apply in_or_app. right.
  rewrite <- (firstn_skipn (Z.to_nat n) (skipn (Z.to_nat k) l)). apply in_or_app. now left.
Qed.

Lemma find_by_key {A : Type} (key : A -> Z) (l : list A) (x : A) :
  NoDup (map key l) -> In x l -> find (fun y => key y =? key x) l = Some x.
Proof.
  intros Hnd Hin. destruct (find (fun y => key y =? key x) l) as [y|] eqn:E.
  - apply find_some in E. destruct E as [Hy Hk]. f_equal.
    apply (NoDup_map_inj key l); auto. lia.
  - exfalso. apply (find_none _ _ E) in Hin. rewrite Z.eqb_refl in Hin. discriminate.
Qed.

Lemma get_rental_run JSON_parse now s param rid row u :
  id_param param rid ->
  find (fun r => r_id r =? rid) (rentals s) = Some row ->
  join_user s (r_owner_id row) = Some u ->
  serve now (get_rental JSON_parse param) s
  = (json 200 (Rental (mkRentalJson row (u_name u)
                         (decode_images JSON_parse (r_images row))
                         (comments_of s rid) (count_likes s rid))), s).
Proof.
  intros Hp Hrow Hu. unfold get_rental. rewrite (param_id_ok _ _ Hp).
  cbn [validateRequest]. unfold get_rental_handler. rewrite (with_id_ok _ _ _ _ Hp).
  unfold serve, run. cbn [run_with exec tl]. rewrite Hrow.
  unfold rental_joined. rewrite Hu. reflexivity.
Qed.

Lemma all_feed_rows_in s row :
  In row (all_feed_rows s) ->
  In (fst row) (rentals s)
  /\ exists u, join_user s (r_owner_id (fst row)) = Some u /\ snd row = u_name u.
Proof.
  unfold all_feed_rows. intros H. apply in_flat_map in H. destruct H as (r & Hr & Hrow).
  apply (Permutation_in _ (order_by_perm r_id true _)) in Hr.
  unfold rental_joined in Hrow. destruct (join_user s (r_owner_id r)) as [u|] eqn:E.
  - destruct Hrow as [<-|[]]. cbn [fst snd]. split; [exact Hr|]. now exists u.
  - destruct Hrow.
Qed.

(** X14. An entry of a feed page and the detail view of the same listing
    agree: GET /api/rentals/:id for the entry's id answers 200 with the same
    title, owner name, decoded images and like count, and the entry's
    comments are the first five of the detail view's comments. *)
Theorem feed_entry_matches_detail JSON_parse now now' s n k e param :
  constraints s ->
  1 <= n <= 50 -> 0 <= k ->
  In e (feed_of (feed_page JSON_parse now s n k)) ->
  id_param param (fe_id e) ->
  exists rental,
    serve now' (get_rental JSON_parse param) s = (json 200 (Rental rental), s)
    /\ r_id (rj_row rental) = fe_id e
    /\ r_title (rj_row rental) = fe_title e
    /\ rj_owner_name rental = fe_owner_name e
    /\ rj_images rental = fe_images e
    /\ fe_comments e = firstn 5 (rj_comments rental)
    /\ rj_likes rental = fe_likes e.
Proof.
  intros Hc Hn Hk He Hp.
  destruct (feed_page_rows JSON_parse now s n k e Hn He) as (row & -> & Hrow).
  destruct (all_feed_rows_in _ _ Hrow) as (Hin & u & Hu & Hname).
  cbn [entry_at fe_id] in Hp.
  pose proof (find_by_key r_id (rentals s) (fst row) (rentals_pk _ Hc) Hin) as Hfind.
  rewrite (get_rental_run JSON_parse now' s param _ _ u Hp Hfind Hu).
  eexists. split; [reflexivity|]. cbn. repeat split. now rewrite Hname.
Qed.

Lemma feed_entry_matches_detail_witness :
  exists rental,
    serve Sample.now (get_rental Images.parse "1") Sample.db
    = (json 200 (Rental rental), Sample.db)
    /\ rj_likes rental = 1.
Proof.
  destruct (feed_entry_matches_detail Images.parse Sample.now Sample.now Sample.db 3 0
              (entry_at Images.parse Sample.db (Sample.loft, Some "Alice")) "1"
              sample_constraints)
    as (rental & Hrun & _ & _ & _ & _ & _ & Hlikes); try lia.
  - cbn. right. right. left. reflexivity.
  - split; reflexivity.
  - exists rental. split; [exact Hrun | exact Hlikes].
Defined.

(* ---------------------------------------------------------------------- *)
(** ** The browser side of the feed *)
(* ---------------------------------------------------------------------- *)

(** X15. [timeAgo] prints "just now" below one minute (and for times in the
    future), then whole minutes from 1m to 59m, whole hours from 1h to 23h,
    and whole days from 1d on, each the elapsed time rounded down. *)
Theorem timeAgo_ranges now t :
  let diff := now - t in
  (diff < 60000 -> Client.timeAgo now (Some t) = "just now")
  /\ (60000 <= diff < 3600000 ->
      Client.timeAgo now (Some t) = JS.string_of_Z (diff / 60000) ++ "m"
      /\ 1 <= diff / 60000 <= 59)
  /\ (3600000 <= diff < 86400000 ->
      Client.timeAgo now (Some t) = JS.string_of_Z (diff / 3600000) ++ "h"
      /\ 1 <= diff / 3600000 <= 23)
  /\ (86400000 <= diff ->
      Client.timeAgo now (Some t) = JS.string_of_Z (diff / 86400000) ++ "d"
      /\ 1 <= diff / 86400000).
Proof.
  cbv zeta. unfold Client.timeAgo. cbv zeta. set (diff := now - t).
  assert (Hh : diff / 60000 / 60 = diff / 3600000)
    by (rewrite Z.div_div by lia; reflexivity).
  assert (Hd : diff / 3600000 / 24 = diff / 86400000)
    by (rewrite Z.div_div by lia; reflexivity).
  repeat split.
  - intros H. assert (diff / 60000 < 1) by (apply Z.div_lt_upper_bound; lia).
    destruct (Z.ltb_spec (diff / 60000) 1); [reflexivity | lia].
  - assert (1 <= diff / 60000) by (apply Z.div_le_lower_bound; lia).
    assert (diff / 60000 < 60) by (apply Z.div_lt_upper_bound; lia).
    destruct (Z.ltb_spec (diff / 60000) 1); [lia|].
    destruct (Z.ltb_spec (diff / 60000) 60); [reflexivity | lia].
  - apply Z.div_le_lower_bound; lia.
  - assert (diff / 60000 < 60) by (apply Z.div_lt_upper_bound; lia). lia.
  - assert (60 <= diff / 60000) by (apply Z.div_le_lower_bound; lia).
    assert (diff / 3600000 < 24) by (apply Z.div_lt_upper_bound; lia).
    destruct (Z.ltb_spec (diff / 60000) 1); [lia|].
    destruct (Z.ltb_spec (diff / 60000) 60); [lia|].
    rewrite Hh. destruct (Z.ltb_spec (diff / 3600000) 24); [reflexivity | lia].
  - apply Z.div_le_lower_bound; lia.
  - assert (diff / 3600000 < 24) by (apply Z.div_lt_upper_bound; lia). lia.
  - assert (60 <= diff / 60000) by (apply Z.div_le_lower_bound; lia).
    assert (24 <= diff / 3600000) by (apply Z.div_le_lower_bound; lia).
    destruct (Z.ltb_spec (diff / 60000) 1); [lia|].
    destruct (Z.ltb_spec (diff / 60000) 60); [lia|].
    rewrite Hh. destruct (Z.ltb_spec (diff / 3600000) 24); [lia|].
    rewrite Hd. reflexivity.
  - apply Z.div_le_lower_bound; lia.
Qed.

Lemma timeAgo_ranges_witness :
  Client.timeAgo 7200000 (Some 0) = "2h" /\ Client.timeAgo 0 (Some 5000) = "just now".
Proof.
  destruct (timeAgo_ranges 7200000 0) as (_ & _ & H3 & _).
  destruct (timeAgo_ranges 0 5000) as (H1 & _).
  cbv zeta in *. split.
  - apply H3. lia.
  - apply H1. lia.
Defined.

Lemma show_mod len i : 0 < len -> 0 <= i + len -> Client.show len i = (i + len) mod len.
Proof. intros Hl Hi. unfold Client.show. apply Z.rem_mod_nonneg; lia. Qed.

Lemma iter_next len idx (j : nat) :
  1 < len -> 0 <= idx < len ->
  Nat.iter j (Client.next len) idx = (idx + Z.of_nat j) mod len.
Proof.
  intros Hl Hi. induction j as [|j IH].
  - cbn. rewrite Z.add_0_r. symmetry. apply Z.mod_small. lia.
  - rewrite Nat.iter_succ, IH. unfold Client.next.
    assert (0 <= (idx + Z.of_nat j) mod len < len) by (apply Z.mod_pos_bound; lia).
    rewrite show_mod by lia.
    rewrite <- Z.add_assoc, Z.add_mod_idemp_l by lia.
    replace (idx + Z.of_nat j + (1 + len)) with (idx + Z.of_nat (S j) + 1 * len) by lia.
    apply Z.mod_add. lia.
Qed.

(** X16. The carousel index of a card with several images never leaves the
    images: from an index in range, the previous and next buttons give an
    index in range, each undoes the other, they wrap around at both ends, and
    pressing next once per image comes back to the start. *)
Theorem carousel_stays_in_range len idx :
  1 < len -> 0 <= idx < len ->
  0 <= Client.next len idx < len
  /\ 0 <= Client.prev len idx < len
  /\ Client.prev len (Client.next len idx) = idx
  /\ Client.next len (Client.prev len idx) = idx
  /\ Client.next len (len - 1) = 0
  /\ Client.prev len 0 = len - 1
  /\ Nat.iter (Z.to_nat len) (Client.next len) idx = idx.
Proof.
  intros Hl Hi.
  assert (Hp : forall i, 0 <= i < len ->
                         Client.prev len i = if i =? 0 then len - 1 else i - 1).
  { intros i Hr. unfold Client.prev. rewrite show_mod by lia. destruct (Z.eqb_spec i 0).
    - subst. replace (0 - 1 + len) with (len - 1) by lia. apply Z.mod_small. lia.
    - replace (i - 1 + len) with (i - 1 + 1 * len) by lia. rewrite Z.mod_add by lia.
      apply Z.mod_small. lia. }
  assert (Hn : forall i, 0 <= i < len ->
                         Client.next len i = if i + 1 =? len then 0 else i + 1).
  { intros i Hr. unfold Client.next. rewrite show_mod by lia.
    destruct (Z.eqb_spec (i + 1) len).
    - replace (i + 1 + len) with (0 + 2 * len) by lia. rewrite Z.mod_add by lia.
      apply Z.mod_small. lia.
    - replace (i + 1 + len) with (i + 1 + 1 * len) by lia. rewrite Z.mod_add by lia.
      apply Z.mod_small. lia. }
  assert (Hnr : 0 <= Client.next len idx < len).
  { rewrite Hn by lia. destruct (Z.eqb_spec (idx + 1) len); lia. }
  assert (Hpr : 0 <= Client.prev len idx < len).
  { rewrite Hp by lia. destruct (Z.eqb_spec idx 0); lia. }
  split; [exact Hnr|]. split; [exact Hpr|]. split; [|split; [|split; [|split]]].
  - rewrite (Hp _ Hnr), Hn by lia.
    destruct (Z.eqb_spec (idx + 1) len); cbn [Z.eqb].
    + lia.
    + destruct (Z.eqb_spec (idx + 1) 0); lia.
  - rewrite (Hn _ Hpr), Hp by lia.
    destruct (Z.eqb_spec idx 0).
    + destruct (Z.eqb_spec (len - 1 + 1) len); lia.
    + destruct (Z.eqb_spec (idx - 1 + 1) len); lia.
  - rewrite Hn by lia. destruct (Z.eqb_spec (len - 1 + 1) len); lia.
  - rewrite Hp by lia. reflexivity.
  - rewrite iter_next by lia. rewrite Z2Nat.id by lia.
    replace (idx + len) with (idx + 1 * len) by lia. rewrite Z.mod_add by lia.
    apply Z.mod_small. lia.
Qed.

Lemma carousel_stays_in_range_witness :
  Client.next 3 2 = 0 /\ Client.prev 3 0 = 2.
Proof.
  destruct (carousel_stays_in_range 3 2) as (_ & _ & _ & _ & H5 & H6 & _); try lia.
  split; [exact H5 | exact H6].
Defined.

(** X17. The like button keeps the card in step with the server: if the
    card shows the stored like count of the listing when the user clicks,
    it shows the stored like count after the toggle the click caused. *)
Theorem like_click_tracks_count now s uid mail param rid current :
  constraints s ->
  id_param param rid ->
  rental_exists s rid = true ->
  user_exists s uid = true ->
  current = count_likes s rid ->
  let r := serve now (post_like (Token uid mail) param) s in
  Client.like_click (fst r) current = count_likes (snd r) rid.
Proof.
  intros Hc Hp Hr Hu ->. cbv zeta.
  destruct (post_like_run now s uid mail param rid Hc Hp Hr (fun _ => Hu))
    as (s' & -> & _ & _ & _ & Hcount & _).
  cbn [fst snd]. rewrite Hcount. unfold Client.like_click. cbn.
  assert (0 <= count_likes s' rid) by (unfold count_likes; lia).
  destruct (liked s rid uid); cbn [negb]; lia.
Qed.

Lemma like_click_tracks_count_witness :
  Client.like_click
    (fst (serve Sample.now (post_like (Token 2 "bob@example.com") "1") Sample.db)) 1 = 0.
Proof.
  pose proof (like_click_tracks_count Sample.now Sample.db 2 "bob@example.com" "1" 1 1
                sample_constraints (conj eq_refl eq_refl) eq_refl eq_refl eq_refl) as H.
  cbv zeta in H. rewrite H. reflexivity.
Defined.

Lemma firstn_past {A : Type} (n m : nat) (l : list A) :
  (List.length l <= n)%nat -> firstn (n + m) l = firstn n l.
Proof. intros H. rewrite !firstn_all2 by lia. reflexivity. Qed.

(** One more call of [loadMore] against the live application. *)
Lemma loadMore_live_step JSON_parse now s sample (j : nat) :
  countable s ->
  owners_exist s ->
  let T := Z.of_nat (List.length (rentals s)) in
  let E := map (entry_at JSON_parse s) (all_feed_rows s) in
  let at_ (j : nat) :=
    Client.mkScroll (Z.min (6 * Z.of_nat j) T) (6 * Z.of_nat j <? T)
      (map Client.Card (firstn (6 * j) E)) in
  0 < T ->
  Client.loadMore (Client.live JSON_parse now s sample) (at_ j) = at_ (S j).
Proof.
  intros Hs Ho. cbv zeta. intros HT.
  pose proof (all_feed_rows_length s Ho) as HL.
  unfold Client.loadMore. cbn [Client.hasMore Client.feedOffset Client.feedEl].
  destruct (Z.ltb_spec (6 * Z.of_nat j) (Z.of_nat (List.length (rentals s)))) as [Hlt|Hge];
    cbn [negb].
  - (* more to load *)
    rewrite Z.min_l by lia. unfold Client.getJSON_feed, Client.live.
    cbn [Client.fetch_feed].
    rewrite (feed_page_run_exact JSON_parse now s Client.FEED_LIMIT (6 * Z.of_nat j) Hs)
      by (unfold Client.FEED_LIMIT, countable in *; lia).
    replace (Client.ok (json 200 _)) with true by reflexivity. cbn [payload json].
    set (rows := limit_offset Client.FEED_LIMIT (6 * Z.of_nat j) (all_feed_rows s)).
    assert (Hrows : List.length rows
                    = Nat.min 6 (List.length (all_feed_rows s) - 6 * j)).
    { unfold rows. rewrite limit_offset_length. f_equal. lia. }
    assert (Heq : (firstn (6 * j) (map (entry_at JSON_parse s) (all_feed_rows s))
                   ++ map (entry_at JSON_parse s) rows)%list
                  = firstn (6 * S j) (map (entry_at JSON_parse s) (all_feed_rows s))).
    { replace (6 * S j)%nat with (6 * j + 6)%nat by lia. rewrite firstn_plus.
      f_equal. unfold rows, limit_offset. rewrite skipn_map, firstn_map.
      replace (Z.to_nat (6 * Z.of_nat j)) with (6 * j)%nat by lia. reflexivity. }
    destruct (map (entry_at JSON_parse s) rows) as [|e rest] eqn:Em.
    + exfalso. apply (f_equal (@List.length _)) in Em. rewrite length_map, Hrows in Em.
      cbn [List.length] in Em. lia.
    + assert (Hlen : List.length (e :: rest) = List.length rows).
      { rewrite <- Em. apply length_map. }
      rewrite <- map_app, Heq, Hlen, Hrows. f_equal.
      * lia.
      * apply eq_true_iff_eq. rewrite !Z.ltb_lt. lia.
  - (* everything is on the page: the call returns at once *)
    f_equal.
    + lia.
    + symmetry. apply Z.ltb_ge. lia.
    + f_equal. replace (6 * S j)%nat with (6 * j + 6)%nat by lia.
      symmetry. apply firstn_past. rewrite length_map. lia.
Qed.

(** X18. Scrolling the feed of a live application whose store is not written
    to (at least one listing, every owner a user): after any number of
    [loadMore] calls the page shows the first 6, 12, 18, ... listings, newest
    first and each once, never the sample data or an error notice; once all
    are shown [hasMore] is false and further calls change nothing. The
    listings are as many as a number counts, which every database file
    satisfies. *)
Theorem infinite_scroll_shows_each_once JSON_parse now s sample (j : nat) :
  countable s ->
  owners_exist s ->
  rentals s <> [] ->
  let T := Z.of_nat (List.length (rentals s)) in
  let E := map (entry_at JSON_parse s) (all_feed_rows s) in
  let st := Nat.iter j (Client.loadMore (Client.live JSON_parse now s sample))
              Client.loadFeed_start in
  Client.feedEl st = map Client.Card (firstn (6 * j) E)
  /\ Client.feedOffset st = Z.min (6 * Z.of_nat j) T
  /\ Client.hasMore st = (6 * Z.of_nat j <? T)
  /\ (T <= 6 * Z.of_nat j -> Client.feedEl st = map Client.Card E /\ Client.hasMore st = false)
  /\ (constraints s -> NoDup (map fe_id E)).
Proof.
  intros Hs Ho Hne. cbv zeta.
  assert (HT : 0 < Z.of_nat (List.length (rentals s))).
  { destruct (rentals s); [congruence | cbn [List.length]; lia]. }
  assert (Hst : Nat.iter j (Client.loadMore (Client.live JSON_parse now s sample))
                  Client.loadFeed_start
                = Client.mkScroll
                    (Z.min (6 * Z.of_nat j) (Z.of_nat (List.length (rentals s))))
                    (6 * Z.of_nat j <? Z.of_nat (List.length (rentals s)))
                    (map Client.Card
                       (firstn (6 * j) (map (entry_at JSON_parse s) (all_feed_rows s))))).
  { induction j as [|j IH].
    - cbn [Nat.iter nat_rect]. unfold Client.loadFeed_start. f_equal.
      + lia.
      + symmetry. apply Z.ltb_lt. lia.
    - rewrite Nat.iter_succ, IH.
      apply (loadMore_live_step JSON_parse now s sample j Hs Ho HT). }
  rewrite Hst. cbn [Client.feedEl Client.feedOffset Client.hasMore].
  split; [reflexivity|]. split; [reflexivity|]. split; [reflexivity|]. split.
  - intros Hall. split.
    + f_equal. apply firstn_all2. rewrite length_map, (all_feed_rows_length s Ho). lia.
    + apply Z.ltb_ge. exact Hall.
  - intros Hc. rewrite map_map. cbn [entry_at fe_id].
    apply strict_sorted_nodup.
    apply (StronglySorted_map (fun x y => y < x) (fun x => r_id (fst x))).
    now apply all_feed_rows_strict.
Qed.

Lemma infinite_scroll_shows_each_once_witness :
  let st := Nat.iter 1 (Client.loadMore (Client.live Images.parse Sample.now Sample.db None))
              Client.loadFeed_start in
  Client.feedEl st
  = map Client.Card (map (entry_at Images.parse Sample.db) (all_feed_rows Sample.db))
  /\ Client.hasMore st = false.
Proof.
  assert (Hne : rentals Sample.db <> []) by discriminate.
  pose proof (infinite_scroll_shows_each_once Images.parse Sample.now Sample.db None 1
                sample_countable sample_owners_exist Hne) as H.
  cbv zeta in H. destruct H as (_ & _ & _ & H4 & _). cbv zeta. apply H4. cbn. lia.
Defined.

(* ---------------------------------------------------------------------- *)
(** ** The token a request is authenticated with *)
(* ---------------------------------------------------------------------- *)

Lemma split_on_nonempty sep s : Http.split_on sep s <> [].
Proof.
  destruct s as [|c rest]; cbn [Http.split_on]; [discriminate|].
  destruct (Ascii.eqb c sep); [discriminate|].
  destruct (Http.split_on sep rest); discriminate.
Qed.

Lemma split_on_one s :
  forall b, Http.split_on Http.space s = [b] -> s = b /\ spaceless b = true.
Proof.
  induction s as [|c rest IH]; cbn [Http.split_on]; intros b H.
  - inversion H. split; reflexivity.
  - destruct (Ascii.eqb c Http.space) eqn:Ec.
    + inversion H as [[Hb Hrest]]. now apply split_on_nonempty in Hrest.
    + destruct (Http.split_on Http.space rest) as [|h t] eqn:Es.
      * now apply split_on_nonempty in Es.
      * inversion H; subst. destruct (IH h eq_refl) as [-> Hh].
        split; [reflexivity|]. unfold spaceless in *. cbn [JS.forallb_string_with].
        now rewrite Ec, Hh.
Qed.

Lemma split_on_two s :
  forall a b, Http.split_on Http.space s = [a; b] ->
  s = a ++ String Http.space b /\ spaceless a = true /\ spaceless b = true.
Proof.
  induction s as [|c rest IH]; cbn [Http.split_on]; intros a b H; [discriminate|].
  destruct (Ascii.eqb c Http.space) eqn:Ec.
  - inversion H as [[Ha Hrest]]. apply Ascii.eqb_eq in Ec. subst c.
    destruct (split_on_one _ _ Hrest) as [-> Hb]. repeat split; auto.
  - destruct (Http.split_on Http.space rest) as [|h t] eqn:Es.
    + now apply split_on_nonempty in Es.
    + inversion H; subst. destruct (IH h b eq_refl) as (-> & Hh & Hb).
      repeat split; auto. unfold spaceless in *. cbn [JS.forallb_string_with].
      now rewrite Ec, Hh.
Qed.

Lemma split_on_spaceless b : spaceless b = true -> Http.split_on Http.space b = [b].
Proof.
  unfold spaceless. induction b as [|c b IH]; cbn [JS.forallb_string_with Http.split_on];
    [reflexivity|].
  intros H. apply andb_true_iff in H. destruct H as [Hc Hb].
  apply negb_true_iff in Hc. rewrite Hc, (IH Hb). reflexivity.
Qed.

Lemma split_on_joined a b :
  spaceless a = true -> spaceless b = true ->
  Http.split_on Http.space (a ++ String Http.space b) = [a; b].
Proof.
  unfold spaceless at 1. intros Ha Hb.
  induction a as [|c a IH]; cbn [append Http.split_on JS.forallb_string_with] in *.
  - rewrite Ascii.eqb_refl. now rewrite (split_on_spaceless b Hb).
  - apply andb_true_iff in Ha. destruct Ha as [Hc Ha].
    apply negb_true_iff in Hc. rewrite Hc, (IH Ha). reflexivity.
Qed.

Lemma lower_char_space c :
  Ascii.eqb (Http.lower_char c) Http.space = Ascii.eqb c Http.space.
Proof. destruct c as [[] [] [] [] [] [] [] []]; reflexivity. Qed.

Lemma toLowerCase_spaceless s : spaceless (Http.toLowerCase s) = spaceless s.
Proof.
  unfold spaceless. induction s as [|c s IH];
    cbn [Http.toLowerCase JS.forallb_string_with]; [reflexivity|].
  now rewrite lower_char_space, IH.
Qed.

Lemma nonempty_some v t : Http.nonempty v = Some t <-> v = Some t /\ t <> "".
Proof.
  unfold Http.nonempty. destruct v as [x|].
  - destruct (String.eqb_spec x ""); split.
    + discriminate.
    + intros [H Hne]. inversion H; subst. contradiction.
    + intros H. inversion H; subst. auto.
    + intros [H _]. exact H.
  - split; [discriminate | intros [H _]; discriminate].
Qed.

(** X19. The cookie wins: with a non-empty [token] cookie the Authorization
    header is never looked at, even when the cookie's token is rejected and
    the header's would be accepted. Without the cookie, a token is taken from
    the header exactly when the header is a scheme, one space and a token
    without spaces, the scheme being "bearer" in any letter case. *)
Theorem token_cookie_then_bearer verify cookie authorization :
  (forall t, cookie = Some t -> t <> "" ->
     Http.token_of cookie authorization = Some t
     /\ Http.credential_of verify cookie authorization
        = Http.credential_of verify (Some t) None)
  /\ (Http.nonempty cookie = None ->
      forall t,
        Http.token_of cookie authorization = Some t
        <-> exists scheme,
              authorization = Some (scheme ++ String Http.space t)
              /\ Http.toLowerCase scheme = "bearer"
              /\ spaceless t = true).
Proof.
  split.
  - intros t -> Hne.
    assert (E : forall h, Http.token_of (Some t) h = Some t).
    { intros h. unfold Http.token_of, Http.nonempty.
      destruct (String.eqb_spec t ""); [contradiction | reflexivity]. }
    split; [apply E|]. unfold Http.credential_of. now rewrite !E.
  - intros Hc t. unfold Http.token_of. rewrite Hc. split.
    + destruct (Http.nonempty authorization) as [h|] eqn:Eh; [|discriminate].
      apply nonempty_some in Eh. destruct Eh as [-> _].
      destruct (Http.split_on Http.space h) as [|scheme [|t' [|x rest]]] eqn:Es;
        try discriminate.
      destruct (String.eqb_spec (Http.toLowerCase scheme) "bearer") as [El|]; [|discriminate].
      intros H. inversion H; subst t'.
      destruct (split_on_two _ _ _ Es) as (-> & _ & Ht).
      exists scheme. repeat split; auto.
    + intros (scheme & -> & Hl & Ht).
      assert (Hs : spaceless scheme = true).
      { rewrite <- toLowerCase_spaceless, Hl. reflexivity. }
      assert (Hn : Http.nonempty (Some (scheme ++ String Http.space t))
                   = Some (scheme ++ String Http.space t)).
      { apply nonempty_some. split; [reflexivity|]. destruct scheme; discriminate. }
      rewrite Hn, (split_on_joined _ _ Hs Ht), Hl. reflexivity.
Qed.

Lemma token_cookie_then_bearer_witness :
  Http.token_of (Some "abc") (Some "Bearer xyz") = Some "abc"
  /\ Http.token_of None (Some "BEARER xyz") = Some "xyz".
Proof.
  destruct (token_cookie_then_bearer (fun _ => None) (Some "abc") (Some "Bearer xyz"))
    as [H1 _].
  destruct (token_cookie_then_bearer (fun _ => None) None (Some "BEARER xyz"))
    as [_ H2].
  split.
  - apply H1; [reflexivity | discriminate].
  - apply (H2 eq_refl). exists "BEARER". repeat split.
Defined.

(* ---------------------------------------------------------------------- *)
(** ** Upload names *)
(* ---------------------------------------------------------------------- *)

Lemma all_safe_app a b : all_safe (a ++ b) = all_safe a && all_safe b.
Proof.
  unfold all_safe. induction a as [|c a IH]; cbn [append JS.forallb_string_with].
  - reflexivity.
  - now rewrite IH, andb_assoc.
Qed.

Lemma safe_name_safe s : all_safe (Http.safe_name s) = true.
Proof.
  unfold all_safe. induction s as [|c s IH]; cbn [Http.safe_name JS.forallb_string_with];
    [reflexivity|].
  rewrite IH, andb_true_r. destruct (Http.safe_char c) eqn:E; [exact E | reflexivity].
Qed.

Lemma digit_safe c : JS.is_decimal_digit c = true -> Http.safe_char c = true.
Proof. destruct c as [[] [] [] [] [] [] [] []]; cbn; intros H; try discriminate H; reflexivity. Qed.

Lemma digits_safe s : JS.forallb_string s = true -> all_safe s = true.
Proof.
  unfold JS.forallb_string, all_safe. induction s as [|c s IH];
    cbn [JS.forallb_string_with]; [reflexivity|].
  intros H. apply andb_true_iff in H. destruct H as [Hc Hs].
  now rewrite (digit_safe c Hc), (IH Hs).
Qed.

Lemma numeral_safe z : 0 <= z -> all_safe (JS.string_of_Z z) = true.
Proof.
  intros Hz. unfold JS.string_of_Z. cbv zeta.
  destruct (Z.ltb_spec z 0); [lia|]. replace (Z.abs z) with z by lia.
  destruct (numeral_read z Hz) as (c & rest & -> & Hc & Hr & _).
  apply digits_safe. unfold JS.forallb_string in *. cbn [JS.forallb_string_with].
  now rewrite Hc, Hr.
Qed.

(** X20. The name multer stores an upload under is made of letters, digits,
    dots, hyphens and underscores only, whatever the client called the file
    (so it holds no slash, backslash or NUL); the replacement keeps the
    length of the original name, leaves a name of safe characters as it is,
    and doing it twice is doing it once. *)
Theorem upload_name_is_safe now random originalname :
  0 <= now -> 0 <= random ->
  all_safe (Http.filename now random originalname) = true
  /\ String.length (Http.safe_name originalname) = String.length originalname
  /\ (all_safe originalname = true -> Http.safe_name originalname = originalname)
  /\ Http.safe_name (Http.safe_name originalname) = Http.safe_name originalname.
Proof.
  intros Hn Hr.
  assert (Hid : forall s, all_safe s = true -> Http.safe_name s = s).
  { unfold all_safe. induction s as [|c s IH];
      cbn [Http.safe_name JS.forallb_string_with]; [reflexivity|].
    intros H. apply andb_true_iff in H. destruct H as [Hc Hs].
    now rewrite Hc, (IH Hs). }
  split; [|split; [|split]].
  - unfold Http.filename. rewrite !all_safe_app, safe_name_safe.
    rewrite (numeral_safe now Hn), (numeral_safe random Hr). reflexivity.
  - induction originalname as [|c s IH]; cbn [Http.safe_name String.length]; auto.
  - apply Hid.
  - apply Hid. apply safe_name_safe.
Qed.

Lemma upload_name_is_safe_witness :
  all_safe (Http.filename 1700000000000 123456789 "../../etc/pass wd.png") = true.
Proof.
  apply (upload_name_is_safe 1700000000000 123456789 "../../etc/pass wd.png"); lia.
Defined.

(* ---------------------------------------------------------------------- *)
(** ** The seed script's insertLike *)
(* ---------------------------------------------------------------------- *)

Lemma insertLike_cases now s rid uid :
  (insertLike now rid uid s = s
   /\ (liked s rid uid = true \/ rental_exists s rid && user_exists s uid = false))
  \/ (liked s rid uid = false /\ rental_exists s rid && user_exists s uid = true
      /\ insertLike now rid uid s
         = set_likes s (likes s ++ [mkLike (next_rowid (seq_likes s) (map l_id (likes s)))
                                      rid uid now])%list
             (next_rowid (seq_likes s) (map l_id (likes s)))).
Proof.
  unfold insertLike. cbn [exec]. fold (liked s rid uid).
  destruct (liked s rid uid); [left; auto|].
  destruct (rental_exists s rid && user_exists s uid); [right; auto | left; auto].
Qed.

Lemma liked_after_append s rows q r u :
  liked (set_likes s (likes s ++ rows)%list q) r u
  = liked s r u || existsb (like_matches r u) rows.
Proof. unfold liked. cbn [likes set_likes]. apply existsb_app. Qed.

(** X21. The seed script's [insertLike] never fails and never doubles a
    like: running it twice is running it once; when the listing and the user
    exist the pair is liked afterwards; no other pair changes; and it keeps
    the primary keys and UNIQUE(rental_id, user_id). *)
Theorem insertLike_once now now' s rid uid :
  insertLike now rid uid (insertLike now' rid uid s) = insertLike now' rid uid s
  /\ (rental_exists s rid = true -> user_exists s uid = true ->
      liked (insertLike now' rid uid s) rid uid = true)
  /\ (forall r u, (r, u) <> (rid, uid) ->
                  liked (insertLike now' rid uid s) r u = liked s r u)
  /\ (constraints s -> constraints (insertLike now' rid uid s)).
Proof.
  destruct (insertLike_cases now' s rid uid) as [[E H]|(Hl & Hfk & E)]; rewrite E.
  - split; [|split; [|split]].
    + destruct (insertLike_cases now s rid uid) as [[E' _]|(Hl' & Hfk' & _)]; [exact E'|].
      destruct H as [H|H]; congruence.
    + intros Hr Hu. destruct H as [H|H]; [exact H|]. rewrite Hr, Hu in H. discriminate.
    + reflexivity.
    + auto.
  - assert (Hnow : liked (set_likes s
                            (likes s ++ [mkLike (next_rowid (seq_likes s) (map l_id (likes s)))
                                           rid uid now'])%list
                            (next_rowid (seq_likes s) (map l_id (likes s)))) rid uid = true).
    { rewrite liked_after_append. cbn [existsb]. unfold like_matches at 1.
      cbn [l_rental_id l_user_id]. rewrite !Z.eqb_refl. apply orb_true_r. }
    split; [|split; [|split]].
    + now apply insertLike_idempotent.
    + intros _ _. exact Hnow.
    + intros r u Hne. rewrite liked_after_append. cbn [existsb]. unfold like_matches at 1.
      cbn [l_rental_id l_user_id].
      replace ((rid =? r) && (uid =? u)) with false; [now rewrite !orb_false_r|].
      symmetry. apply not_true_is_false. rewrite andb_true_iff, !Z.eqb_eq.
      intros [-> ->]. now apply Hne.
    + intros Hc. now apply insert_like_toggled.
Qed.

Lemma insertLike_once_witness :
  liked (insertLike Sample.now 2 1 Sample.db) 2 1 = true
  /\ constraints (insertLike Sample.now 2 1 Sample.db).
Proof.
  destruct (insertLike_once Sample.now Sample.now Sample.db 2 1) as (_ & H2 & _ & H4).
  split; [exact (H2 eq_refl eq_refl) | exact (H4 sample_constraints)].
Defined.

(* ---------------------------------------------------------------------- *)
(** ** Accounts: register, log in, who am I *)
(* ---------------------------------------------------------------------- *)

Import Accounts.















(** X25. Logging in never writes to the store. With a password that is a
    string, a login that passes validation and does not match (nobody has
    the email, or bcrypt does not recognise the password in that user's
    hash) is answered with one and the same 401 "Invalid credentials" in both
    cases. With a password that is not a string the answer is that 401 when
    nobody has the email, and a 500 when somebody has (bcrypt throws). *)
Theorem login_failure_is_uniform lib now email password p a :
  snd (login lib now email password a) = a
  /\ (fst (email_chain lib "email must be valid" email) = [] ->
      password = Some (JS.Str p) ->
      (forall u, user_by_email a (normalized_email lib "email must be valid" email) = Some u ->
                 compareSync lib p (u_password_hash u) = false) ->
      fst (login lib now email password a) = Message 401 "Invalid credentials")
  /\ (fst (email_chain lib "email must be valid" email) = [] ->
      forall x, password = Some x -> (forall q, x <> JS.Str q) ->
      fst (login lib now email password a)
      = match user_by_email a (normalized_email lib "email must be valid" email) with
        | None => Message 401 "Invalid credentials"
        | Some _ => Message 500 "Internal server error"
        end).
Proof.
  split; [|split].
  - unfold login.
    destruct (fst (email_chain lib _ email) ++ password_exists password)%list;
      [|reflexivity].
    destruct (user_by_email a _); [|reflexivity].
    destruct password as [[| | |q|]|]; try reflexivity.
    destruct (compareSync lib q _); reflexivity.
  - intros He -> Hno. unfold login. rewrite He. cbn [password_exists app].
    destruct (user_by_email a _) as [u|] eqn:Hu; [|reflexivity].
    now rewrite (Hno u eq_refl).
  - intros He x -> Hx. unfold login. rewrite He. cbn [password_exists app].
    destruct (user_by_email a _) as [u|]; [|reflexivity].
    destruct x as [| | |q|]; try reflexivity. now destruct (Hx q).
Qed.

Lemma login_failure_is_uniform_witness :
  fst (login toy Sample.now (Some (JS.Str "nobody@example.com"))
         (Some (JS.Str "password1")) sample_accounts)
  = Message 401 "Invalid credentials"
  /\ fst (login toy Sample.now (Some (JS.Str "alice@example.com"))
            (Some (JS.Str "password1")) sample_accounts)
     = Message 401 "Invalid credentials"
  /\ fst (login toy Sample.now (Some (JS.Str "alice@example.com"))
            (Some (JS.Num 12345678)) sample_accounts)
     = Message 500 "Internal server error".
Proof.
  split; [|split].
  - apply (login_failure_is_uniform toy Sample.now (Some (JS.Str "nobody@example.com"))
             (Some (JS.Str "password1")) "password1" sample_accounts);
      [reflexivity | reflexivity |].
    intros u Hu. cbv in Hu. discriminate.
  - apply (login_failure_is_uniform toy Sample.now (Some (JS.Str "alice@example.com"))
             (Some (JS.Str "password1")) "password1" sample_accounts);
      [reflexivity | reflexivity |].
    intros u Hu. cbv in Hu. inversion Hu; subst. reflexivity.
  - apply (proj2 (proj2 (login_failure_is_uniform toy Sample.now
                           (Some (JS.Str "alice@example.com"))
                           (Some (JS.Num 12345678)) "" sample_accounts))
             eq_refl (JS.Num 12345678) eq_refl).
    intros q. discriminate.
Defined.

(* ---------------------------------------------------------------------- *)
(** ** The register handlers of the earlier lessons *)
(* ---------------------------------------------------------------------- *)







